(** * ptCrypt.Asymmetric.RSA: prime-pair generation, RSA primitives, OAEP

    A shallow embedding of [ptCrypt/Asymmetric/RSA.py] and the properties
    its specification states about it.

    Python integers are [Z]; [//] and [%] are [Z.div] and [Z.modulo]
    (both floor, sign of the divisor, as in Python); [bytes] are
    [list byte]; a function that may return [None] returns an [option];
    exceptions, and loops that need not end, are results of [outcome]. *)

From Stdlib Require Import ZArith Znumtheory Zbitwise Zcong Lia List Bool.
From Stdlib Require Import Strings.Byte.
From Stdlib Require Import Zmod.ZmodInv.
From Bignums Require Import BigZ.
Import ListNotations.
Local Open Scope Z_scope.

(** ** Outcomes of a Python call *)

Inductive exn : Set :=
| ValueError | TypeError | AttributeError | AssertionError
| OverflowError | IndexError | ZeroDivisionError.

(** [Diverges] is the answer of a loop that is still running when the
    iteration budget is spent: every loop below takes a [fuel], the number
    of iterations it may make, and a routine hands the budget it was given
    to each loop it starts. *)
Inductive outcome (A : Type) : Type :=
| Returns (a : A)
| Raises (x : exn)
| Diverges.

Arguments Returns {A} a.
Arguments Raises {A} x.
Arguments Diverges {A}.

Definition obind {A B : Type} (c : outcome A) (k : A -> outcome B) : outcome B :=
  match c with
  | Returns a => k a
  | Raises x => Raises x
  | Diverges => Diverges
  end.

(** ** The secure random source

    [secrets.randbits] reads the operating system's generator.  The model
    makes the sequence of raw words it will deliver explicit: [entropy] is
    that sequence and [cursor] the number of words already drawn. *)

Record Rng : Type := mkRng { entropy : nat -> Z; cursor : nat }.

Definition M (A : Type) : Type := Rng -> outcome (A * Rng).

Definition ret {A : Type} (a : A) : M A := fun r => Returns (a, r).

Definition bind {A B : Type} (c : M A) (k : A -> M B) : M B :=
  fun r => match c r with
           | Returns (a, r') => k a r'
           | Raises x => Raises x
           | Diverges => Diverges
           end.

Definition raise {A : Type} (x : exn) : M A := fun _ => Raises x.

Definition diverge {A : Type} : M A := fun _ => Diverges.

Definition lift {A : Type} (c : outcome A) : M A :=
  fun r => obind c (fun a => Returns (a, r)).

Declare Scope py_scope.
Delimit Scope py_scope with py.
Notation "x <- c ;; k" := (bind c (fun x => k))
  (at level 61, c at next level, right associativity) : py_scope.
Notation "x <~ c ;; k" := (obind c (fun x => k))
  (at level 61, c at next level, right associativity) : py_scope.
Local Open Scope py_scope.

Module Py.

(** [secrets.randbits(k)]: an integer of [k] random bits, the [k] low bits
    of the next raw word; a negative [k] is a [ValueError]. *)
Definition randbits (k : Z) : M Z :=
  fun r =>
    if k <? 0 then Raises ValueError
    else Returns (Z.land (entropy r (cursor r)) (Z.ones k),
                  mkRng (entropy r) (S (cursor r))).

(** [int.bit_length()]. *)
Definition bit_length (z : Z) : Z :=
  match z with
  | Z0 => 0
  | Zpos p | Zneg p => Z.log2 (Zpos p) + 1
  end.

(** Modular exponentiation by squaring, on integers held in machine words
    as Python holds them; [powmod_spec] below shows that [powmod b e m] is
    [b ^ e mod m]. *)
Fixpoint powmod_big (b : bigZ) (e : positive) (m : bigZ) : bigZ :=
  match e with
  | xH => BigZ.modulo b m
  | xO e' => let t := powmod_big b e' m in BigZ.modulo (BigZ.mul t t) m
  | xI e' =>
      let t := powmod_big b e' m in
      BigZ.modulo (BigZ.mul (BigZ.modulo (BigZ.mul t t) m) b) m
  end.

Definition powmod (b e m : Z) : Z :=
  match e with
  | Zpos e' => BigZ.to_Z (powmod_big (BigZ.of_Z b) e' (BigZ.of_Z m))
  | _ => 1 mod m
  end.

(** The built-in [pow(b, e, m)]: [ValueError] for a zero modulus, and, for
    a negative exponent, when [b] has no inverse modulo [m]; the result has
    the sign of [m]. *)
Definition pow3 (b e m : Z) : outcome Z :=
  if m =? 0 then Raises ValueError
  else if 0 <=? e then Returns (powmod b e m)
  else if Z.gcd b m =? 1 then Returns (powmod (Z.invmod b m) (- e) m)
  else Raises ValueError.

End Py.

(** ** The collaborators of the module

    [ptCrypt.Math.base], [ptCrypt.Math.primality] and [ptCrypt.Util.keys]
    are imported by the module and are taken as parameters: the key-size
    tables, the probabilistic primality test and the two provable-prime
    constructions. *)

Record ShaweTaylor : Type :=
  mkST { st_status : bool; st_prime : Z; st_primeSeed : Z }.

Record Collaborators : Type := mkCollaborators {
  (** [keys.IFC_APPROVED_LENGTHS] *)
  IFC_APPROVED_LENGTHS : list Z;
  (** [keys.getIFCSecurityLevel(N)] *)
  getIFCSecurityLevel : Z -> Z;
  (** [keys.millerRabinTestsForIFC(N)], a tuple whose item [0] is used *)
  millerRabinTestsForIFC : Z -> Z * Z;
  (** [keys.getIFCAuxiliaryPrimesLegths(N, probablePrimes)] *)
  getIFCAuxiliaryPrimesLegths : Z -> bool -> Z * Z;
  (** [primality.millerRabin(n, rounds)] *)
  millerRabin : Z -> Z -> bool;
  (** [primality.shaweTaylor(length, seed)], a dict with the three keys *)
  shaweTaylor : Z -> Z -> ShaweTaylor;
  (** [primality.ifcProvablePrime], called with five positional arguments;
      a falsy answer is [None] *)
  ifcProvablePrime : Z -> Z -> Z -> Z -> Z -> option (Z * Z * Z * Z)
}.

Module Base.

(** Modelled from the spec: [base.gcd] of the math utility library, which
    is not among the sources ("gcd(a,b)"). *)
Definition gcd (a b : Z) : Z := Z.gcd a b.

End Base.

(** ** getSeed (B.3.2.1) *)

Section Seed.

Context (env : Collaborators).

(** [2 ** (2 * secLvl - 1)] is a float for a negative exponent, and [|]
    of an [int] and a float is a [TypeError]. *)
Definition getSeed (N : Z) : M (option Z) :=
  if negb (existsb (Z.eqb N) (IFC_APPROVED_LENGTHS env)) then ret None
  else
    let secLvl := getIFCSecurityLevel env N in
    r <- Py.randbits (2 * secLvl) ;;
    if 2 * secLvl - 1 <? 0 then raise TypeError
    else ret (Some (Z.lor r (2 ^ (2 * secLvl - 1)))).

End Seed.

(** ** generateProbablePrimes (FIPS 186-4, B.3.3) *)

Section ProbablePrimes.

Context (env : Collaborators).

(** The loop of step 4.  [continue] re-enters the loop with the counter
    unchanged; [break] leaves it with [p].  The Miller-Rabin test is run
    only on a candidate that passed the gcd test. *)
Fixpoint generateProbablePrimes_step4
    (fuel : nat) (e N testsCount coeff1 i : Z) : M (option Z) :=
  match fuel with
  | O => diverge
  | S fuel' =>
      r <- Py.randbits (N / 2) ;;
      let p := Z.lor r 1 in
      if p <? coeff1 then
        generateProbablePrimes_step4 fuel' e N testsCount coeff1 i
      else if (if Base.gcd (p - 1) e =? 1 then millerRabin env p testsCount
               else false) then
        ret (Some p)
      else
        let i := i + 1 in
        if 5 * N / 2 <=? i then ret None
        else generateProbablePrimes_step4 fuel' e N testsCount coeff1 i
  end.

(** The loop of step 5. *)
Fixpoint generateProbablePrimes_step5
    (fuel : nat) (e N testsCount coeff1 p i : Z) : M (option Z) :=
  match fuel with
  | O => diverge
  | S fuel' =>
      r <- Py.randbits (N / 2) ;;
      let q := Z.lor r 1 in
      if Z.abs (p - q) <=? 2 ^ (N / 2 - 100) then
        generateProbablePrimes_step5 fuel' e N testsCount coeff1 p i
      else if q <? coeff1 then
        generateProbablePrimes_step5 fuel' e N testsCount coeff1 p i
      else if (if Base.gcd (q - 1) e =? 1 then millerRabin env q testsCount
               else false) then
        ret (Some q)
      else
        let i := i + 1 in
        if 5 * N / 2 <=? i then ret None
        else generateProbablePrimes_step5 fuel' e N testsCount coeff1 p i
  end.

Definition generateProbablePrimes (fuel : nat) (e N : Z) : M (option (Z * Z)) :=
  if negb (N =? 2048) && negb (N =? 3072) then ret None
  else if (e <=? 2 ^ 16) || (2 ^ 256 <=? e) || (e mod 2 =? 0) then ret None
  else
    let testsCount := fst (millerRabinTestsForIFC env N) in
    let coeff1 := 665857 * 2 ^ (N / 2 - 1) / 470832 in
    p <- generateProbablePrimes_step4 fuel e N testsCount coeff1 0 ;;
    match p with
    | None => ret None
    | Some p =>
        q <- generateProbablePrimes_step5 fuel e N testsCount coeff1 p 0 ;;
        match q with
        | None => ret None
        | Some q => ret (Some (p, q))
        end
    end.

End ProbablePrimes.

(** ** The secret locals of a generation routine

    The seeds, auxiliary primes and witnesses a routine holds in local
    variables.  [None] is a name that has not been bound yet; a routine
    returns, next to its result, the values these names hold at the
    [return] statement it leaves through. *)

Record Secrets : Type := mkSecrets {
  workingSeed : option Z; pSeed : option Z; qSeed : option Z;
  primeSeed : option Z;
  Xp : option Z; Xq : option Z;
  Xp1 : option Z; Xp2 : option Z; Xq1 : option Z; Xq2 : option Z;
  p1 : option Z; p2 : option Z; q1 : option Z; q2 : option Z
}.

Definition unbound : Secrets :=
  mkSecrets None None None None None None None None None None None None None None.

(** An assignment [name = v]. *)
Definition set_workingSeed (v : Z) (s : Secrets) : Secrets :=
  mkSecrets (Some v) (pSeed s) (qSeed s) (primeSeed s) (Xp s)
            (Xq s) (Xp1 s) (Xp2 s) (Xq1 s) (Xq2 s)
            (p1 s) (p2 s) (q1 s) (q2 s).
Definition set_pSeed (v : Z) (s : Secrets) : Secrets :=
  mkSecrets (workingSeed s) (Some v) (qSeed s) (primeSeed s) (Xp s)
            (Xq s) (Xp1 s) (Xp2 s) (Xq1 s) (Xq2 s)
            (p1 s) (p2 s) (q1 s) (q2 s).
Definition set_qSeed (v : Z) (s : Secrets) : Secrets :=
  mkSecrets (workingSeed s) (pSeed s) (Some v) (primeSeed s) (Xp s)
            (Xq s) (Xp1 s) (Xp2 s) (Xq1 s) (Xq2 s)
            (p1 s) (p2 s) (q1 s) (q2 s).
Definition set_primeSeed (v : Z) (s : Secrets) : Secrets :=
  mkSecrets (workingSeed s) (pSeed s) (qSeed s) (Some v) (Xp s)
            (Xq s) (Xp1 s) (Xp2 s) (Xq1 s) (Xq2 s)
            (p1 s) (p2 s) (q1 s) (q2 s).
Definition set_Xp (v : Z) (s : Secrets) : Secrets :=
  mkSecrets (workingSeed s) (pSeed s) (qSeed s) (primeSeed s) (Some v)
            (Xq s) (Xp1 s) (Xp2 s) (Xq1 s) (Xq2 s)
            (p1 s) (p2 s) (q1 s) (q2 s).
Definition set_Xq (v : Z) (s : Secrets) : Secrets :=
  mkSecrets (workingSeed s) (pSeed s) (qSeed s) (primeSeed s) (Xp s)
            (Some v) (Xp1 s) (Xp2 s) (Xq1 s) (Xq2 s)
            (p1 s) (p2 s) (q1 s) (q2 s).
Definition set_Xp1 (v : Z) (s : Secrets) : Secrets :=
  mkSecrets (workingSeed s) (pSeed s) (qSeed s) (primeSeed s) (Xp s)
            (Xq s) (Some v) (Xp2 s) (Xq1 s) (Xq2 s)
            (p1 s) (p2 s) (q1 s) (q2 s).
Definition set_Xp2 (v : Z) (s : Secrets) : Secrets :=
  mkSecrets (workingSeed s) (pSeed s) (qSeed s) (primeSeed s) (Xp s)
            (Xq s) (Xp1 s) (Some v) (Xq1 s) (Xq2 s)
            (p1 s) (p2 s) (q1 s) (q2 s).
Definition set_Xq1 (v : Z) (s : Secrets) : Secrets :=
  mkSecrets (workingSeed s) (pSeed s) (qSeed s) (primeSeed s) (Xp s)
            (Xq s) (Xp1 s) (Xp2 s) (Some v) (Xq2 s)
            (p1 s) (p2 s) (q1 s) (q2 s).
Definition set_Xq2 (v : Z) (s : Secrets) : Secrets :=
  mkSecrets (workingSeed s) (pSeed s) (qSeed s) (primeSeed s) (Xp s)
            (Xq s) (Xp1 s) (Xp2 s) (Xq1 s) (Some v)
            (p1 s) (p2 s) (q1 s) (q2 s).
Definition set_p1 (v : Z) (s : Secrets) : Secrets :=
  mkSecrets (workingSeed s) (pSeed s) (qSeed s) (primeSeed s) (Xp s)
            (Xq s) (Xp1 s) (Xp2 s) (Xq1 s) (Xq2 s)
            (Some v) (p2 s) (q1 s) (q2 s).
Definition set_p2 (v : Z) (s : Secrets) : Secrets :=
  mkSecrets (workingSeed s) (pSeed s) (qSeed s) (primeSeed s) (Xp s)
            (Xq s) (Xp1 s) (Xp2 s) (Xq1 s) (Xq2 s)
            (p1 s) (Some v) (q1 s) (q2 s).
Definition set_q1 (v : Z) (s : Secrets) : Secrets :=
  mkSecrets (workingSeed s) (pSeed s) (qSeed s) (primeSeed s) (Xp s)
            (Xq s) (Xp1 s) (Xp2 s) (Xq1 s) (Xq2 s)
            (p1 s) (p2 s) (Some v) (q2 s).
Definition set_q2 (v : Z) (s : Secrets) : Secrets :=
  mkSecrets (workingSeed s) (pSeed s) (qSeed s) (primeSeed s) (Xp s)
            (Xq s) (Xp1 s) (Xp2 s) (Xq1 s) (Xq2 s)
            (p1 s) (p2 s) (q1 s) (Some v).

(** What a routine leaves behind: its result and its secret locals. *)
Definition Exit : Type := (option (Z * Z) * Secrets)%type.

(** ** generateProvablePrimes (B.3.2.2) and
       geneareteProvablePrimesWithConditions (B.3.4) *)

Section ProvablePrimes.

Context (env : Collaborators).

(** Steps 7 to 10: the [while True] loop and the statements after it. *)
Fixpoint generateProvablePrimes_step7
    (fuel : nat) (e N L N1 N2 p workingSeed : Z) (s : Secrets) : outcome Exit :=
  match fuel with
  | O => Diverges
  | S fuel' =>
      match ifcProvablePrime env L N1 N2 workingSeed e with
      | None => Returns (None, s)
      | Some (q, q1, q2, qSeed) =>
          let s := set_qSeed qSeed (set_q2 q2 (set_q1 q1 s)) in
          let workingSeed := qSeed in
          let s := set_workingSeed workingSeed s in
          if 2 ^ (N / 2 - 100) <? Z.abs (p - q) then
            let s := set_pSeed 0 s in
            let s := set_qSeed 0 s in
            let s := set_workingSeed 0 s in
            Returns (Some (p, q), s)
          else generateProvablePrimes_step7 fuel' e N L N1 N2 p workingSeed s
      end
  end.

Definition generateProvablePrimes (fuel : nat) (e N seed : Z) : outcome Exit :=
  if negb (N =? 2048) && negb (N =? 3072) then Returns (None, unbound)
  else if (e <=? 2 ^ 16) || (2 ^ 256 <=? e) || (e mod 2 =? 0)
  then Returns (None, unbound)
  else
    let securityStrength := getIFCSecurityLevel env N in
    if negb (Py.bit_length seed =? 2 * securityStrength)
    then Returns (None, unbound)
    else
      let workingSeed := seed in
      let s := set_workingSeed workingSeed unbound in
      let L := N / 2 in
      let N1 := 1 in
      let N2 := 1 in
      let firstSeed := workingSeed in
      match ifcProvablePrime env L N1 N2 firstSeed e with
      | None => Returns (None, s)
      | Some (p, p1, p2, pSeed) =>
          let s := set_pSeed pSeed (set_p2 p2 (set_p1 p1 s)) in
          let workingSeed := pSeed in
          let s := set_workingSeed workingSeed s in
          generateProvablePrimes_step7 fuel e N L N1 N2 p workingSeed s
      end.

(** Steps 7 to 10 of B.3.4. *)
Fixpoint geneareteProvablePrimesWithConditions_step7
    (fuel : nat) (e N q1Len q2Len p workingSeed : Z) (s : Secrets) : outcome Exit :=
  match fuel with
  | O => Diverges
  | S fuel' =>
      match ifcProvablePrime env (N / 2) e workingSeed q1Len q2Len with
      | None => Returns (None, s)
      | Some (q, q1, q2, qSeed) =>
          let s := set_qSeed qSeed (set_q2 q2 (set_q1 q1 s)) in
          let workingSeed := qSeed in
          let s := set_workingSeed workingSeed s in
          if 2 ^ (N / 2 - 100) <? Z.abs (p - q) then
            let s := set_qSeed 0 s in
            let s := set_pSeed 0 s in
            let s := set_workingSeed 0 s in
            Returns (Some (p, q), s)
          else
            geneareteProvablePrimesWithConditions_step7
              fuel' e N q1Len q2Len p workingSeed s
      end
  end.

(** [geneareteProvablePrimesWithConditions(e, N, seed)], FIPS 186-4
    B.3.4.  The source calls [getIFCAuxiliaryPrimesLegths(N)] without its
    second argument, which is taken to default to [False]. *)
Definition geneareteProvablePrimesWithConditions
    (fuel : nat) (e N seed : Z) : outcome Exit :=
  if negb (N =? 1024) && negb (N =? 2048) && negb (N =? 3072)
  then Returns (None, unbound)
  else if (e <=? 2 ^ 16) || (2 ^ 256 <=? e) then Returns (None, unbound)
  else
    let securityLevel := getIFCSecurityLevel env N in
    if negb (Py.bit_length seed =? 2 * securityLevel)
    then Returns (None, unbound)
    else
      let workingSeed := seed in
      let s := set_workingSeed workingSeed unbound in
      let '(p1Len, p2Len) := getIFCAuxiliaryPrimesLegths env N false in
      let '(q1Len, q2Len) := getIFCAuxiliaryPrimesLegths env N false in
      match ifcProvablePrime env (N / 2) e workingSeed p1Len p2Len with
      | None => Returns (None, s)
      | Some (p, p1, p2, pSeed) =>
          let s := set_pSeed pSeed (set_p2 p2 (set_p1 p1 s)) in
          let workingSeed := pSeed in
          let s := set_workingSeed workingSeed s in
          geneareteProvablePrimesWithConditions_step7
            fuel e N q1Len q2Len p workingSeed s
      end.

End ProvablePrimes.

(** ** generateProbablePrimeWithAuxiliaryPrimes (C.9) *)

Section AuxiliaryPrimes.

Context (env : Collaborators).

(** How the loop of steps 5 to 10 is left: [return (Y, X)], [return None],
    or [break] back to step 3. *)
Inductive Step5 : Set :=
| Found (Y : Z)
| Exhausted
| Redraw.

Fixpoint auxiliaryPrimes_step5
    (fuel : nat) (p1 p2 N e testsCount Y i : Z) : outcome Step5 :=
  match fuel with
  | O => Diverges
  | S fuel' =>
      if 2 ^ (N / 2) <=? Y then Returns Redraw
      else if (if Base.gcd (Y - 1) e =? 1 then millerRabin env Y testsCount
               else false)
      then Returns (Found Y)
      else
        let i := i + 1 in
        if 5 * (N / 2) <=? i then Returns Exhausted
        else auxiliaryPrimes_step5 fuel' p1 p2 N e testsCount (Y + 2 * p1 * p2) i
  end.

(** [secrets.randbits(N // 2) | 2 ** (N // 2 - 1)].  For [N // 2 = 0] the
    right operand is the float [0.5] and [|] is a [TypeError]; for a
    negative [N // 2], [randbits] is a [ValueError]. *)
Definition auxiliaryPrimes_drawX (N : Z) : M Z :=
  r <- Py.randbits (N / 2) ;;
  if N / 2 - 1 <? 0 then raise TypeError
  else ret (Z.lor r (2 ^ (N / 2 - 1))).

(** [while X < xLowBorder or X > xHighBorder: X = ...] *)
Fixpoint auxiliaryPrimes_resample
    (fuel : nat) (N xLowBorder xHighBorder X : Z) : M Z :=
  match fuel with
  | O => diverge
  | S fuel' =>
      if (X <? xLowBorder) || (xHighBorder <? X) then
        X <- auxiliaryPrimes_drawX N ;;
        auxiliaryPrimes_resample fuel' N xLowBorder xHighBorder X
      else ret X
  end.

(** Step 3: the outer [while True].  Each loop it starts gets the whole
    budget [budget]; [fuel] counts the iterations of this loop. *)
Fixpoint auxiliaryPrimes_step3
    (budget fuel : nat) (p1 p2 N e testsCount R xLowBorder xHighBorder : Z)
    : M (option (Z * Z)) :=
  match fuel with
  | O => diverge
  | S fuel' =>
      X <- auxiliaryPrimes_drawX N ;;
      X <- auxiliaryPrimes_resample budget N xLowBorder xHighBorder X ;;
      if negb ((X <=? xHighBorder) && (xLowBorder <=? X)) then raise AssertionError
      else
        let Y := X + (R - X) mod (2 * p1 * p2) in
        r <- lift (auxiliaryPrimes_step5 budget p1 p2 N e testsCount Y 0) ;;
        match r with
        | Found Y => ret (Some (Y, X))
        | Exhausted => ret None
        | Redraw =>
            auxiliaryPrimes_step3 budget fuel' p1 p2 N e testsCount R
                                  xLowBorder xHighBorder
        end
  end.

Definition generateProbablePrimeWithAuxiliaryPrimes
    (fuel : nat) (p1 p2 N e : Z) : M (option (Z * Z)) :=
  let testsCount := fst (millerRabinTestsForIFC env N) in
  if negb (Base.gcd (2 * p1) p2 =? 1) then ret None
  else
    a <- lift (Py.pow3 p2 (-1) (2 * p1)) ;;
    b <- lift (Py.pow3 (2 * p1) (-1) p2) ;;
    let R := a * p2 - b * 2 * p1 in
    if negb ((R mod (2 * p1) =? 1) && (R mod p2 =? (-1) mod p2))
    then raise AssertionError
    else
      let xLowBorder := 665857 / 470832 * 2 ^ (N / 2 - 1) in
      let xHighBorder := 2 ^ (N / 2) - 1 in
      auxiliaryPrimes_step3 fuel fuel p1 p2 N e testsCount R xLowBorder xHighBorder.

End AuxiliaryPrimes.

(** ** generateProbablePrimesWithConditions (B.3.5 and B.3.6) *)

Section ProbablePrimesWithConditions.

Context (env : Collaborators).

(** [secrets.randbits(len) | 2 ** (len - 1) | 1] *)
Definition drawAuxiliary (len : Z) : M Z :=
  r <- Py.randbits len ;;
  if len - 1 <? 0 then raise TypeError
  else ret (Z.lor (Z.lor r (2 ^ (len - 1))) 1).

(** [while not primality.millerRabin(X, testsCount): X += 2] *)
Fixpoint nextProbablePrime (fuel : nat) (testsCount X : Z) : outcome Z :=
  match fuel with
  | O => Diverges
  | S fuel' =>
      if negb (millerRabin env X testsCount)
      then nextProbablePrime fuel' testsCount (X + 2)
      else Returns X
  end.

(** B.3.5, steps 6 and 7: the [while True] of the seed-driven branch. *)
Fixpoint seedDriven_step6
    (budget fuel : nat) (e N q1Len q2Len p Xp primeSeed : Z) (s : Secrets)
    : M Exit :=
  match fuel with
  | O => diverge
  | S fuel' =>
      let res := shaweTaylor env q1Len primeSeed in
      if negb (st_status res) then ret (None, s)
      else
        let q1 := st_prime res in
        let primeSeed := st_primeSeed res in
        let s := set_primeSeed primeSeed (set_q1 q1 s) in
        let res := shaweTaylor env q2Len primeSeed in
        if negb (st_status res) then ret (None, s)
        else
          let q2 := st_prime res in
          let primeSeed := st_primeSeed res in
          let s := set_primeSeed primeSeed (set_q2 q2 s) in
          q <- generateProbablePrimeWithAuxiliaryPrimes env budget q1 q2 N e ;;
          match q with
          | None => ret (None, s)
          | Some (q, Xq) =>
              let s := set_Xq Xq s in
              if (2 ^ (N / 2 - 100) <? Z.abs (p - q))
                 && (2 ^ (N / 2 - 100) <? Z.abs (Xp - Xq))
              then ret (Some (p, q), s)
              else seedDriven_step6 budget fuel' e N q1Len q2Len p Xp primeSeed s
          end
  end.

Definition seedDriven
    (fuel : nat) (e N seed p1Len p2Len q1Len q2Len : Z) : M Exit :=
  let s := unbound in
  let res := shaweTaylor env p1Len seed in
  if negb (st_status res) then ret (None, s)
  else
    let p1 := st_prime res in
    let primeSeed := st_primeSeed res in
    let s := set_primeSeed primeSeed (set_p1 p1 s) in
    let res := shaweTaylor env p2Len primeSeed in
    if negb (st_status res) then ret (None, s)
    else
      let p2 := st_prime res in
      let primeSeed := st_primeSeed res in
      let s := set_primeSeed primeSeed (set_p2 p2 s) in
      p <- generateProbablePrimeWithAuxiliaryPrimes env fuel p1 p2 N e ;;
      match p with
      | None => ret (None, s)
      | Some (p, Xp) =>
          let s := set_Xp Xp s in
          seedDriven_step6 fuel fuel e N q1Len q2Len p Xp primeSeed s
      end.

(** B.3.6, steps 5 and 6: the [while True] of the direct-random branch. *)
Fixpoint directRandom_step5
    (budget fuel : nat) (e N testsCount q1Len q2Len p Xp : Z) (s : Secrets)
    : M Exit :=
  match fuel with
  | O => diverge
  | S fuel' =>
      Xq1 <- drawAuxiliary q1Len ;;
      let s := set_Xq1 Xq1 s in
      Xq2 <- drawAuxiliary q2Len ;;
      let s := set_Xq2 Xq2 s in
      Xq1 <- lift (nextProbablePrime budget testsCount Xq1) ;;
      let s := set_Xq1 Xq1 s in
      Xq2 <- lift (nextProbablePrime budget testsCount Xq2) ;;
      let s := set_Xq2 Xq2 s in
      res <- generateProbablePrimeWithAuxiliaryPrimes env budget Xq1 Xq2 N e ;;
      match res with
      | None => ret (None, s)
      | Some (q, Xq) =>
          let s := set_Xq Xq s in
          if (2 ^ (N / 2 - 100) <? Z.abs (p - q))
             && (2 ^ (N / 2 - 100) <? Z.abs (Xp - Xq))
          then ret (Some (p, q), s)
          else directRandom_step5 budget fuel' e N testsCount q1Len q2Len p Xp s
      end
  end.

Definition directRandom
    (fuel : nat) (e N testsCount p1Len p2Len q1Len q2Len : Z) : M Exit :=
  let s := unbound in
  Xp1 <- drawAuxiliary p1Len ;;
  let s := set_Xp1 Xp1 s in
  Xp2 <- drawAuxiliary p2Len ;;
  let s := set_Xp2 Xp2 s in
  Xp1 <- lift (nextProbablePrime fuel testsCount Xp1) ;;
  let s := set_Xp1 Xp1 s in
  Xp2 <- lift (nextProbablePrime fuel testsCount Xp2) ;;
  let s := set_Xp2 Xp2 s in
  res <- generateProbablePrimeWithAuxiliaryPrimes env fuel Xp1 Xp2 N e ;;
  match res with
  | None => ret (None, s)
  | Some (p, Xp) =>
      let s := set_Xp Xp s in
      directRandom_step5 fuel fuel e N testsCount q1Len q2Len p Xp s
  end.

(** Step 8 (7): the assignments before [return (p, q)]. *)
Definition zeroize (s : Secrets) : Secrets :=
  let s := set_Xp 0 s in
  let s := set_Xq 0 s in
  let s := set_Xp1 0 s in
  let s := set_Xp2 0 s in
  let s := set_Xq1 0 s in
  let s := set_Xq2 0 s in
  let s := set_primeSeed 0 s in
  let s := set_p1 0 s in
  let s := set_p2 0 s in
  let s := set_q1 0 s in
  let s := set_q2 0 s in
  s.

(** [seed] is an [int] or [None]; [None.bit_length()] is an
    [AttributeError]. *)
Definition generateProbablePrimesWithConditions
    (fuel : nat) (e N : Z) (seed : option Z) (probablePrimes : bool) : M Exit :=
  if negb (N =? 1024) && negb (N =? 2048) && negb (N =? 3072)
  then ret (None, unbound)
  else if (e <=? 2 ^ 16) || (2 ^ 256 <=? e) then ret (None, unbound)
  else
    let testsCount := fst (millerRabinTestsForIFC env N) in
    let securityLevel := getIFCSecurityLevel env N in
    wrongLength <-
      (if negb probablePrimes then
         match seed with
         | None => raise AttributeError
         | Some seed => ret (negb (Py.bit_length seed =? 2 * securityLevel))
         end
       else ret false) ;;
    if wrongLength then ret (None, unbound)
    else
      let '(p1Len, p2Len) := getIFCAuxiliaryPrimesLegths env N probablePrimes in
      let '(q1Len, q2Len) := getIFCAuxiliaryPrimesLegths env N probablePrimes in
      r <- (if negb probablePrimes then
              match seed with
              | None => raise AttributeError
              | Some seed => seedDriven fuel e N seed p1Len p2Len q1Len q2Len
              end
            else directRandom fuel e N testsCount p1Len p2Len q1Len q2Len) ;;
      match r with
      | (None, s) => ret (None, s)
      | (Some (p, q), s) => ret (Some (p, q), zeroize s)
      end.

End ProbablePrimesWithConditions.

(** ** Bytes *)

Module Bytes.

Definition to_Z (b : byte) : Z := Z.of_N (Byte.to_N b).

Definition of_Z (z : Z) : byte :=
  match Byte.of_N (Z.to_N (z mod 256)) with
  | Some b => b
  | None => x00
  end.

Definition len (s : list byte) : Z := Z.of_nat (length s).

Fixpoint eqb (a b : list byte) : bool :=
  match a, b with
  | [], [] => true
  | x :: a', y :: b' => Byte.eqb x y && eqb a' b'
  | _, _ => false
  end.

(** A slice bound [i] of a sequence of length [n]: a negative bound counts
    from the end, and bounds are clamped to the sequence. *)
Definition clamp (n i : Z) : Z :=
  if i <? 0 then Z.max (i + n) 0 else Z.min i n.

(** [s[a:b]]; an omitted bound is [None]. *)
Definition slice (s : list byte) (a b : option Z) : list byte :=
  let lo := match a with None => 0 | Some a => clamp (len s) a end in
  let hi := match b with None => len s | Some b => clamp (len s) b end in
  firstn (Z.to_nat (hi - lo)) (skipn (Z.to_nat lo) s).

(** [s[i]], an [int]; [IndexError] out of range. *)
Definition item (s : list byte) (i : Z) : outcome Z :=
  let j := if i <? 0 then i + len s else i in
  if j <? 0 then Raises IndexError
  else match nth_error s (Z.to_nat j) with
       | Some b => Returns (to_Z b)
       | None => Raises IndexError
       end.

End Bytes.

(** Python values of the two types the padding scan compares.  [==]
    between an [int] and a [bytes] object is [False], [!=] is [True]. *)
Inductive value : Type :=
| Int (z : Z)
| BytesVal (b : list byte).

Definition value_eqb (x y : value) : bool :=
  match x, y with
  | Int a, Int b => a =? b
  | BytesVal a, BytesVal b => Bytes.eqb a b
  | _, _ => false
  end.

(** The byte helpers of [ptCrypt.Math.base], which is not among the
    sources.  Integers are big-endian, as [int.to_bytes] and
    [int.from_bytes] have them. *)
Module BaseBytes.

(** Modelled from the spec: "byteLength(x) -> int", the number of bytes
    that hold [n]. *)
Definition byteLength (n : Z) : Z := (Py.bit_length n + 7) / 8.

(** The [size] low bytes of [n], most significant first. *)
Fixpoint big_endian (size : nat) (n : Z) : list byte :=
  match size with
  | O => []
  | S size' => big_endian size' (n / 256) ++ [Bytes.of_Z n]
  end.

(** [n.to_bytes(size, "big")]: [OverflowError] when [n] is negative or
    does not fit. *)
Definition to_bytes (n size : Z) : outcome (list byte) :=
  if size <? 0 then Raises ValueError
  else if (n <? 0) || (256 ^ size <=? n) then Raises OverflowError
  else Returns (big_endian (Z.to_nat size) n).

(** Modelled from the spec: "intToBytes(x, len?) -> bytes"; with a length
    the result is "exactly nLen bytes (left-zero-padded)", without one it
    has [byteLength(x)] bytes. *)
Definition intToBytes (n : Z) (size : option Z) : outcome (list byte) :=
  match size with
  | None => to_bytes n (byteLength n)
  | Some size => to_bytes n size
  end.

(** Modelled from the spec: "bytesToInt(b) -> int", the inverse of
    [intToBytes]. *)
Definition bytesToInt (b : list byte) : Z :=
  fold_left (fun acc x => acc * 256 + Bytes.to_Z x) b 0.

(** Modelled from the spec: "xor(a: bytes, b: bytes) -> bytes", byte by
    byte, over the common length. *)
Definition xor (a b : list byte) : list byte :=
  map (fun xy => Bytes.of_Z (Z.lxor (Bytes.to_Z (fst xy)) (Bytes.to_Z (snd xy))))
      (combine a b).

End BaseBytes.

(** ** hashlib

    A hash constructor, as [oaepEncrypt], [oaepDecrypt] and [MGF] use it:
    [hashFunction().digest_size] and [hashFunction(data).digest()]. *)

Record HashFunction : Type := mkHash {
  digest_size : Z;
  digest : list byte -> list byte
}.

(** [hashlib.sha256], the default hash of the module: SHA-256 as FIPS 180-4
    defines it, on 32-bit words held in [Z]. *)
Module Sha256.

Definition mask32 : Z := 0xffffffff.

Definition add32 (a b : Z) : Z := Z.land (a + b) mask32.

Definition rotr (n x : Z) : Z :=
  Z.lor (Z.shiftr x n) (Z.land (Z.shiftl x (32 - n)) mask32).

Definition Ch (x y z : Z) : Z :=
  Z.lxor (Z.land x y) (Z.land (Z.lxor x mask32) z).

Definition Maj (x y z : Z) : Z :=
  Z.lxor (Z.lxor (Z.land x y) (Z.land x z)) (Z.land y z).

Definition Sigma0 (x : Z) : Z := Z.lxor (Z.lxor (rotr 2 x) (rotr 13 x)) (rotr 22 x).
Definition Sigma1 (x : Z) : Z := Z.lxor (Z.lxor (rotr 6 x) (rotr 11 x)) (rotr 25 x).
Definition sigma0 (x : Z) : Z := Z.lxor (Z.lxor (rotr 7 x) (rotr 18 x)) (Z.shiftr x 3).
Definition sigma1 (x : Z) : Z := Z.lxor (Z.lxor (rotr 17 x) (rotr 19 x)) (Z.shiftr x 10).

(** The cube root of [n], rounded down: its bits from the top. *)
Definition cube_root (n : Z) : Z :=
  fold_left (fun r bit =>
               let r' := r + 2 ^ bit in
               if r' * r' * r' <=? n then r' else r)
            (map Z.of_nat (rev (seq 0 48))) 0.

Definition is_small_prime (n : Z) : bool :=
  forallb (fun d => negb (n mod Z.of_nat d =? 0)) (seq 2 (Z.to_nat n - 2)).

Definition small_primes (count : nat) : list Z :=
  firstn count (filter is_small_prime (map Z.of_nat (seq 2 310))).

(** The round constants: the first 32 bits of the fractional parts of the
    cube roots of the first 64 primes. *)
Definition K : list Z :=
  Eval vm_compute in
    map (fun p => cube_root (p * 2 ^ 96) mod 2 ^ 32) (small_primes 64).

Definition State : Type := (Z * Z * Z * Z * Z * Z * Z * Z)%type.

(** The initial hash value: the first 32 bits of the fractional parts of
    the square roots of the first 8 primes. *)
Definition H0 : State :=
  Eval vm_compute in
    match map (fun p => Z.sqrt (p * 2 ^ 64) mod 2 ^ 32) (small_primes 8) with
    | [a; b; c; d; e; f; g; h] => (a, b, c, d, e, f, g, h)
    | _ => (0, 0, 0, 0, 0, 0, 0, 0)
    end.

(** The message with its padding: a [1] bit, zeros, and the bit length on
    eight bytes, up to a multiple of 64 bytes. *)
Definition pad (msg : list byte) : list byte :=
  let l := Bytes.len msg in
  msg ++ [x80] ++ repeat x00 (Z.to_nat ((55 - l) mod 64))
      ++ BaseBytes.big_endian 8 (8 * l).

Fixpoint words (n : nat) (block : list byte) : list Z :=
  match n with
  | O => []
  | S n' => BaseBytes.bytesToInt (firstn 4 block) :: words n' (skipn 4 block)
  end.

(** The message schedule: [w] holds W_0 .. W_(t-1); [n] words are added. *)
Fixpoint schedule (n : nat) (w : list Z) : list Z :=
  match n with
  | O => w
  | S n' =>
      let t := length w in
      let at_ k := nth (t - k) w 0 in
      schedule n' (w ++ [add32 (add32 (sigma1 (at_ 2%nat)) (at_ 7%nat))
                               (add32 (sigma0 (at_ 15%nat)) (at_ 16%nat))])
  end.

Definition round (st : State) (kw : Z * Z) : State :=
  let '(a, b, c, d, e, f, g, h) := st in
  let t1 := add32 (add32 (add32 h (Sigma1 e)) (add32 (Ch e f g) (fst kw))) (snd kw) in
  let t2 := add32 (Sigma0 a) (Maj a b c) in
  (add32 t1 t2, a, b, c, add32 d t1, e, f, g).

Definition compress (st : State) (block : list byte) : State :=
  let w := schedule 48 (words 16 block) in
  let '(a, b, c, d, e, f, g, h) := fold_left round (combine K w) st in
  let '(a0, b0, c0, d0, e0, f0, g0, h0) := st in
  (add32 a0 a, add32 b0 b, add32 c0 c, add32 d0 d,
   add32 e0 e, add32 f0 f, add32 g0 g, add32 h0 h).

Fixpoint blocks (n : nat) (data : list byte) (st : State) : State :=
  match n with
  | O => st
  | S n' => blocks n' (skipn 64 data) (compress st (firstn 64 data))
  end.

Definition sha256 (msg : list byte) : list byte :=
  let data := pad msg in
  let '(a, b, c, d, e, f, g, h) := blocks (length data / 64) data H0 in
  BaseBytes.big_endian 4 a ++ BaseBytes.big_endian 4 b
    ++ BaseBytes.big_endian 4 c ++ BaseBytes.big_endian 4 d
    ++ BaseBytes.big_endian 4 e ++ BaseBytes.big_endian 4 f
    ++ BaseBytes.big_endian 4 g ++ BaseBytes.big_endian 4 h.

End Sha256.

Definition hashlib_sha256 : HashFunction := mkHash 32 Sha256.sha256.

(** ** The RSA primitives (PKCS#1) *)

Definition encrypt (e n m : Z) : outcome (option Z) :=
  if (m <? 0) || (n - 1 <? m) then Returns None
  else c <~ Py.pow3 m e n ;; Returns (Some c).

Definition decrypt (d n c : Z) : outcome (option Z) :=
  if (c <? 0) || (n - 1 <? c) then Returns None
  else m <~ Py.pow3 c d n ;; Returns (Some m).

Definition sign (d n m : Z) : outcome (option Z) :=
  if (m <? 0) || (n - 1 <? m) then Returns None
  else s <~ Py.pow3 m d n ;; Returns (Some s).

Definition verify (e n s : Z) : outcome (option Z) :=
  if (s <? 0) || (n - 1 <? s) then Returns None
  else m <~ Py.pow3 s e n ;; Returns (Some m).

(** ** MGF and OAEP *)

(** [for counter in range(top): t = t + hashFunction(seed + c).digest()],
    on the counters [counter], [counter + 1], ... ([todo] of them). *)
Fixpoint MGF_loop (hashFunction : HashFunction) (seed : list byte)
    (todo : nat) (counter : Z) (t : list byte) : outcome (list byte) :=
  match todo with
  | O => Returns t
  | S todo' =>
      c <~ BaseBytes.intToBytes counter (Some 4) ;;
      MGF_loop hashFunction seed todo' (counter + 1)
               (t ++ digest hashFunction (seed ++ c))
  end.

Definition MGF (seed : list byte) (length : Z) (hashFunction : HashFunction)
    : outcome (option (list byte)) :=
  let hashLength := digest_size hashFunction in
  if 2 ^ 32 * hashLength <? length then Returns None
  else if hashLength =? 0 then Raises ZeroDivisionError
  else
    let top := length / hashLength in
    let top := if negb (length mod hashLength =? 0) then top + 1 else top in
    t <~ MGF_loop hashFunction seed (Z.to_nat top) 0 [] ;;
    Returns (Some (Bytes.slice t None (Some length))).

(** [base.xor] applied to what [MGF] returned: [None] is not a [bytes]
    object. *)
Definition xor_mask (a : list byte) (mask : option (list byte))
    : outcome (list byte) :=
  match mask with
  | None => Raises TypeError
  | Some mask => Returns (BaseBytes.xor a mask)
  end.

Definition oaepEncrypt (e n : Z) (message label : list byte)
    (hashFunction : HashFunction) : M (option (list byte)) :=
  nBytes <- lift (BaseBytes.intToBytes n None) ;;
  let nLength := Bytes.len nBytes in
  let mLength := Bytes.len message in
  let hLength := digest_size hashFunction in
  if nLength - 2 * hLength - 2 <? mLength then ret None
  else
    let lHash := digest hashFunction label in
    let ps := repeat x00 (Z.to_nat (nLength - mLength - 2 * hLength - 2)) in
    let db := lHash ++ ps ++ [x01] ++ message in
    r <- Py.randbits (hLength * 8) ;;
    seed <- lift (BaseBytes.intToBytes r None) ;;
    dbMask <- lift (MGF seed (nLength - hLength - 1) hashlib_sha256) ;;
    maskedDb <- lift (xor_mask db dbMask) ;;
    seedMask <- lift (MGF maskedDb hLength hashlib_sha256) ;;
    maskedSeed <- lift (xor_mask seed seedMask) ;;
    let em := [x00] ++ maskedSeed ++ maskedDb in
    let m := BaseBytes.bytesToInt em in
    c <- lift (encrypt e n m) ;;
    match c with
    | None => raise TypeError
    | Some c =>
        out <- lift (BaseBytes.intToBytes c (Some nLength)) ;;
        ret (Some out)
    end.

(** The padding scan.  [db[index]] is an [int]; it is compared with the
    [bytes] objects [b"\x01"] and [b"\x00"]; no statement of the loop
    changes [index]. *)
Fixpoint oaepDecrypt_scan (fuel : nat) (db : list byte) (index : Z)
    : outcome (option (list byte)) :=
  match fuel with
  | O => Diverges
  | S fuel' =>
      if index <? Bytes.len db then
        x <~ Bytes.item db index ;;
        if value_eqb (Int x) (BytesVal [x01])
        then Returns (Some (Bytes.slice db (Some (index + 1)) None))
        else
          y <~ Bytes.item db index ;;
          if negb (value_eqb (Int y) (BytesVal [x00])) then Returns None
          else oaepDecrypt_scan fuel' db index
      else Returns (Some (Bytes.slice db (Some (index + 1)) None))
  end.

Definition oaepDecrypt (fuel : nat) (d n : Z) (ciphertext label : list byte)
    (hashFunction : HashFunction) : outcome (option (list byte)) :=
  let nLength := BaseBytes.byteLength n in
  let hLength := digest_size hashFunction in
  if negb (Bytes.len ciphertext =? nLength) then Returns None
  else if nLength <? 2 * hLength + 2 then Returns None
  else
    let c := BaseBytes.bytesToInt ciphertext in
    m <~ decrypt d n c ;;
    match m with
    | None => Raises TypeError
    | Some m =>
        em <~ BaseBytes.intToBytes m (Some nLength) ;;
        let lHash := digest hashFunction label in
        Y <~ Bytes.item em 0 ;;
        let maskedSeed := Bytes.slice em (Some 1) (Some (1 + hLength)) in
        let maskedDb := Bytes.slice em (Some (1 + hLength)) (Some nLength) in
        seedMask <~ MGF maskedDb hLength hashlib_sha256 ;;
        seed <~ xor_mask maskedSeed seedMask ;;
        dbMask <~ MGF seed (nLength - hLength - 1) hashlib_sha256 ;;
        db <~ xor_mask maskedDb dbMask ;;
        let lHash_ := Bytes.slice db None (Some hLength) in
        if negb (Bytes.eqb lHash lHash_) then Returns None
        else
          let index := hLength in
          oaepDecrypt_scan fuel db index
    end.

(** A call that returns [None] or raises: it returns no message. *)
Definition no_message (o : outcome (option (list byte))) : Prop :=
  o = Returns None \/ exists x : exn, o = Raises x.

(** [oaepDecrypt(d, n, oaepEncrypt(e, n, message, label, hash), label,
    hash)]; [len(None)] is a [TypeError]. *)
Definition oaepRoundTrip (fuel : nat) (e d n : Z) (message label : list byte)
    (hashFunction : HashFunction) : M (option (list byte)) :=
  ciphertext <- oaepEncrypt e n message label hashFunction ;;
  match ciphertext with
  | None => raise TypeError
  | Some ciphertext =>
      lift (oaepDecrypt fuel d n ciphertext label hashFunction)
  end.

(** ** Executable collaborators

    An instance of [Collaborators] on which the routines can be run: the
    tables of FIPS 186-4 and a Miller-Rabin test whose bases are the first
    [rounds] primes, computed on machine-word integers. *)

Module Reference.

(** [p = d * 2 ^ s] with [d] odd. *)
Fixpoint odd_part (p : positive) : positive * nat :=
  match p with
  | xO p' => let '(d, s) := odd_part p' in (d, S s)
  | _ => (p, O)
  end.

(** Does squaring [x] at most [s] times reach [n - 1]? *)
Fixpoint reaches_minus_one (s : nat) (x n : bigZ) : bool :=
  match s with
  | O => false
  | S s' =>
      let x := BigZ.modulo (BigZ.mul x x) n in
      BigZ.eqb x (BigZ.sub n BigZ.one) || reaches_minus_one s' x n
  end.

Definition strong_probable_prime (n a : Z) : bool :=
  match n - 1 with
  | Zpos p =>
      let '(d, s) := odd_part p in
      let n' := BigZ.of_Z n in
      let x := Py.powmod_big (BigZ.of_Z a) d n' in
      BigZ.eqb x BigZ.one || BigZ.eqb x (BigZ.sub n' BigZ.one)
      || reaches_minus_one (Nat.pred s) x n'
  | _ => false
  end.

Definition bases : list Z :=
  [2; 3; 5; 7; 11; 13; 17; 19; 23; 29; 31; 37; 41; 43; 47; 53; 59; 61; 67; 71;
   73; 79; 83; 89; 97; 101; 103; 107; 109; 113; 127; 131; 137; 139; 149; 151;
   157; 163; 167; 173; 179; 181; 191; 193; 197; 199; 211; 223; 227; 229].

Definition millerRabin (n rounds : Z) : bool :=
  if n <? 2 then false
  else if n <? 4 then true
  else if Z.even n then false
  else forallb (fun a => (a mod n =? 0) || strong_probable_prime n a)
               (firstn (Z.to_nat rounds) bases).

Definition getIFCSecurityLevel (N : Z) : Z :=
  if N =? 1024 then 80
  else if N =? 2048 then 112
  else if N =? 3072 then 128
  else 0.

Definition millerRabinTestsForIFC (N : Z) : Z * Z :=
  if N =? 1024 then (5, 28)
  else if N =? 2048 then (5, 38)
  else (4, 41).

Definition getIFCAuxiliaryPrimesLegths (N : Z) (probablePrimes : bool) : Z * Z :=
  if N =? 1024 then (101, 101)
  else if N =? 2048 then (141, 141)
  else (171, 171).

(** The provable-prime constructions answer from a record of earlier
    answers, keyed by the seed they are given (the fourth argument in
    [generateProvablePrimes], the third in
    [geneareteProvablePrimesWithConditions]); a seed that is not in the
    record is a failure of the construction. *)
Definition ifcProvablePrime (answers : list (Z * (Z * Z * Z * Z)))
    (a b c d e : Z) : option (Z * Z * Z * Z) :=
  match find (fun kv => (fst kv =? c) || (fst kv =? d)) answers with
  | Some kv => Some (snd kv)
  | None => None
  end.

Definition shaweTaylor (length seed : Z) : ShaweTaylor := mkST false 0 0.

Definition collaborators (answers : list (Z * (Z * Z * Z * Z))) : Collaborators :=
  mkCollaborators [1024; 2048; 3072] getIFCSecurityLevel millerRabinTestsForIFC
                  getIFCAuxiliaryPrimesLegths millerRabin shaweTaylor
                  (ifcProvablePrime answers).

End Reference.

(** ** Counting the candidates a search loop tests

    Of the [n] candidates [randbits(N // 2) | 1] that a loop draws from
    position [from] of the random source, the number that [reaches] lets
    through to the gcd and Miller-Rabin tests. *)

Fixpoint candidatesTested (reaches : Z -> bool) (N : Z) (entropy : nat -> Z)
    (from n : nat) : Z :=
  match n with
  | O => 0
  | S n' =>
      (if reaches (Z.lor (Z.land (entropy from) (Z.ones (N / 2))) 1) then 1 else 0)
      + candidatesTested reaches N entropy (S from) n'
  end.

(** The candidates that pass the range check of step 4.4, and those that
    pass the distance and range checks of steps 5.4 and 5.5. *)
Definition reaches_step4 (coeff1 : Z) (p : Z) : bool := negb (p <? coeff1).

Definition reaches_step5 (distance coeff1 p : Z) (q : Z) : bool :=
  negb (Z.abs (p - q) <=? distance) && negb (q <? coeff1).

(** ** Sample runs

    Raw words of the random source and answers of the provable-prime
    construction on which the routines are run below. *)

Module Sample.

(** A random source that delivers the words of [draws], then zeros. *)
Definition source (draws : list Z) : Rng := mkRng (fun i => nth i draws 0) 0.

(** Two 1024-bit draws for [generateProbablePrimes(65537, 2048)]. *)
Definition pair_draw_p : Z :=
  177548774333072934669079093349649022945515926747736161844549227076494812929546088146961704142035748671868772319080874838133830604016167563303831203679079926424338793087672232105495306030494959539070999638817220342912303982204560195099776186859472033839859762958872239870747721532621613960124231645354455851326.
Definition pair_draw_q : Z :=
  161208979581192603401677328298938331566512451707553645060332974854891851264975681124823183398575464552844674610807073859387853024540815280847719813307509119042347885843055494436279685262701109507763489255123494252216913542017658087553698165131761553854673804717251318584293995110956627850297852093525419915768.
Definition pair_p : Z :=
  177548774333072934669079093349649022945515926747736161844549227076494812929546088146961704142035748671868772319080874838133830604016167563303831203679079926424338793087672232105495306030494959539070999638817220342912303982204560195099776186859472033839859762958872239870747721532621613960124231645354455851327.
Definition pair_q : Z :=
  161208979581192603401677328298938331566512451707553645060332974854891851264975681124823183398575464552844674610807073859387853024540815280847719813307509119042347885843055494436279685262701109507763489255123494252216913542017658087553698165131761553854673804717251318584293995110956627850297852093525419915769.

(** Auxiliary primes and a 512-bit draw for
    [generateProbablePrimeWithAuxiliaryPrimes(p1, p2, 1024, 65537)]. *)
Definition aux_p1 : Z :=
  2205773509948124187326430508301.
Definition aux_p2 : Z :=
  1474630450100781855829261926349.
Definition aux_draw : Z :=
  1390894260932856430207288789366669484535471429815176411887228323748969689079280913803458629012527375436818555868513151724385381525270985089101746629935214.
Definition aux_X : Z :=
  8094798225904154979994301288469592548275154340111373100749009045609851704116054402204395778095979089281834484961756177151262322931244270062318571132977262.
Definition aux_Y : Z :=
  8094798225904154979994301288469592548275154340111373100749009045609851704116054402204395778101788041414847493317556890975911054043112114052149259978579411.

(** Draws for [generateProbablePrimesWithConditions] with
    [probablePrimes = True] and the even exponent [2 ** 17]. *)
Definition even_draw_Xp1 : Z :=
  983140850195285884884652224450.
Definition even_draw_Xp2 : Z :=
  767175240766531927508716404086.
Definition even_draw_X : Z :=
  2435357826195642694961281442801823994500681788474057633409129866523300739268685252651250036560159663855912831296877464888.
Definition even_Xp1 : Z :=
  2250791450423515286381355429827.
Definition even_Xp2 : Z :=
  2034825840994761329005419609463.

(** Six draws on which [generateProbablePrimesWithConditions(65537, 1024,
    None, True)] returns a pair. *)
Definition direct_draw_Xp1 : Z :=
  349903509220105516062161873786.
Definition direct_draw_Xp2 : Z :=
  1032260007182070812177560634646.
Definition direct_draw_Xp : Z :=
  7940694579956926111395592719877151254716594230336665249095920184079580513645507695350661064192434842671298959191116631330480300839703070324914655297988815.
Definition direct_draw_Xq1 : Z :=
  1248619500295606120686185404236.
Definition direct_draw_Xq2 : Z :=
  845221884915271418279567156286.
Definition direct_draw_Xq : Z :=
  62085822354775293206447318171800638408896304521222990929981308598607635223193581633543490031701220414744706603344319251085897739433057903880605546909015.
Definition direct_p : Z :=
  7940694579956926111395592719877151254716594230336665249095920184079580513645507695350661064195585275071380325703956353564539435046365517969436249757788269.
Definition direct_q : Z :=
  6765989787326073842993459817274723702148579214817419679791762030459489650259967070034480639122607136402290165582352335918056379372147305314119972586376843.

(** An iteration budget. *)
Definition iterations (n : Z) : nat := Z.to_nat n.

(** A source that delivers the same word for ever. *)
Definition constant (word : Z) : Rng := mkRng (fun _ => word) 0.

(** A 1024-bit draw [d] with [d | 1 = 65537 * m + 1], above the lower
    bound of [generateProbablePrimes] for [N = 2048]. *)
Definition tested_draw : Z := 65537 * (2 * ((2 ^ 1024 - 2) / (2 * 65537))).

(** A 224-bit seed and the answers of [ifcProvablePrime] to it and to the
    seeds it returns. *)
Definition seed224 : Z :=
  22808771443991946354625936662715184169002424308806410069034808892169.
Definition answer_pSeed : Z :=
  17510607825139195789511223933084720560212320177973917702049481610607.
Definition answer_qSeed : Z :=
  20026306462844828173835094429160550302987853039849668398539776220737.
Definition answer_p1 : Z :=
  1519980587858525029711196143798739694849541.
Definition answer_p2 : Z :=
  2782844486133814049658149110192651333333919.
Definition answer_q1 : Z :=
  2340150101082847518758828682935003708444903.
Definition answer_q2 : Z :=
  1937216266817033901653960029077040198776581.

Definition answers : list (Z * (Z * Z * Z * Z)) :=
  [ (seed224, (pair_p, answer_p1, answer_p2, answer_pSeed));
    (answer_pSeed, (pair_q, answer_q1, answer_q2, answer_qSeed)) ].

(** An RSA key on the sample pair: [rsa_d] is the inverse of 65537 modulo
    [lcm(pair_p - 1, pair_q - 1)]; and a 256-bit draw for the OAEP seed. *)
Definition rsa_n : Z := pair_p * pair_q.
Definition rsa_d : Z :=
  1775555760268562397659350575728791337234681830126361821089580971624730705376330262984277569919288321645569646866691360313980414351045924235216548506809640611638732609212276001737205507789880302181571009887735800706519925761095362192376674187963826276016651595171532574048696727361609150815970516106232047232930228024924856838937092842538877633738720798149709762688391154388727717409278320754136154732342611145575799412906165705747416705396460978702946280801936352103074438144202379743143735607024596951242350306933283407531841429988291816211994797280372801022490733298917093262980168941429777218532487630712055824665.
Definition oaep_draw : Z :=
  95097065754048712493019462230827768523616324208853691743435754128633565197368.

(** The message [b"hi"]. *)
Definition message : list byte := [x68; x69].

(** The secret locals with which the provable routines return the sample
    pair, and those with which the direct-random routine returns. *)
Definition provable_exit : Secrets :=
  mkSecrets (Some 0) (Some 0) (Some 0) None None None None None None None
            (Some answer_p1) (Some answer_p2) (Some answer_q1) (Some answer_q2).

Definition direct_draws : list Z :=
  [direct_draw_Xp1; direct_draw_Xp2; direct_draw_Xp;
   direct_draw_Xq1; direct_draw_Xq2; direct_draw_Xq].

Definition direct_exit : Secrets :=
  mkSecrets None None None (Some 0) (Some 0) (Some 0) (Some 0) (Some 0)
            (Some 0) (Some 0) (Some 0) (Some 0) (Some 0) (Some 0).

End Sample.

(** ** Tactics *)

(** One step through [x <- c ;; k] run on [r]: the cases of [c r], of which
    only [Returns (a, r')] is kept when the goal rules the others out. *)
Ltac step_bind a r' E :=
  match goal with
  | |- context [bind ?c ?k ?r] =>
      unfold bind at 1;
      destruct (c r) as [[a r'] | |] eqn:E; try discriminate
  end.

(** * Properties *)

(** ** SHA-256 on the test vector of FIPS 180-4 *)

Example sha256_abc :
  map Bytes.to_Z (Sha256.sha256 [x61; x62; x63])
  = [0xba; 0x78; 0x16; 0xbf; 0x8f; 0x01; 0xcf; 0xea; 0x41; 0x41; 0x40; 0xde;
     0x5d; 0xae; 0x22; 0x23; 0xb0; 0x03; 0x61; 0xa3; 0x96; 0x17; 0x7a; 0x9c;
     0xb4; 0x10; 0xff; 0x61; 0xf2; 0x00; 0x15; 0xad].
Proof. vm_compute. reflexivity. Qed.

(** ** The built-in [pow] *)

Lemma square_mod (x m : Z) (k : positive) :
  ((x ^ Z.pos k mod m) * (x ^ Z.pos k mod m)) mod m = x ^ Z.pos k~0 mod m.
Proof.
  rewrite Pos2Z.inj_xO, Z.pow_twice_r.
  destruct (Z.eq_dec m 0) as [-> | Hm].
  - rewrite !Z.mod_0_r. reflexivity.
  - rewrite <- Z.mul_mod by exact Hm. reflexivity.
Qed.

Lemma powmod_big_spec (b : bigZ) (e : positive) (m : bigZ) :
  BigZ.to_Z (Py.powmod_big b e m) = BigZ.to_Z b ^ Z.pos e mod BigZ.to_Z m.
Proof.
  induction e as [e IH | e IH |]; cbn [Py.powmod_big].
  - rewrite BigZ.spec_modulo, BigZ.spec_mul, BigZ.spec_modulo, BigZ.spec_mul, IH.
    rewrite square_mod.
    rewrite Pos2Z.inj_xI, Z.pow_add_r, Z.pow_1_r, <- Pos2Z.inj_xO by lia.
    destruct (Z.eq_dec (BigZ.to_Z m) 0) as [-> | Hm].
    + rewrite !Z.mod_0_r. reflexivity.
    + rewrite Z.mul_mod_idemp_l by exact Hm. reflexivity.
  - rewrite BigZ.spec_modulo, BigZ.spec_mul, IH. apply square_mod.
  - rewrite BigZ.spec_modulo, Z.pow_1_r. reflexivity.
Qed.

(** [Py.powmod] computes [b ^ e mod m]. *)
Lemma powmod_spec (b e m : Z) : 0 <= e -> Py.powmod b e m = b ^ e mod m.
Proof.
  intros He. unfold Py.powmod.
  destruct e as [| e | e]; [reflexivity | | lia].
  rewrite powmod_big_spec, !BigZ.spec_of_Z. reflexivity.
Qed.

(** [pow(b, e, m)] for an exponent that is not negative. *)
Lemma pow3_nonneg_exponent (b e m : Z) :
  m <> 0 -> 0 <= e -> Py.pow3 b e m = Returns (b ^ e mod m).
Proof.
  intros Hm He. unfold Py.pow3.
  destruct (Z.eqb_spec m 0); [contradiction |].
  destruct (Z.leb_spec 0 e); [| lia].
  rewrite powmod_spec by exact He. reflexivity.
Qed.

(** [pow(a, -1, m)] for [a] prime to [m]. *)
Lemma pow3_inverse (a m : Z) :
  m <> 0 -> Z.gcd a m = 1 -> Py.pow3 a (-1) m = Returns (Z.invmod a m).
Proof.
  intros Hm Hg. unfold Py.pow3.
  destruct (Z.eqb_spec m 0) as [| _]; [contradiction |].
  change (0 <=? -1) with false. cbv iota.
  rewrite Hg. change (1 =? 1) with true. cbv iota.
  change (- -1) with 1. rewrite powmod_spec by lia.
  rewrite Z.pow_1_r, Z.mod_invmod. reflexivity.
Qed.

(** ** Arithmetic of candidates *)

Lemma randbits_returns (k v : Z) (r r' : Rng) :
  Py.randbits k r = Returns (v, r') ->
  0 <= k /\ 0 <= v < 2 ^ k /\ r' = mkRng (entropy r) (S (cursor r)).
Proof.
  unfold Py.randbits. destruct (Z.ltb_spec k 0) as [Hk | Hk]; [discriminate |].
  intros H. injection H as <- <-.
  rewrite Z.land_ones by assumption.
  split; [assumption | split; [| reflexivity]].
  apply Z.mod_pos_bound. apply Z.pow_pos_nonneg; lia.
Qed.

Lemma lor_below_pow2 (a b k : Z) :
  0 <= a < 2 ^ k -> 0 <= b < 2 ^ k -> 0 <= Z.lor a b < 2 ^ k.
Proof.
  intros [Ha Ha'] [Hb Hb'].
  assert (Hnn : 0 <= Z.lor a b) by (apply Z.lor_nonneg; split; assumption).
  split; [assumption |].
  assert (Hk : 0 <= k).
  { destruct (Z.lt_ge_cases k 0) as [Hneg | ?]; [| assumption].
    rewrite Z.pow_neg_r in Ha' by assumption. lia. }
  destruct (Z.eq_dec (Z.lor a b) 0) as [-> | Hne]; [lia |].
  assert (Hk' : 0 < k).
  { destruct (Z.eq_dec k 0) as [-> | ?]; [| lia].
    change (2 ^ 0) with 1 in *.
    assert (a = 0) by lia. assert (b = 0) by lia. subst a b.
    rewrite Z.lor_0_l in Hne. lia. }
  apply Z.log2_lt_pow2; [lia |].
  rewrite Z.log2_lor by assumption.
  apply Z.max_lub_lt.
  - destruct (Z.eq_dec a 0) as [-> | ?]; [exact Hk' | apply Z.log2_lt_pow2; lia].
  - destruct (Z.eq_dec b 0) as [-> | ?]; [exact Hk' | apply Z.log2_lt_pow2; lia].
Qed.

Lemma lor_lower (a b : Z) : 0 <= a -> b <= Z.lor a b.
Proof.
  intros Ha.
  pose proof (Z.sub_lor_l_same_r a b) as H.
  assert (0 <= Z.land a (Z.lnot b)) by (apply Z.land_nonneg; left; assumption).
  lia.
Qed.

Lemma bit_length_unique (p L : Z) :
  1 <= L -> 2 ^ (L - 1) <= p < 2 ^ L -> Py.bit_length p = L.
Proof.
  intros HL [Hlo Hhi].
  assert (0 < 2 ^ (L - 1)) by (apply Z.pow_pos_nonneg; lia).
  destruct p as [| p | p]; try lia.
  unfold Py.bit_length.
  rewrite (Z.log2_unique (Z.pos p) (L - 1)); [lia | lia |].
  replace (Z.succ (L - 1)) with L by lia. split; assumption.
Qed.

Lemma coeff1_above_half (L : Z) :
  3 <= L -> 2 ^ (L - 1) < 665857 * 2 ^ (L - 1) / 470832.
Proof.
  intros HL.
  assert (Hx : 2 ^ 2 <= 2 ^ (L - 1)) by (apply Z.pow_le_mono_r; lia).
  change (2 ^ 2) with 4 in Hx.
  apply Z.lt_le_trans with (2 ^ (L - 1) + 1); [lia |].
  apply Z.div_le_lower_bound; lia.
Qed.

Section ProbablePrimesFacts.

Context (env : Collaborators).

(** What [break] in the loop of step 4 guarantees. *)
Lemma step4_returns (fuel : nat) (e N t c i : Z) (r r' : Rng) (p : Z) :
  1 <= N / 2 ->
  generateProbablePrimes_step4 env fuel e N t c i r = Returns (Some p, r') ->
  c <= p < 2 ^ (N / 2) /\ Z.gcd (p - 1) e = 1 /\ millerRabin env p t = true.
Proof.
  intros HL. revert i r.
  induction fuel as [| fuel IH]; intros i r;
    cbn [generateProbablePrimes_step4]; [discriminate |].
  unfold bind.
  destruct (Py.randbits (N / 2) r) as [[v r1] | |] eqn:Hdraw; try discriminate.
  apply randbits_returns in Hdraw. destruct Hdraw as (_ & Hv & _).
  destruct (Z.ltb_spec (Z.lor v 1) c) as [Hlow | Hlow]; [apply IH |].
  destruct (Z.eqb_spec (Base.gcd (Z.lor v 1 - 1) e) 1) as [Hg | Hg].
  - destruct (millerRabin env (Z.lor v 1) t) eqn:Hmr.
    + intros H. injection H as <- <-.
      assert (1 < 2 ^ (N / 2)) by (apply Z.pow_gt_1; lia).
      pose proof (lor_below_pow2 v 1 (N / 2) Hv ltac:(lia)).
      repeat split; try assumption; lia.
    + destruct (5 * N / 2 <=? i + 1); [discriminate | apply IH].
  - destruct (5 * N / 2 <=? i + 1); [discriminate | apply IH].
Qed.

(** What [break] in the loop of step 5 guarantees. *)
Lemma step5_returns (fuel : nat) (e N t c p i : Z) (r r' : Rng) (q : Z) :
  1 <= N / 2 ->
  generateProbablePrimes_step5 env fuel e N t c p i r = Returns (Some q, r') ->
  c <= q < 2 ^ (N / 2) /\ Z.gcd (q - 1) e = 1 /\ millerRabin env q t = true
  /\ 2 ^ (N / 2 - 100) < Z.abs (p - q).
Proof.
  intros HL. revert i r.
  induction fuel as [| fuel IH]; intros i r;
    cbn [generateProbablePrimes_step5]; [discriminate |].
  unfold bind.
  destruct (Py.randbits (N / 2) r) as [[v r1] | |] eqn:Hdraw; try discriminate.
  apply randbits_returns in Hdraw. destruct Hdraw as (_ & Hv & _).
  destruct (Z.leb_spec (Z.abs (p - Z.lor v 1)) (2 ^ (N / 2 - 100))) as [Hd | Hd];
    [apply IH |].
  destruct (Z.ltb_spec (Z.lor v 1) c) as [Hlow | Hlow]; [apply IH |].
  destruct (Z.eqb_spec (Base.gcd (Z.lor v 1 - 1) e) 1) as [Hg | Hg].
  - destruct (millerRabin env (Z.lor v 1) t) eqn:Hmr.
    + intros H. injection H as <- <-.
      assert (1 < 2 ^ (N / 2)) by (apply Z.pow_gt_1; lia).
      pose proof (lor_below_pow2 v 1 (N / 2) Hv ltac:(lia)).
      repeat split; try assumption; lia.
    + destruct (5 * N / 2 <=? i + 1); [discriminate | apply IH].
  - destruct (5 * N / 2 <=? i + 1); [discriminate | apply IH].
Qed.

End ProbablePrimesFacts.

(** C1. Whenever [generateProbablePrimes(e, N)] returns a pair [(p, q)],
    both primes passed the Miller-Rabin test with
    [millerRabinTestsForIFC(N)[0]] rounds, [gcd(p - 1, e) = 1] and
    [gcd(q - 1, e) = 1], [|p - q| > 2^(N/2 - 100)], and both have exactly
    [N/2] bits, because they are at least
    [665857 * 2^(N/2 - 1) // 470832], which exceeds [2^(N/2 - 1)]. *)
Theorem generateProbablePrimes_pair
    (env : Collaborators) (fuel : nat) (e N : Z) (r r' : Rng) (p q : Z) :
  generateProbablePrimes env fuel e N r = Returns (Some (p, q), r') ->
  let testsCount := fst (millerRabinTestsForIFC env N) in
  let coeff1 := 665857 * 2 ^ (N / 2 - 1) / 470832 in
  millerRabin env p testsCount = true /\ millerRabin env q testsCount = true
  /\ Z.gcd (p - 1) e = 1 /\ Z.gcd (q - 1) e = 1
  /\ 2 ^ (N / 2 - 100) < Z.abs (p - q)
  /\ Py.bit_length p = N / 2 /\ Py.bit_length q = N / 2
  /\ 2 ^ (N / 2 - 1) < coeff1 /\ coeff1 <= p /\ coeff1 <= q.
Proof.
  unfold generateProbablePrimes.
  destruct (negb (N =? 2048) && negb (N =? 3072)) eqn:HN; [discriminate |].
  destruct ((e <=? 2 ^ 16) || (2 ^ 256 <=? e) || (e mod 2 =? 0)); [discriminate |].
  assert (HL : 3 <= N / 2).
  { apply andb_false_iff in HN.
    destruct HN as [HN | HN]; apply negb_false_iff, Z.eqb_eq in HN; subst N;
      vm_compute; discriminate. }
  unfold bind.
  destruct (generateProbablePrimes_step4 _ _ _ _ _ _ _ _) as [[[p0 |] r1] | |] eqn:H4;
    try discriminate.
  destruct (generateProbablePrimes_step5 _ _ _ _ _ _ _ _ _) as [[[q0 |] r2] | |] eqn:H5;
    try discriminate.
  intros H. injection H as <- <- <-.
  apply step4_returns in H4; [| lia].
  apply step5_returns in H5; [| lia].
  destruct H4 as (Hp & Hgp & Hmp). destruct H5 as (Hq & Hgq & Hmq & Hd).
  pose proof (coeff1_above_half (N / 2) HL) as Hc.
  cbv zeta.
  repeat split; try assumption; try lia;
    apply bit_length_unique; lia.
Qed.

(** C1, on a run: with the two sample draws, [generateProbablePrimes(65537,
    2048)] returns the pair, so the statement above is about runs that
    exist. *)
Lemma generateProbablePrimes_pair_witness :
  generateProbablePrimes (Reference.collaborators []) 1 65537 2048
    (Sample.source [Sample.pair_draw_p; Sample.pair_draw_q])
  = Returns (Some (Sample.pair_p, Sample.pair_q),
             mkRng (fun i => nth i [Sample.pair_draw_p; Sample.pair_draw_q] 0) 2)
  /\ Py.bit_length Sample.pair_p = 2048 / 2
  /\ Py.bit_length Sample.pair_q = 2048 / 2
  /\ 2 ^ (2048 / 2 - 100) < Z.abs (Sample.pair_p - Sample.pair_q).
Proof.
  assert (Hrun :
    generateProbablePrimes (Reference.collaborators []) 1 65537 2048
      (Sample.source [Sample.pair_draw_p; Sample.pair_draw_q])
    = Returns (Some (Sample.pair_p, Sample.pair_q),
               mkRng (fun i => nth i [Sample.pair_draw_p; Sample.pair_draw_q] 0) 2))
    by (vm_compute; reflexivity).
  pose proof (generateProbablePrimes_pair _ _ _ _ _ _ _ _ Hrun) as H.
  cbv zeta in H.
  split; [exact Hrun |].
  destruct H as (_ & _ & _ & _ & Hd & Hp & Hq & _).
  split; [exact Hp | split; [exact Hq | exact Hd]].
Defined.

(** ** Which iterations the counters count *)

Section Caps.

Context (env : Collaborators).

(** The loop of step 4 is over once [5 * N // 2] candidates have reached
    the tests. *)
Lemma step4_capped (fuel : nat) (e N t c i : Z) (r : Rng) :
  Z.max 1 (5 * N / 2 - i)
    <= candidatesTested (reaches_step4 c) N (entropy r) (cursor r) fuel ->
  generateProbablePrimes_step4 env fuel e N t c i r <> Diverges.
Proof.
  revert i r.
  induction fuel as [| fuel IH]; intros i r;
    cbn [generateProbablePrimes_step4 candidatesTested]; [lia |].
  unfold bind, Py.randbits, reaches_step4 at 1.
  destruct (N / 2 <? 0); [discriminate |].
  set (p := Z.lor _ 1).
  destruct (p <? c); cbn [negb]; intros Hn.
  - apply (IH i (mkRng (entropy r) (S (cursor r)))). cbn [entropy cursor]. lia.
  - destruct (if _ =? 1 then _ else false); [discriminate |].
    destruct (Z.leb_spec (5 * N / 2) (i + 1)); [discriminate |].
    apply (IH (i + 1) (mkRng (entropy r) (S (cursor r)))). cbn [entropy cursor]. lia.
Qed.

(** The same for the loop of step 5. *)
Lemma step5_capped (fuel : nat) (e N t c p i : Z) (r : Rng) :
  Z.max 1 (5 * N / 2 - i)
    <= candidatesTested (reaches_step5 (2 ^ (N / 2 - 100)) c p) N
                        (entropy r) (cursor r) fuel ->
  generateProbablePrimes_step5 env fuel e N t c p i r <> Diverges.
Proof.
  revert i r.
  induction fuel as [| fuel IH]; intros i r;
    cbn [generateProbablePrimes_step5 candidatesTested]; [lia |].
  unfold bind, Py.randbits, reaches_step5 at 1.
  destruct (N / 2 <? 0); [discriminate |].
  set (q := Z.lor _ 1).
  destruct (Z.abs (p - q) <=? 2 ^ (N / 2 - 100)); cbn [negb andb]; intros Hn.
  - apply (IH i (mkRng (entropy r) (S (cursor r)))). cbn [entropy cursor]. lia.
  - destruct (q <? c); cbn [negb] in Hn |- *.
    + apply (IH i (mkRng (entropy r) (S (cursor r)))). cbn [entropy cursor]. lia.
    + destruct (if _ =? 1 then _ else false); [discriminate |].
      destruct (Z.leb_spec (5 * N / 2) (i + 1)); [discriminate |].
      apply (IH (i + 1) (mkRng (entropy r) (S (cursor r)))).
      cbn [entropy cursor]. lia.
Qed.

(** The loop of steps 5 to 10 of the auxiliary-prime construction runs at
    most [5 * (N // 2)] times for one [X]. *)
Lemma auxiliaryPrimes_step5_capped (fuel : nat) (p1 p2 N e t Y i : Z) :
  Z.max 1 (5 * (N / 2) - i) <= Z.of_nat fuel ->
  auxiliaryPrimes_step5 env fuel p1 p2 N e t Y i <> Diverges.
Proof.
  revert Y i.
  induction fuel as [| fuel IH]; intros Y i Hn;
    cbn [auxiliaryPrimes_step5]; [lia |].
  destruct (2 ^ (N / 2) <=? Y); [discriminate |].
  destruct (if _ =? 1 then _ else false); [discriminate |].
  destruct (Z.leb_spec (5 * (N / 2)) (i + 1)); [discriminate |].
  apply IH. lia.
Qed.

(** A candidate that fails the range check of step 4.4 is redrawn without
    being counted: on a source of such candidates the loop never ends. *)
Lemma step4_spins (fuel : nat) (e N t c i : Z) (r : Rng) :
  0 <= N / 2 ->
  (forall k, Z.lor (Z.land (entropy r k) (Z.ones (N / 2))) 1 < c) ->
  generateProbablePrimes_step4 env fuel e N t c i r = Diverges.
Proof.
  intros HL Hlow. revert i r Hlow.
  induction fuel as [| fuel IH]; intros i r Hlow;
    cbn [generateProbablePrimes_step4]; [reflexivity |].
  unfold bind, Py.randbits.
  destruct (Z.ltb_spec (N / 2) 0); [lia |].
  destruct (Z.ltb_spec (Z.lor (Z.land (entropy r (cursor r)) (Z.ones (N / 2))) 1) c)
    as [_ | Hge]; [| specialize (Hlow (cursor r)); lia].
  apply IH. exact Hlow.
Qed.

End Caps.

(** C2, as the code has it.  The counters cap the iterations that reach
    the gcd and Miller-Rabin tests, and only those: each search loop of
    [generateProbablePrimes] is over, with a prime or with [None], by the
    time [5 * N // 2] of its candidates have reached the tests, and the
    loop of steps 5 to 10 of [generateProbablePrimeWithAuxiliaryPrimes] is
    over within [5 * (N // 2)] iterations for each [X]; a candidate that
    step 4.4 rejects is redrawn without being counted, and on a source of
    such candidates the loop does not end.  ([fuel] is the number of
    iterations looked at; [i] is the counter on entry.) *)
Theorem search_loops_capped
    (env : Collaborators) (fuel : nat) (e N t c p i : Z) (r : Rng)
    (p1 p2 Y : Z) :
  (Z.max 1 (5 * N / 2 - i)
     <= candidatesTested (reaches_step4 c) N (entropy r) (cursor r) fuel ->
   generateProbablePrimes_step4 env fuel e N t c i r <> Diverges)
  /\ (Z.max 1 (5 * N / 2 - i)
        <= candidatesTested (reaches_step5 (2 ^ (N / 2 - 100)) c p) N
                            (entropy r) (cursor r) fuel ->
      generateProbablePrimes_step5 env fuel e N t c p i r <> Diverges)
  /\ (Z.max 1 (5 * (N / 2) - i) <= Z.of_nat fuel ->
      auxiliaryPrimes_step5 env fuel p1 p2 N e t Y i <> Diverges)
  /\ (0 <= N / 2 ->
      (forall k, Z.lor (Z.land (entropy r k) (Z.ones (N / 2))) 1 < c) ->
      generateProbablePrimes_step4 env fuel e N t c i r = Diverges).
Proof.
  split; [apply step4_capped | split; [apply step5_capped |]].
  split; [apply auxiliaryPrimes_step5_capped | apply step4_spins].
Qed.

(** C2, on runs: 5120 candidates that all reach the tests of
    [generateProbablePrimes(65537, 2048)], and a source of zeros, whose
    candidates are all 1. *)
Lemma search_loops_capped_witness :
  let env := Reference.collaborators [] in
  let c := 665857 * 2 ^ (2048 / 2 - 1) / 470832 in
  let r := Sample.constant Sample.tested_draw in
  let z := Sample.constant 0 in
  let n := Sample.iterations 5120 in
  (Z.max 1 (5 * 2048 / 2 - 0)
     <= candidatesTested (reaches_step4 c) 2048 (entropy r) (cursor r) n
   /\ Z.max 1 (5 * 2048 / 2 - 0)
        <= candidatesTested (reaches_step5 (2 ^ (2048 / 2 - 100)) c Sample.pair_p)
                            2048 (entropy r) (cursor r) n
   /\ Z.max 1 (5 * (2048 / 2) - 0) <= Z.of_nat n
   /\ 0 <= 2048 / 2
   /\ (forall k, Z.lor (Z.land (entropy z k) (Z.ones (2048 / 2))) 1 < c))
  /\ generateProbablePrimes_step4 env n 65537 2048 5 c 0 r <> Diverges
  /\ generateProbablePrimes_step5 env n 65537 2048 5 c Sample.pair_p 0 r
       <> Diverges
  /\ auxiliaryPrimes_step5 env n Sample.aux_p1 Sample.aux_p2 2048 65537 5 3 0
       <> Diverges
  /\ generateProbablePrimes_step4 env n 65537 2048 5 c 0 z = Diverges.
Proof.
  cbv zeta.
  set (env := Reference.collaborators []).
  set (c := 665857 * 2 ^ (2048 / 2 - 1) / 470832).
  set (r := Sample.constant Sample.tested_draw).
  set (z := Sample.constant 0).
  set (n := Sample.iterations 5120).
  assert (H4 : Z.max 1 (5 * 2048 / 2 - 0)
    <= candidatesTested (reaches_step4 c) 2048 (entropy r) (cursor r) n)
    by (apply Z.leb_le; vm_compute; reflexivity).
  assert (H5 : Z.max 1 (5 * 2048 / 2 - 0)
    <= candidatesTested (reaches_step5 (2 ^ (2048 / 2 - 100)) c Sample.pair_p)
                        2048 (entropy r) (cursor r) n)
    by (apply Z.leb_le; vm_compute; reflexivity).
  assert (Hx : Z.max 1 (5 * (2048 / 2) - 0) <= Z.of_nat n)
    by (apply Z.leb_le; vm_compute; reflexivity).
  assert (HL : 0 <= 2048 / 2) by (apply Z.leb_le; vm_compute; reflexivity).
  assert (Hz : forall k, Z.lor (Z.land (entropy z k) (Z.ones (2048 / 2))) 1 < c)
    by (intros k; apply Z.ltb_lt; vm_compute; reflexivity).
  pose proof (search_loops_capped env n 65537 2048 5 c Sample.pair_p 0 r
                Sample.aux_p1 Sample.aux_p2 3) as (T4 & T5 & Tx & _).
  pose proof (search_loops_capped env n 65537 2048 5 c Sample.pair_p 0 z
                Sample.aux_p1 Sample.aux_p2 3) as (_ & _ & _ & Tz).
  split; [split; [exact H4 | split; [exact H5 | split; [exact Hx | split;
            [exact HL | exact Hz]]]] |].
  split; [exact (T4 H4) | split; [exact (T5 H5) | split;
            [exact (Tx Hx) | exact (Tz HL Hz)]]].
Defined.

(** C2, refuted as stated.  On a source of zeros every candidate of
    [generateProbablePrimes(65537, 2048)] is 1, step 4.4 rejects it
    without counting it, and the loop is still running after
    [5 * 1024 + 1] iterations; on a source of ones
    [generateProbablePrimeWithAuxiliaryPrimes] redraws [X] more than
    [5 * 512] times, each time because [Y >= 2 ** 512]. *)
Lemma search_loops_uncapped :
  generateProbablePrimes (Reference.collaborators [])
    (Sample.iterations (5 * 1024 + 1)) 65537 2048 (Sample.constant 0) = Diverges
  /\ generateProbablePrimeWithAuxiliaryPrimes (Reference.collaborators [])
       (Sample.iterations (5 * 512 + 1)) Sample.aux_p1 Sample.aux_p2 1024 65537
       (Sample.constant (-1)) = Diverges.
Proof.
  split; vm_compute; reflexivity.
Qed.

(** ** The bounds of the auxiliary-prime construction *)

(** C3, at the failing input.  [665857 // 470832 * pow(2, N // 2 - 1)]
    is [1 * 2 ** (N // 2 - 1)]: the quotient is taken before the product.
    With the sample auxiliary primes and draw,
    [generateProbablePrimeWithAuxiliaryPrimes(p1, p2, 1024, 65537)]
    returns [(Y, X)] with [X] below [665857 * 2 ** 511 // 470832], the
    bound [generateProbablePrimes] uses. *)
Theorem auxiliaryPrimes_lower_bound_is_a_power_of_two :
  generateProbablePrimeWithAuxiliaryPrimes (Reference.collaborators []) 1
    Sample.aux_p1 Sample.aux_p2 1024 65537 (Sample.source [Sample.aux_draw])
  = Returns (Some (Sample.aux_Y, Sample.aux_X),
             mkRng (fun i => nth i [Sample.aux_draw] 0) 1)
  /\ Sample.aux_X < 665857 * 2 ^ (1024 / 2 - 1) / 470832
  /\ 665857 / 470832 * 2 ^ (1024 / 2 - 1) = 2 ^ (1024 / 2 - 1)
  /\ 2 ^ (1024 / 2 - 1) < 665857 * 2 ^ (1024 / 2 - 1) / 470832.
Proof.
  split; [vm_compute; reflexivity |].
  split; [vm_compute; reflexivity |].
  split; vm_compute; reflexivity.
Qed.

(** ** Validation of the public exponent *)

(** C4, at the failing input [e = 2 ** 17].  [generateProvablePrimes] and
    [generateProbablePrimes] reject the even exponent on entry: nothing is
    bound, nothing is drawn.  [geneareteProvablePrimesWithConditions]
    accepts it, binds [workingSeed] and calls [ifcProvablePrime]; its
    [None] is the one of the failed construction.
    [generateProbablePrimesWithConditions] accepts it, draws three random
    numbers, finds two auxiliary primes and returns [None] only when the
    counter of the auxiliary-prime construction is exhausted. *)
Theorem even_exponent_passes_validation :
  generateProvablePrimes (Reference.collaborators []) 1 (2 ^ 17) 2048
    Sample.seed224 = Returns (None, unbound)
  /\ generateProbablePrimes (Reference.collaborators []) 1 (2 ^ 17) 2048
       (Sample.source []) = Returns (None, Sample.source [])
  /\ geneareteProvablePrimesWithConditions (Reference.collaborators []) 1
       (2 ^ 17) 2048 Sample.seed224
     = Returns (None, set_workingSeed Sample.seed224 unbound)
  /\ generateProbablePrimesWithConditions (Reference.collaborators [])
       (Sample.iterations (5 * 512)) (2 ^ 17) 1024 None true
       (Sample.source
          [Sample.even_draw_Xp1; Sample.even_draw_Xp2; Sample.even_draw_X])
     = Returns
         ((None,
           set_Xp2 Sample.even_Xp2
             (set_Xp1 Sample.even_Xp1
                (set_Xp2 Sample.even_Xp2 (set_Xp1 Sample.even_Xp1 unbound)))),
          mkRng
            (fun i =>
               nth i [Sample.even_draw_Xp1; Sample.even_draw_Xp2;
                      Sample.even_draw_X] 0) 3).
Proof.
  split; [vm_compute; reflexivity |].
  split; [vm_compute; reflexivity |].
  split; vm_compute; reflexivity.
Qed.

(** ** The seed in direct-random mode *)

(** C9. With [probablePrimes = True] the [seed] argument of
    [generateProbablePrimesWithConditions] is not read: two calls that
    differ only in the seed, [None] included, and see the same random
    source and the same collaborators, have the same outcome, the same
    locals and leave the random source in the same state. *)
Theorem directRandom_ignores_seed
    (env : Collaborators) (fuel : nat) (e N : Z) (seed seed' : option Z)
    (r : Rng) :
  generateProbablePrimesWithConditions env fuel e N seed true r
  = generateProbablePrimesWithConditions env fuel e N seed' true r.
Proof.
  unfold generateProbablePrimesWithConditions.
  cbn [negb]. reflexivity.
Qed.

(** ** The secret locals at the return *)

Section Zeroization.

Context (env : Collaborators).

Lemma generateProvablePrimes_step7_success
    (fuel : nat) (e N L N1 N2 p w : Z) (s s' : Secrets) (pq : Z * Z) :
  generateProvablePrimes_step7 env fuel e N L N1 N2 p w s = Returns (Some pq, s') ->
  pSeed s' = Some 0 /\ qSeed s' = Some 0 /\ workingSeed s' = Some 0.
Proof.
  revert w s.
  induction fuel as [| fuel IH]; intros w s;
    cbn [generateProvablePrimes_step7]; [discriminate |].
  destruct (ifcProvablePrime env L N1 N2 w e) as [[[[q q1'] q2'] qSeed'] |];
    [| discriminate].
  destruct (2 ^ (N / 2 - 100) <? Z.abs (p - q)); [| apply IH].
  intros H. injection H as _ <-. repeat split.
Qed.

Lemma geneareteProvablePrimesWithConditions_step7_success
    (fuel : nat) (e N q1Len q2Len p w : Z) (s s' : Secrets) (pq : Z * Z) :
  geneareteProvablePrimesWithConditions_step7 env fuel e N q1Len q2Len p w s
  = Returns (Some pq, s') ->
  pSeed s' = Some 0 /\ qSeed s' = Some 0 /\ workingSeed s' = Some 0.
Proof.
  revert w s.
  induction fuel as [| fuel IH]; intros w s;
    cbn [geneareteProvablePrimesWithConditions_step7]; [discriminate |].
  destruct (ifcProvablePrime env (N / 2) e w q1Len q2Len)
    as [[[[q q1'] q2'] qSeed'] |]; [| discriminate].
  destruct (2 ^ (N / 2 - 100) <? Z.abs (p - q)); [| apply IH].
  intros H. injection H as _ <-. repeat split.
Qed.

End Zeroization.

(** C7, as the code has it.  On the path that returns [(p, q)],
    [generateProvablePrimes] and [geneareteProvablePrimesWithConditions]
    leave [pSeed], [qSeed] and [workingSeed] at 0, and
    [generateProbablePrimesWithConditions] leaves [Xp], [Xq], [Xp1],
    [Xp2], [Xq1], [Xq2], [primeSeed], [p1], [p2], [q1] and [q2] at 0. *)
Theorem secrets_zeroed_on_success
    (env : Collaborators) (fuel : nat) (e N seed : Z) (seed' : option Z)
    (probablePrimes : bool) (r r' : Rng) (p q : Z) (s : Secrets) :
  (generateProvablePrimes env fuel e N seed = Returns (Some (p, q), s) ->
   pSeed s = Some 0 /\ qSeed s = Some 0 /\ workingSeed s = Some 0)
  /\ (geneareteProvablePrimesWithConditions env fuel e N seed
      = Returns (Some (p, q), s) ->
      pSeed s = Some 0 /\ qSeed s = Some 0 /\ workingSeed s = Some 0)
  /\ (generateProbablePrimesWithConditions env fuel e N seed' probablePrimes r
      = Returns ((Some (p, q), s), r') ->
      Xp s = Some 0 /\ Xq s = Some 0
      /\ Xp1 s = Some 0 /\ Xp2 s = Some 0 /\ Xq1 s = Some 0 /\ Xq2 s = Some 0
      /\ primeSeed s = Some 0
      /\ p1 s = Some 0 /\ p2 s = Some 0 /\ q1 s = Some 0 /\ q2 s = Some 0).
Proof.
  split; [| split].
  - unfold generateProvablePrimes.
    destruct (negb (N =? 2048) && negb (N =? 3072)); [discriminate |].
    destruct ((e <=? 2 ^ 16) || (2 ^ 256 <=? e) || (e mod 2 =? 0));
      [discriminate |].
    destruct (negb (Py.bit_length seed =? 2 * getIFCSecurityLevel env N));
      [discriminate |].
    destruct (ifcProvablePrime env (N / 2) 1 1 seed e)
      as [[[[p0 p1'] p2'] pSeed'] |]; [| discriminate].
    apply generateProvablePrimes_step7_success.
  - unfold geneareteProvablePrimesWithConditions.
    destruct (negb (N =? 1024) && negb (N =? 2048) && negb (N =? 3072));
      [discriminate |].
    destruct ((e <=? 2 ^ 16) || (2 ^ 256 <=? e)); [discriminate |].
    destruct (negb (Py.bit_length seed =? 2 * getIFCSecurityLevel env N));
      [discriminate |].
    destruct (getIFCAuxiliaryPrimesLegths env N false) as [p1Len p2Len].
    destruct (ifcProvablePrime env (N / 2) e seed p1Len p2Len)
      as [[[[p0 p1'] p2'] pSeed'] |]; [| discriminate].
    apply geneareteProvablePrimesWithConditions_step7_success.
  - unfold generateProbablePrimesWithConditions.
    destruct (negb (N =? 1024) && negb (N =? 2048) && negb (N =? 3072));
      [discriminate |].
    destruct ((e <=? 2 ^ 16) || (2 ^ 256 <=? e)); [discriminate |].
    step_bind wrongLength r1 Hlen.
    destruct wrongLength; [discriminate |].
    destruct (getIFCAuxiliaryPrimesLegths env N probablePrimes) as [p1Len p2Len].
    step_bind branch r2 Hbranch.
    destruct branch as [[[p0 q0] |] s0]; [| discriminate].
    intros H. injection H as _ _ <- _. repeat split.
Qed.

(** C7, on runs: the three routines return a pair on the sample seed,
    answers and draws. *)
Lemma secrets_zeroed_on_success_witness :
  let env := Reference.collaborators Sample.answers in
  let pq := Some (Sample.pair_p, Sample.pair_q) in
  let s := Sample.provable_exit in
  let s' := Sample.direct_exit in
  (generateProvablePrimes env 1 65537 2048 Sample.seed224 = Returns (pq, s)
   /\ geneareteProvablePrimesWithConditions env 1 65537 2048 Sample.seed224
      = Returns (pq, s)
   /\ generateProbablePrimesWithConditions env 1 65537 1024 None true
        (Sample.source Sample.direct_draws)
      = Returns ((Some (Sample.direct_p, Sample.direct_q), s'),
                 mkRng (fun i => nth i Sample.direct_draws 0) 6))
  /\ (pSeed s = Some 0 /\ qSeed s = Some 0 /\ workingSeed s = Some 0)
  /\ (Xp s' = Some 0 /\ Xq s' = Some 0
      /\ Xp1 s' = Some 0 /\ Xp2 s' = Some 0 /\ Xq1 s' = Some 0 /\ Xq2 s' = Some 0
      /\ primeSeed s' = Some 0
      /\ p1 s' = Some 0 /\ p2 s' = Some 0 /\ q1 s' = Some 0 /\ q2 s' = Some 0).
Proof.
  cbv zeta.
  set (env := Reference.collaborators Sample.answers).
  assert (H1 : generateProvablePrimes env 1 65537 2048 Sample.seed224
               = Returns (Some (Sample.pair_p, Sample.pair_q), Sample.provable_exit))
    by (vm_compute; reflexivity).
  assert (H2 : geneareteProvablePrimesWithConditions env 1 65537 2048 Sample.seed224
               = Returns (Some (Sample.pair_p, Sample.pair_q), Sample.provable_exit))
    by (vm_compute; reflexivity).
  assert (H3 : generateProbablePrimesWithConditions env 1 65537 1024 None true
                 (Sample.source Sample.direct_draws)
               = Returns ((Some (Sample.direct_p, Sample.direct_q),
                           Sample.direct_exit),
                          mkRng (fun i => nth i Sample.direct_draws 0) 6))
    by (vm_compute; reflexivity).
  pose proof (secrets_zeroed_on_success env 1 65537 2048 Sample.seed224 None true
                (Sample.source Sample.direct_draws)
                (mkRng (fun i => nth i Sample.direct_draws 0) 6)
                Sample.pair_p Sample.pair_q Sample.provable_exit)
    as (T1 & _ & _).
  pose proof (secrets_zeroed_on_success env 1 65537 1024 Sample.seed224 None true
                (Sample.source Sample.direct_draws)
                (mkRng (fun i => nth i Sample.direct_draws 0) 6)
                Sample.direct_p Sample.direct_q Sample.direct_exit)
    as (_ & _ & T3).
  split; [split; [exact H1 | split; [exact H2 | exact H3]] |].
  split; [exact (T1 H1) | exact (T3 H3)].
Defined.

(** C7, refuted as stated.  When the first call of [ifcProvablePrime]
    fails, [generateProvablePrimes] returns [None] with [workingSeed]
    still holding the seed; and on the path that returns [(p, q)] the
    auxiliary primes [p1], [p2], [q1], [q2] keep their values. *)
Lemma secrets_left_behind :
  generateProvablePrimes (Reference.collaborators []) 1 65537 2048 Sample.seed224
  = Returns (None, set_workingSeed Sample.seed224 unbound)
  /\ workingSeed (set_workingSeed Sample.seed224 unbound) = Some Sample.seed224
  /\ Py.bit_length Sample.seed224 = 224
  /\ generateProvablePrimes (Reference.collaborators Sample.answers) 1 65537
       2048 Sample.seed224
     = Returns (Some (Sample.pair_p, Sample.pair_q), Sample.provable_exit)
  /\ p1 Sample.provable_exit = Some Sample.answer_p1
  /\ q2 Sample.provable_exit = Some Sample.answer_q2.
Proof.
  split; [vm_compute; reflexivity |].
  split; [reflexivity |].
  split; [vm_compute; reflexivity |].
  split; [vm_compute; reflexivity |].
  split; reflexivity.
Qed.

(** ** The congruences of the auxiliary-prime construction *)

Lemma crt_residues (p1 p2 : Z) :
  0 < p1 -> Z.gcd (2 * p1) p2 = 1 ->
  let R := Z.invmod p2 (2 * p1) * p2 - Z.invmod (2 * p1) p2 * 2 * p1 in
  R mod (2 * p1) = 1 /\ R mod p2 = (-1) mod p2.
Proof.
  intros Hp1 Hg R.
  assert (Hg' : Z.gcd p2 (2 * p1) = 1) by (rewrite Z.gcd_comm; exact Hg).
  assert (Hp2 : p2 <> 0).
  { intros ->. rewrite Z.gcd_0_r in Hg. lia. }
  split.
  - replace R with (Z.invmod p2 (2 * p1) * p2 + (- Z.invmod (2 * p1) p2) * (2 * p1))
      by (unfold R; ring).
    rewrite Z.mod_add by lia.
    apply Z.invmod_coprime; [lia | exact Hg'].
  - replace R with (-1 * (Z.invmod (2 * p1) p2 * (2 * p1)) + Z.invmod p2 (2 * p1) * p2)
      by (unfold R; ring).
    rewrite Z.mod_add by exact Hp2.
    rewrite <- Z.mul_mod_idemp_r by exact Hp2.
    rewrite (Z.invmod_coprime' (2 * p1) p2 Hg).
    rewrite Z.mul_mod_idemp_r by exact Hp2.
    reflexivity.
Qed.

(** C10. For an auxiliary prime [p1 > 0] and [gcd(2 * p1, p2) = 1], both
    [pow(p2, -1, 2 * p1)] and [pow(2 * p1, -1, p2)] return, the [R] built
    from them has [R % (2 * p1) == 1] and [R % p2 == -1 % p2], and so the
    routine goes past its [assert] into the loop of step 3. *)
Theorem auxiliaryPrimes_assert_holds
    (env : Collaborators) (fuel : nat) (p1 p2 N e : Z) (r : Rng) :
  0 < p1 -> Base.gcd (2 * p1) p2 = 1 ->
  exists a b : Z,
    Py.pow3 p2 (-1) (2 * p1) = Returns a
    /\ Py.pow3 (2 * p1) (-1) p2 = Returns b
    /\ (a * p2 - b * 2 * p1) mod (2 * p1) = 1
    /\ (a * p2 - b * 2 * p1) mod p2 = (-1) mod p2
    /\ generateProbablePrimeWithAuxiliaryPrimes env fuel p1 p2 N e r
       = auxiliaryPrimes_step3 env fuel fuel p1 p2 N e
           (fst (millerRabinTestsForIFC env N)) (a * p2 - b * 2 * p1)
           (665857 / 470832 * 2 ^ (N / 2 - 1)) (2 ^ (N / 2) - 1) r.
Proof.
  unfold Base.gcd. intros Hp1 Hg.
  assert (Hg' : Z.gcd p2 (2 * p1) = 1) by (rewrite Z.gcd_comm; exact Hg).
  assert (Hp2 : p2 <> 0).
  { intros ->. rewrite Z.gcd_0_r in Hg. lia. }
  destruct (crt_residues p1 p2 Hp1 Hg) as [HR1 HR2].
  exists (Z.invmod p2 (2 * p1)), (Z.invmod (2 * p1) p2).
  assert (Ha := pow3_inverse p2 (2 * p1) ltac:(lia) Hg').
  assert (Hb := pow3_inverse (2 * p1) p2 Hp2 Hg).
  split; [exact Ha |]. split; [exact Hb |].
  split; [exact HR1 |]. split; [exact HR2 |].
  unfold generateProbablePrimeWithAuxiliaryPrimes, Base.gcd.
  rewrite Hg. change (negb (1 =? 1)) with false. cbv iota.
  unfold bind, lift. rewrite Ha, Hb. cbn [obind].
  rewrite HR1, HR2, !Z.eqb_refl. reflexivity.
Qed.

(** C10, on the sample auxiliary primes. *)
Lemma auxiliaryPrimes_assert_holds_witness :
  0 < Sample.aux_p1
  /\ Base.gcd (2 * Sample.aux_p1) Sample.aux_p2 = 1
  /\ exists a b : Z,
       Py.pow3 Sample.aux_p2 (-1) (2 * Sample.aux_p1) = Returns a
       /\ Py.pow3 (2 * Sample.aux_p1) (-1) Sample.aux_p2 = Returns b
       /\ (a * Sample.aux_p2 - b * 2 * Sample.aux_p1) mod (2 * Sample.aux_p1) = 1
       /\ (a * Sample.aux_p2 - b * 2 * Sample.aux_p1) mod Sample.aux_p2
          = (-1) mod Sample.aux_p2.
Proof.
  assert (H1 : 0 < Sample.aux_p1) by reflexivity.
  assert (H2 : Base.gcd (2 * Sample.aux_p1) Sample.aux_p2 = 1)
    by (vm_compute; reflexivity).
  split; [exact H1 | split; [exact H2 |]].
  destruct (auxiliaryPrimes_assert_holds (Reference.collaborators []) 1
              Sample.aux_p1 Sample.aux_p2 1024 65537
              (Sample.source [Sample.aux_draw]) H1 H2)
    as (a & b & Ha & Hb & HR1 & HR2 & _).
  exists a, b. repeat split; assumption.
Defined.

(** ** The RSA primitives *)

(** Fermat's little theorem, in the form the round trip needs. *)
Lemma pow_one_plus_multiple (p m j : Z) :
  Z.prime p -> 0 <= j -> m ^ (1 + (p - 1) * j) mod p = m mod p.
Proof.
  intros Hp Hj.
  pose proof (Z.prime_ge_2 p Hp) as Hp2.
  destruct (Z.eq_dec (m mod p) 0) as [H0 | Hnz].
  - rewrite <- Z.mod_pow_l, H0, Z.pow_0_l by nia. reflexivity.
  - rewrite Z.pow_add_r, Z.pow_1_r, Z.pow_mul_r by nia.
    rewrite Z.mul_mod, <- (Z.mod_pow_l (m ^ (p - 1))) by lia.
    rewrite (Z.fermat_nz p m Hp Hnz), Z.pow_1_l by lia.
    rewrite <- Z.mul_mod, Z.mul_1_r by lia. reflexivity.
Qed.

Lemma lcm_pred_primes (p q : Z) :
  Z.prime p -> Z.prime q -> p <> q -> 2 <= Z.lcm (p - 1) (q - 1).
Proof.
  intros Hp Hq Hne.
  pose proof (Z.prime_ge_2 p Hp). pose proof (Z.prime_ge_2 q Hq).
  pose proof (Z.lcm_nonneg (p - 1) (q - 1)) as Hnn.
  assert (Hnz : Z.lcm (p - 1) (q - 1) <> 0).
  { intros Hz. apply Z.lcm_eq_0 in Hz. lia. }
  pose proof (Z.divide_lcm_l (p - 1) (q - 1)) as Hl.
  pose proof (Z.divide_lcm_r (p - 1) (q - 1)) as Hr.
  apply Z.divide_pos_le in Hl; [| lia].
  apply Z.divide_pos_le in Hr; [| lia].
  lia.
Qed.

(** [m ^ (e * d)] is [m] modulo a prime [p] when [e * d] is 1 modulo a
    multiple of [p - 1]. *)
Lemma pow_ed_mod_prime (p l e d m : Z) :
  Z.prime p -> 2 <= l -> (p - 1 | l) -> 0 < e -> 0 < d ->
  (e * d) mod l = 1 mod l -> m ^ (e * d) mod p = m mod p.
Proof.
  intros Hp Hl [t Ht] He Hd Hed.
  pose proof (Z.prime_ge_2 p Hp) as Hp2.
  rewrite Z.mod_1_l in Hed by lia.
  pose proof (Z.div_mod (e * d) l ltac:(lia)) as Hdm.
  rewrite Hed in Hdm.
  assert (Hk : 0 <= e * d / l) by (apply Z.div_pos; nia).
  assert (Htpos : 0 < t) by nia.
  replace (e * d) with (1 + (p - 1) * (t * (e * d / l))) by (rewrite Hdm at 2; nia).
  apply pow_one_plus_multiple; [exact Hp | nia].
Qed.

Lemma rsa_identity (p q e d m : Z) :
  Z.prime p -> Z.prime q -> p <> q -> 0 < e -> 0 < d ->
  (e * d) mod Z.lcm (p - 1) (q - 1) = 1 mod Z.lcm (p - 1) (q - 1) ->
  m ^ (e * d) mod (p * q) = m mod (p * q).
Proof.
  intros Hp Hq Hne He Hd Hed.
  pose proof (Z.prime_ge_2 p Hp). pose proof (Z.prime_ge_2 q Hq).
  pose proof (lcm_pred_primes p q Hp Hq Hne) as Hl.
  assert (Cp : m ^ (e * d) mod p = m mod p)
    by (apply (pow_ed_mod_prime p (Z.lcm (p - 1) (q - 1)));
        auto using Z.divide_lcm_l).
  assert (Cq : m ^ (e * d) mod q = m mod q)
    by (apply (pow_ed_mod_prime q (Z.lcm (p - 1) (q - 1)));
        auto using Z.divide_lcm_r).
  apply Z.cong_iff_0 in Cp. apply Z.cong_iff_0 in Cq.
  apply Z.mod_divide in Cp; [| lia]. apply Z.mod_divide in Cq; [| lia].
  apply Z.cong_iff_0. apply Z.mod_divide; [nia |].
  assert (Hcop : Z.gcd p q = 1).
  { apply Z.coprime_prime_l; [exact Hp |].
    intros Hdiv. apply Hne. apply Z.divide_prime_prime; assumption. }
  assert (Hlcm : Z.lcm p q = p * q).
  { unfold Z.lcm. rewrite Hcop, Z.div_1_r. apply Z.abs_eq. nia. }
  rewrite <- Hlcm. apply Z.lcm_least; assumption.
Qed.

Lemma encrypt_none_iff (e n m : Z) :
  encrypt e n m = Returns None <-> m < 0 \/ m > n - 1.
Proof.
  unfold encrypt.
  destruct (Z.ltb_spec m 0) as [H1 | H1]; cbn [orb].
  - split; [lia | reflexivity].
  - destruct (Z.ltb_spec (n - 1) m) as [H2 | H2].
    + split; [lia | reflexivity].
    + destruct (Py.pow3 m e n); cbn [obind]; split; (discriminate || lia).
Qed.

Lemma decrypt_none_iff (d n c : Z) :
  decrypt d n c = Returns None <-> c < 0 \/ c > n - 1.
Proof.
  unfold decrypt.
  destruct (Z.ltb_spec c 0) as [H1 | H1]; cbn [orb].
  - split; [lia | reflexivity].
  - destruct (Z.ltb_spec (n - 1) c) as [H2 | H2].
    + split; [lia | reflexivity].
    + destruct (Py.pow3 c d n); cbn [obind]; split; (discriminate || lia).
Qed.

(** C8. For distinct primes [p], [q], [n = p * q], exponents [e], [d] (positive
    integers) with [e * d = 1] modulo [lcm(p - 1, q - 1)], and every [m]
    with [0 <= m <= n - 1], [encrypt(e, n, m)] returns a [c] for which
    [decrypt(d, n, c)] returns [m]; and [encrypt] and [decrypt] return
    [None] exactly when their last argument is outside [0, n - 1]. *)
Theorem rsa_round_trip :
  (forall p q e d m : Z,
      Z.prime p -> Z.prime q -> p <> q -> 0 < e -> 0 < d ->
      (e * d) mod Z.lcm (p - 1) (q - 1) = 1 mod Z.lcm (p - 1) (q - 1) ->
      0 <= m <= p * q - 1 ->
      exists c : Z,
        encrypt e (p * q) m = Returns (Some c)
        /\ decrypt d (p * q) c = Returns (Some m))
  /\ (forall e n m : Z, encrypt e n m = Returns None <-> m < 0 \/ m > n - 1)
  /\ (forall d n c : Z, decrypt d n c = Returns None <-> c < 0 \/ c > n - 1).
Proof.
  split; [| split; [exact encrypt_none_iff | exact decrypt_none_iff]].
  intros p q e d m Hp Hq Hne He Hd Hed Hm.
  pose proof (Z.prime_ge_2 p Hp). pose proof (Z.prime_ge_2 q Hq).
  assert (Hn : 0 < p * q) by nia.
  exists (m ^ e mod (p * q)).
  pose proof (Z.mod_pos_bound (m ^ e) (p * q) Hn) as Hc.
  unfold encrypt, decrypt.
  destruct (Z.ltb_spec m 0); [lia |].
  destruct (Z.ltb_spec (p * q - 1) m); [lia |].
  destruct (Z.ltb_spec (m ^ e mod (p * q)) 0); [lia |].
  destruct (Z.ltb_spec (p * q - 1) (m ^ e mod (p * q))); [lia |].
  cbn [orb].
  rewrite !pow3_nonneg_exponent by lia. cbn [obind].
  split; [reflexivity |].
  rewrite Z.mod_pow_l, <- Z.pow_mul_r by lia.
  rewrite (rsa_identity p q e d m Hp Hq Hne He Hd Hed).
  rewrite Z.mod_small by lia. reflexivity.
Qed.

Lemma prime_11 : Z.prime 11.
Proof.
  split; [lia |].
  intros n Hn [k Hk].
  assert (n = 2 \/ n = 3 \/ n = 4 \/ n = 5 \/ n = 6 \/ n = 7 \/ n = 8 \/ n = 9
          \/ n = 10) as Hcases by lia.
  repeat (destruct Hcases as [-> | Hcases]; [lia |]). subst n. lia.
Qed.

(** C8, on the key [p = 3], [q = 11], [e = 3], [d = 7] and the message 5. *)
Lemma rsa_round_trip_witness :
  Z.prime 3 /\ Z.prime 11 /\ 3 <> 11 /\ 0 < 3 /\ 0 < 7
  /\ (3 * 7) mod Z.lcm (3 - 1) (11 - 1) = 1 mod Z.lcm (3 - 1) (11 - 1)
  /\ 0 <= 5 <= 3 * 11 - 1
  /\ exists c : Z,
       encrypt 3 (3 * 11) 5 = Returns (Some c)
       /\ decrypt 7 (3 * 11) c = Returns (Some 5).
Proof.
  assert (H3 : Z.prime 3) by exact Z.prime_3.
  assert (H11 : Z.prime 11) by exact prime_11.
  assert (Hne : 3 <> 11) by discriminate.
  assert (He : 0 < 3) by reflexivity.
  assert (Hd : 0 < 7) by reflexivity.
  assert (Hed : (3 * 7) mod Z.lcm (3 - 1) (11 - 1) = 1 mod Z.lcm (3 - 1) (11 - 1))
    by reflexivity.
  assert (Hm : 0 <= 5 <= 3 * 11 - 1) by (split; discriminate).
  repeat (split; [assumption |]).
  exact (proj1 rsa_round_trip 3 11 3 7 5 H3 H11 Hne He Hd Hed Hm).
Defined.

(** ** OAEP *)

Lemma big_endian_length (size : nat) (n : Z) :
  length (BaseBytes.big_endian size n) = size.
Proof.
  revert n. induction size as [| size IH]; intros n; cbn [BaseBytes.big_endian].
  - reflexivity.
  - rewrite length_app, IH. cbn [length]. lia.
Qed.

Lemma intToBytes_length (n size : Z) (b : list byte) :
  BaseBytes.intToBytes n (Some size) = Returns b -> Bytes.len b = size.
Proof.
  unfold BaseBytes.intToBytes, BaseBytes.to_bytes, Bytes.len.
  destruct (Z.ltb_spec size 0); [discriminate |].
  destruct ((n <? 0) || (256 ^ size <=? n)); [discriminate |].
  intros Heq. injection Heq as <-. rewrite big_endian_length. lia.
Qed.

Lemma sha256_length (msg : list byte) : length (Sha256.sha256 msg) = 32%nat.
Proof.
  unfold Sha256.sha256.
  destruct (Sha256.blocks _ _ _) as [[[[[[[a b] c] d] e] f] g] h].
  rewrite !length_app, !big_endian_length. reflexivity.
Qed.

Lemma MGF_loop_length (seed : list byte) (todo : nat) (counter : Z)
    (t t' : list byte) :
  MGF_loop hashlib_sha256 seed todo counter t = Returns t' ->
  Bytes.len t' = Bytes.len t + 32 * Z.of_nat todo.
Proof.
  revert counter t.
  induction todo as [| todo IH]; intros counter t; cbn [MGF_loop].
  - intros H. injection H as <-. lia.
  - destruct (BaseBytes.intToBytes counter (Some 4)) as [c | |]; cbn [obind];
      try discriminate.
    intros H. apply IH in H. rewrite H. unfold Bytes.len.
    rewrite length_app. cbn [digest hashlib_sha256].
    rewrite sha256_length. lia.
Qed.

Lemma slice_length (s : list byte) (a b : Z) :
  0 <= a <= b -> b <= Bytes.len s ->
  Bytes.len (Bytes.slice s (Some a) (Some b)) = b - a.
Proof.
  intros Hab Hb. unfold Bytes.slice, Bytes.clamp, Bytes.len in *.
  destruct (Z.ltb_spec a 0); [lia |]. destruct (Z.ltb_spec b 0); [lia |].
  rewrite length_firstn, length_skipn. lia.
Qed.

Lemma slice_prefix_length (s : list byte) (b : Z) :
  0 <= b <= Bytes.len s -> Bytes.len (Bytes.slice s None (Some b)) = b.
Proof.
  intros Hb. unfold Bytes.slice, Bytes.clamp, Bytes.len in *.
  destruct (Z.ltb_spec b 0); [lia |].
  rewrite length_firstn, length_skipn. lia.
Qed.

(** A mask that [MGF] returns has the length that was asked for. *)
Lemma MGF_length (seed : list byte) (length : Z) (t : list byte) :
  0 <= length ->
  MGF seed length hashlib_sha256 = Returns (Some t) -> Bytes.len t = length.
Proof.
  intros Hlen. unfold MGF. cbn [digest_size hashlib_sha256].
  destruct (2 ^ 32 * 32 <? length); [discriminate |].
  change (32 =? 0) with false. cbv iota.
  set (top := if negb (length mod 32 =? 0) then length / 32 + 1 else length / 32).
  destruct (MGF_loop hashlib_sha256 seed (Z.to_nat top) 0 []) as [t0 | |] eqn:Hloop;
    cbn [obind]; try discriminate.
  intros H. injection H as <-.
  apply MGF_loop_length in Hloop.
  change (Bytes.len []) with 0 in Hloop.
  pose proof (Z.div_mod length 32 ltac:(lia)) as Hdm.
  pose proof (Z.mod_pos_bound length 32 ltac:(lia)) as Hmod.
  assert (Htop : length <= 32 * top /\ 0 <= top).
  { unfold top. destruct (Z.eqb_spec (length mod 32) 0); cbn [negb]; lia. }
  apply slice_prefix_length. rewrite Hloop. lia.
Qed.

Lemma xor_length (a b : list byte) :
  Bytes.len (BaseBytes.xor a b) = Z.min (Bytes.len a) (Bytes.len b).
Proof.
  unfold BaseBytes.xor, Bytes.len. rewrite length_map, length_combine. lia.
Qed.

(** Once the padding scan is entered it ends at once, without a message:
    an [int] is neither equal to [b"\\x01"] nor to [b"\\x00"]. *)
Lemma scan_entered (fuel : nat) (db : list byte) (index : Z) :
  index < Bytes.len db ->
  no_message (oaepDecrypt_scan (S fuel) db index).
Proof.
  intros Hlt. cbn [oaepDecrypt_scan].
  destruct (Z.ltb_spec index (Bytes.len db)); [| lia].
  unfold Bytes.item.
  destruct ((if index <? 0 then index + Bytes.len db else index) <? 0).
  - right. exists IndexError. reflexivity.
  - destruct (nth_error db _) as [x |]; cbn [obind value_eqb negb].
    + left. reflexivity.
    + right. exists IndexError. reflexivity.
Qed.

Lemma pow3_halts (b e m : Z) : Py.pow3 b e m <> Diverges.
Proof.
  unfold Py.pow3.
  destruct (m =? 0); [discriminate |].
  destruct (0 <=? e); [discriminate |].
  destruct (Z.gcd b m =? 1); discriminate.
Qed.

Lemma decrypt_halts (d n c : Z) : decrypt d n c <> Diverges.
Proof.
  unfold decrypt.
  destruct ((c <? 0) || (n - 1 <? c)); [discriminate |].
  pose proof (pow3_halts c d n).
  destruct (Py.pow3 c d n); cbn [obind]; congruence.
Qed.

Lemma intToBytes_halts (n : Z) (size : option Z) :
  BaseBytes.intToBytes n size <> Diverges.
Proof.
  unfold BaseBytes.intToBytes, BaseBytes.to_bytes.
  destruct size as [size |].
  - destruct (size <? 0); [discriminate |].
    destruct ((n <? 0) || (256 ^ size <=? n)); discriminate.
  - destruct (BaseBytes.byteLength n <? 0); [discriminate |].
    destruct ((n <? 0) || (256 ^ BaseBytes.byteLength n <=? n)); discriminate.
Qed.

Lemma item_halts (s : list byte) (i : Z) : Bytes.item s i <> Diverges.
Proof.
  unfold Bytes.item.
  destruct ((if i <? 0 then i + Bytes.len s else i) <? 0); [discriminate |].
  destruct (nth_error s _); discriminate.
Qed.

Lemma MGF_loop_halts (hashFunction : HashFunction) (seed : list byte)
    (todo : nat) (counter : Z) (t : list byte) :
  MGF_loop hashFunction seed todo counter t <> Diverges.
Proof.
  revert counter t.
  induction todo as [| todo IH]; intros counter t; cbn [MGF_loop];
    [discriminate |].
  pose proof (intToBytes_halts counter (Some 4)).
  destruct (BaseBytes.intToBytes counter (Some 4)); cbn [obind];
    [apply IH | discriminate | congruence].
Qed.

Lemma MGF_halts (seed : list byte) (length : Z) (hashFunction : HashFunction) :
  MGF seed length hashFunction <> Diverges.
Proof.
  unfold MGF.
  destruct (2 ^ 32 * digest_size hashFunction <? length); [discriminate |].
  destruct (digest_size hashFunction =? 0); [discriminate |].
  match goal with
  | |- context [MGF_loop ?h ?s ?n ?c ?t] =>
      pose proof (MGF_loop_halts h s n c t); destruct (MGF_loop h s n c t)
  end; cbn [obind]; congruence.
Qed.

(** The data block that [oaepDecrypt] recovers is longer than the hash. *)
Lemma data_block_length (em maskedDb dbMask : list byte) (nLength hLength : Z)
    (seed : list byte) :
  Bytes.len em = nLength -> 2 * hLength + 2 <= nLength -> 0 <= hLength ->
  maskedDb = Bytes.slice em (Some (1 + hLength)) (Some nLength) ->
  MGF seed (nLength - hLength - 1) hashlib_sha256 = Returns (Some dbMask) ->
  hLength < Bytes.len (BaseBytes.xor maskedDb dbMask).
Proof.
  intros Hem Hn Hh -> Hmask.
  apply MGF_length in Hmask; [| lia].
  rewrite xor_length, Hmask, slice_length by lia. lia.
Qed.

(** [oaepDecrypt] returns no message, whatever it is given. *)
Lemma oaepDecrypt_no_message (fuel : nat) (d n : Z)
    (ciphertext label : list byte) (hashFunction : HashFunction) :
  no_message (oaepDecrypt (S fuel) d n ciphertext label hashFunction).
Proof.
  unfold oaepDecrypt.
  set (nLength := BaseBytes.byteLength n).
  set (hLength := digest_size hashFunction).
  destruct (negb (Bytes.len ciphertext =? nLength)); [left; reflexivity |].
  destruct (Z.ltb_spec nLength (2 * hLength + 2)) as [| Hn]; [left; reflexivity |].
  pose proof (decrypt_halts d n (BaseBytes.bytesToInt ciphertext)) as Hd.
  destruct (decrypt d n (BaseBytes.bytesToInt ciphertext)) as [[m |] | x |];
    cbn [obind];
    [| right; exists TypeError; reflexivity | right; exists x; reflexivity
     | congruence].
  pose proof (intToBytes_halts m (Some nLength)) as Hi.
  destruct (BaseBytes.intToBytes m (Some nLength)) as [em | x |] eqn:Hem;
    cbn [obind]; [| right; exists x; reflexivity | congruence].
  apply intToBytes_length in Hem.
  pose proof (item_halts em 0) as Hy.
  destruct (Bytes.item em 0) as [Y | x |];
    cbn [obind]; [| right; exists x; reflexivity | congruence].
  set (maskedSeed := Bytes.slice em (Some 1) (Some (1 + hLength))).
  set (maskedDb := Bytes.slice em (Some (1 + hLength)) (Some nLength)).
  pose proof (MGF_halts maskedDb hLength hashlib_sha256) as Hm1.
  destruct (MGF maskedDb hLength hashlib_sha256) as [[seedMask |] | x |];
    cbn [obind xor_mask];
    [| right; exists TypeError; reflexivity | right; exists x; reflexivity
     | congruence].
  set (seed := BaseBytes.xor maskedSeed seedMask).
  pose proof (MGF_halts seed (nLength - hLength - 1) hashlib_sha256) as Hm2.
  destruct (MGF seed (nLength - hLength - 1) hashlib_sha256)
    as [[dbMask |] | x |] eqn:Hmask;
    cbn [obind xor_mask];
    [| right; exists TypeError; reflexivity | right; exists x; reflexivity
     | congruence].
  set (db := BaseBytes.xor maskedDb dbMask).
  destruct (negb (Bytes.eqb _ _)); [left; reflexivity |].
  apply scan_entered.
  destruct (Z.lt_ge_cases hLength 0) as [Hneg | Hpos].
  - unfold Bytes.len. lia.
  - exact (data_block_length em maskedDb dbMask nLength hLength seed
             Hem Hn Hpos eq_refl Hmask).
Qed.

Lemma xor_mask_halts (a : list byte) (mask : option (list byte)) :
  xor_mask a mask <> Diverges.
Proof. destruct mask; discriminate. Qed.

Lemma encrypt_halts (e n m : Z) : encrypt e n m <> Diverges.
Proof.
  unfold encrypt.
  destruct ((m <? 0) || (n - 1 <? m)); [discriminate |].
  pose proof (pow3_halts m e n).
  destruct (Py.pow3 m e n); cbn [obind]; congruence.
Qed.

Lemma lift_cases {A : Type} (c : outcome A) (r : Rng) :
  c <> Diverges ->
  (exists a, c = Returns a /\ lift c r = Returns (a, r))
  \/ (exists x, lift c r = Raises x).
Proof.
  intros Hc. unfold lift. destruct c as [a | x |]; cbn [obind].
  - left. exists a. split; reflexivity.
  - right. exists x. reflexivity.
  - contradiction.
Qed.

(** [oaepEncrypt] returns a ciphertext or [None], or raises; it has no
    loop that could go on. *)
Lemma oaepEncrypt_halts (e n : Z) (message label : list byte)
    (hashFunction : HashFunction) (r : Rng) :
  oaepEncrypt e n message label hashFunction r <> Diverges.
Proof.
  unfold oaepEncrypt, bind.
  destruct (lift_cases (BaseBytes.intToBytes n None) r
              (intToBytes_halts n None)) as [(nBytes & _ & ->) | (x & ->)];
    [| discriminate].
  destruct (_ <? Bytes.len message); [discriminate |].
  unfold Py.randbits.
  destruct (digest_size hashFunction * 8 <? 0); [discriminate |].
  set (r1 := mkRng (entropy r) (S (cursor r))).
  set (v := Z.land _ _).
  destruct (lift_cases (BaseBytes.intToBytes v None) r1
              (intToBytes_halts v None)) as [(seed & _ & ->) | (x & ->)];
    [| discriminate].
  match goal with
  | |- context [lift (MGF ?s ?l ?h) r1] =>
      destruct (lift_cases (MGF s l h) r1 (MGF_halts s l h))
        as [(dbMask & _ & ->) | (x & ->)]; [| discriminate]
  end.
  match goal with
  | |- context [lift (xor_mask ?a ?m) r1] =>
      destruct (lift_cases (xor_mask a m) r1 (xor_mask_halts a m))
        as [(maskedDb & _ & ->) | (x & ->)]; [| discriminate]
  end.
  match goal with
  | |- context [lift (MGF ?s ?l ?h) r1] =>
      destruct (lift_cases (MGF s l h) r1 (MGF_halts s l h))
        as [(seedMask & _ & ->) | (x & ->)]; [| discriminate]
  end.
  match goal with
  | |- context [lift (xor_mask ?a ?m) r1] =>
      destruct (lift_cases (xor_mask a m) r1 (xor_mask_halts a m))
        as [(maskedSeed & _ & ->) | (x & ->)]; [| discriminate]
  end.
  match goal with
  | |- context [lift (encrypt ?a ?b ?c) r1] =>
      destruct (lift_cases (encrypt a b c) r1 (encrypt_halts a b c))
        as [([c' |] & _ & ->) | (x & ->)]; [| discriminate | discriminate]
  end.
  match goal with
  | |- context [lift (BaseBytes.intToBytes ?a ?b) r1] =>
      destruct (lift_cases (BaseBytes.intToBytes a b) r1 (intToBytes_halts a b))
        as [(out & _ & ->) | (x & ->)]; discriminate
  end.
Qed.

(** The round trip returns no message: it returns [None] or raises. *)
Lemma oaepRoundTrip_no_message (fuel : nat) (e d n : Z)
    (message label : list byte) (hashFunction : HashFunction) (r : Rng) :
  (exists r', oaepRoundTrip (S fuel) e d n message label hashFunction r
              = Returns (None, r'))
  \/ (exists x, oaepRoundTrip (S fuel) e d n message label hashFunction r
                = Raises x).
Proof.
  unfold oaepRoundTrip, bind.
  pose proof (oaepEncrypt_halts e n message label hashFunction r) as He.
  destruct (oaepEncrypt e n message label hashFunction r)
    as [[[ciphertext |] r1] | x |].
  - unfold lift.
    destruct (oaepDecrypt_no_message fuel d n ciphertext label hashFunction)
      as [-> | (x & ->)]; cbn [obind].
    + left. exists r1. reflexivity.
    + right. exists x. reflexivity.
  - right. exists TypeError. reflexivity.
  - right. exists x. reflexivity.
  - contradiction.
Qed.

(** C6. [oaepDecrypt] never returns a message: for every [d], [n],
    ciphertext, label and hash the call returns [None] or raises.  An
    [int] is never equal to a [bytes] object, so a padding scan that is
    entered at an index of the data block returns [None] in its first
    iteration, and the scan is entered whenever it is reached. *)
Theorem oaepDecrypt_never_returns_message
    (fuel : nat) (d n : Z) (ciphertext label : list byte)
    (hashFunction : HashFunction) :
  (oaepDecrypt (S fuel) d n ciphertext label hashFunction = Returns None
   \/ exists x : exn,
        oaepDecrypt (S fuel) d n ciphertext label hashFunction = Raises x)
  /\ (forall (z : Z) (b : list byte), value_eqb (Int z) (BytesVal b) = false)
  /\ (forall (db : list byte) (index : Z),
         0 <= index < Bytes.len db ->
         oaepDecrypt_scan 1 db index = Returns None).
Proof.
  split; [exact (oaepDecrypt_no_message fuel d n ciphertext label hashFunction) |].
  split; [reflexivity |].
  intros db index [Hlo Hhi]. cbn [oaepDecrypt_scan].
  destruct (Z.ltb_spec index (Bytes.len db)); [| lia].
  unfold Bytes.item.
  destruct (Z.ltb_spec index 0); [lia |].
  destruct (Z.ltb_spec index 0); [lia |].
  destruct (nth_error db (Z.to_nat index)) as [x |] eqn:Hnth.
  - reflexivity.
  - apply nth_error_None in Hnth. unfold Bytes.len in Hhi. lia.
Qed.

(** C6, on a data block: the scan of [b"\\x00\\x01A"] from index 0. *)
Lemma oaepDecrypt_never_returns_message_witness :
  0 <= 0 < Bytes.len [x00; x01; x41]
  /\ oaepDecrypt_scan 1 [x00; x01; x41] 0 = Returns None.
Proof.
  assert (H : 0 <= 0 < Bytes.len [x00; x01; x41]) by (split; [discriminate | reflexivity]).
  split; [exact H |].
  exact (proj2 (proj2 (oaepDecrypt_never_returns_message 0 0 0 [] [] hashlib_sha256))
               [x00; x01; x41] 0 H).
Defined.

(** C5, at the failing input: the 2048-bit sample key, the message
    [b"hi"], the empty label and SHA-256.  [oaepEncrypt] returns a
    ciphertext of 256 bytes, and [oaepDecrypt] returns [None] on it, not
    the message; whatever the random source, the round trip returns
    [None] or raises. *)
Theorem oaep_round_trip_loses_message :
  (65537 * Sample.rsa_d) mod Z.lcm (Sample.pair_p - 1) (Sample.pair_q - 1) = 1
  /\ BaseBytes.byteLength Sample.rsa_n = 256
  /\ (exists ciphertext : list byte,
         oaepEncrypt 65537 Sample.rsa_n Sample.message [] hashlib_sha256
           (Sample.source [Sample.oaep_draw])
         = Returns (Some ciphertext, mkRng (fun i => nth i [Sample.oaep_draw] 0) 1)
         /\ Bytes.len ciphertext = 256
         /\ oaepDecrypt 1 Sample.rsa_d Sample.rsa_n ciphertext []
              hashlib_sha256 = Returns None)
  /\ oaepRoundTrip 1 65537 Sample.rsa_d Sample.rsa_n Sample.message []
       hashlib_sha256 (Sample.source [Sample.oaep_draw])
     = Returns (None, mkRng (fun i => nth i [Sample.oaep_draw] 0) 1)
  /\ forall (fuel : nat) (r : Rng),
       (exists r',
           oaepRoundTrip (S fuel) 65537 Sample.rsa_d Sample.rsa_n
             Sample.message [] hashlib_sha256 r = Returns (None, r'))
       \/ (exists x,
              oaepRoundTrip (S fuel) 65537 Sample.rsa_d Sample.rsa_n
                Sample.message [] hashlib_sha256 r = Raises x).
Proof.
  split; [vm_compute; reflexivity |].
  split; [vm_compute; reflexivity |].
  split.
  { eexists. split; [vm_compute; reflexivity |].
    split; vm_compute; reflexivity. }
  split; [vm_compute; reflexivity |].
  intros fuel r. apply oaepRoundTrip_no_message.
Qed.

(** ** Further properties *)

(** X2. An exponent [e <= 2 ** 16], such as 3, is rejected by the four
    generators on entry: nothing is bound and nothing is drawn. *)
Theorem small_exponent_rejected
    (env : Collaborators) (fuel : nat) (e N seed : Z) (seed' : option Z)
    (probablePrimes : bool) (r : Rng) :
  e <= 2 ^ 16 ->
  generateProvablePrimes env fuel e N seed = Returns (None, unbound)
  /\ generateProbablePrimes env fuel e N r = Returns (None, r)
  /\ geneareteProvablePrimesWithConditions env fuel e N seed
     = Returns (None, unbound)
  /\ generateProbablePrimesWithConditions env fuel e N seed' probablePrimes r
     = Returns ((None, unbound), r).
Proof.
  intros He. apply Z.leb_le in He.
  unfold generateProvablePrimes, generateProbablePrimes,
    geneareteProvablePrimesWithConditions, generateProbablePrimesWithConditions.
  rewrite He. cbn [orb].
  destruct (negb (N =? 2048) && negb (N =? 3072));
    destruct (negb (N =? 1024) && negb (N =? 2048) && negb (N =? 3072));
    repeat split.
Qed.

Lemma small_exponent_rejected_witness :
  3 <= 2 ^ 16
  /\ generateProvablePrimes (Reference.collaborators Sample.answers) 1 3 2048
       Sample.seed224 = Returns (None, unbound)
  /\ generateProbablePrimesWithConditions (Reference.collaborators []) 1 3 1024
       None true (Sample.source Sample.direct_draws)
     = Returns ((None, unbound), Sample.source Sample.direct_draws).
Proof.
  assert (H : 3 <= 2 ^ 16) by discriminate.
  split; [exact H |].
  destruct (small_exponent_rejected (Reference.collaborators Sample.answers) 1 3
              2048 Sample.seed224 None true (Sample.source []) H)
    as (H1 & _).
  destruct (small_exponent_rejected (Reference.collaborators []) 1 3
              1024 Sample.seed224 None true (Sample.source Sample.direct_draws) H)
    as (_ & _ & _ & H4).
  split; [exact H1 | exact H4].
Defined.

(** X3. [getSeed(N)] returns [None] for a key length that is not approved,
    and a seed it returns has exactly [2 * getIFCSecurityLevel(N)] bits. *)
Theorem getSeed_bit_length
    (env : Collaborators) (N : Z) (r r' : Rng) (seed : Z) :
  (~ In N (IFC_APPROVED_LENGTHS env) -> getSeed env N r = Returns (None, r))
  /\ (getSeed env N r = Returns (Some seed, r') ->
      In N (IFC_APPROVED_LENGTHS env)
      /\ Py.bit_length seed = 2 * getIFCSecurityLevel env N).
Proof.
  unfold getSeed.
  destruct (existsb (Z.eqb N) (IFC_APPROVED_LENGTHS env)) eqn:Hin; cbn [negb].
  - apply existsb_exists in Hin. destruct Hin as (x & Hx & Heq).
    apply Z.eqb_eq in Heq. subst x.
    split; [intros Hn; contradiction |].
    unfold bind.
    set (k := 2 * getIFCSecurityLevel env N).
    destruct (Py.randbits k r) as [[v r1] | |] eqn:Hdraw; try discriminate.
    apply randbits_returns in Hdraw. destruct Hdraw as (_ & Hv & _).
    destruct (Z.ltb_spec (k - 1) 0) as [| Hk]; [discriminate |].
    intros Heq.
    assert (Hs : seed = Z.lor v (2 ^ (k - 1))) by (unfold ret in Heq; congruence).
    split; [exact Hx |]. rewrite Hs.
    assert (Htop : 0 <= 2 ^ (k - 1) < 2 ^ k).
    { split; [apply Z.pow_nonneg; lia | apply Z.pow_lt_mono_r; lia]. }
    pose proof (lor_below_pow2 v (2 ^ (k - 1)) k Hv Htop).
    pose proof (lor_lower v (2 ^ (k - 1)) ltac:(lia)).
    apply bit_length_unique; lia.
  - split; [reflexivity | discriminate].
Qed.

Lemma getSeed_bit_length_witness :
  ~ In 512 (IFC_APPROVED_LENGTHS (Reference.collaborators []))
  /\ getSeed (Reference.collaborators []) 512 (Sample.source [])
     = Returns (None, Sample.source [])
  /\ exists seed r',
       getSeed (Reference.collaborators []) 2048 (Sample.source [Sample.tested_draw])
       = Returns (Some seed, r')
       /\ Py.bit_length seed = 2 * 112.
Proof.
  assert (H : ~ In 512 (IFC_APPROVED_LENGTHS (Reference.collaborators []))).
  { cbn. intros [H | [H | [H | []]]]; discriminate H. }
  split; [exact H |].
  split; [exact (proj1 (getSeed_bit_length (Reference.collaborators []) 512
                          (Sample.source []) (Sample.source []) 0) H) |].
  destruct (getSeed (Reference.collaborators []) 2048
              (Sample.source [Sample.tested_draw])) as [[[seed |] r'] | |] eqn:Hrun;
    try (exfalso; vm_compute in Hrun; discriminate Hrun).
  exists seed, r'. split; [reflexivity |].
  exact (proj2 (proj2 (getSeed_bit_length (Reference.collaborators []) 2048
                         (Sample.source [Sample.tested_draw]) r' seed) Hrun)).
Defined.

Lemma MGF_loop_returns (hashFunction : HashFunction) (seed : list byte)
    (todo : nat) (counter : Z) (t : list byte) :
  0 <= counter -> counter + Z.of_nat todo <= 2 ^ 32 ->
  exists t', MGF_loop hashFunction seed todo counter t = Returns t'.
Proof.
  revert counter t.
  induction todo as [| todo IH]; intros counter t Hc Hn; cbn [MGF_loop].
  - exists t. reflexivity.
  - unfold BaseBytes.intToBytes, BaseBytes.to_bytes.
    change (4 <? 0) with false. cbv iota.
    change (256 ^ 4) with (2 ^ 32).
    destruct (Z.ltb_spec counter 0); [lia |].
    destruct (Z.leb_spec (2 ^ 32) counter); [lia |].
    cbn [orb obind]. apply IH; lia.
Qed.

(** X4. [MGF(seed, length)] with SHA-256 returns [None] for a [length]
    above [2 ** 32 * 32], and otherwise a mask of exactly [length] bytes. *)
Theorem MGF_mask_length (seed : list byte) (length : Z) :
  (2 ^ 32 * 32 < length -> MGF seed length hashlib_sha256 = Returns None)
  /\ (0 <= length <= 2 ^ 32 * 32 ->
      exists t, MGF seed length hashlib_sha256 = Returns (Some t)
                /\ Bytes.len t = length).
Proof.
  split.
  - intros Hbig. unfold MGF. cbn [digest_size hashlib_sha256].
    destruct (Z.ltb_spec (2 ^ 32 * 32) length); [reflexivity | lia].
  - intros [Hlo Hhi].
    assert (Hex : exists t, MGF seed length hashlib_sha256 = Returns (Some t)).
    { unfold MGF. cbn [digest_size hashlib_sha256].
      destruct (Z.ltb_spec (2 ^ 32 * 32) length); [lia |].
      change (32 =? 0) with false. cbv iota.
      set (top := if negb (length mod 32 =? 0) then length / 32 + 1
                  else length / 32).
      pose proof (Z.div_mod length 32 ltac:(lia)) as Hdm.
      pose proof (Z.mod_pos_bound length 32 ltac:(lia)) as Hmod.
      assert (Htop : 0 <= top <= 2 ^ 32).
      { unfold top. destruct (Z.eqb_spec (length mod 32) 0); cbn [negb]; lia. }
      destruct (MGF_loop_returns hashlib_sha256 seed (Z.to_nat top) 0 [])
        as [t0 Ht0]; [lia | lia |].
      rewrite Ht0. cbn [obind]. eexists. reflexivity. }
    destruct Hex as [t Ht]. exists t. split; [exact Ht |].
    exact (MGF_length seed length t Hlo Ht).
Qed.

Lemma MGF_mask_length_witness :
  0 <= 95 <= 2 ^ 32 * 32
  /\ exists t, MGF [x00; x01] 95 hashlib_sha256 = Returns (Some t)
               /\ Bytes.len t = 95.
Proof.
  assert (H : 0 <= 95 <= 2 ^ 32 * 32) by (split; discriminate).
  split; [exact H | exact (proj2 (MGF_mask_length [x00; x01] 95) H)].
Defined.

Section AuxiliaryPrimesFacts.

Context (env : Collaborators).

Lemma auxiliaryPrimes_step5_found
    (fuel : nat) (p1 p2 N e t Y0 i Y : Z) :
  auxiliaryPrimes_step5 env fuel p1 p2 N e t Y0 i = Returns (Found Y) ->
  Y < 2 ^ (N / 2) /\ Z.gcd (Y - 1) e = 1 /\ millerRabin env Y t = true
  /\ exists k, 0 <= k /\ Y = Y0 + k * (2 * p1 * p2).
Proof.
  revert Y0 i.
  induction fuel as [| fuel IH]; intros Y0 i; cbn [auxiliaryPrimes_step5];
    [discriminate |].
  destruct (Z.leb_spec (2 ^ (N / 2)) Y0) as [| Hlt]; [discriminate |].
  destruct (Z.eqb_spec (Base.gcd (Y0 - 1) e) 1) as [Hg | Hg].
  - destruct (millerRabin env Y0 t) eqn:Hmr.
    + intros H. injection H as <-.
      repeat split; try assumption. exists 0. lia.
    + destruct (5 * (N / 2) <=? i + 1); [discriminate |].
      intros H. apply IH in H. destruct H as (H1 & H2 & H3 & k & Hk & ->).
      repeat split; try assumption. exists (k + 1). lia.
  - destruct (5 * (N / 2) <=? i + 1); [discriminate |].
    intros H. apply IH in H. destruct H as (H1 & H2 & H3 & k & Hk & ->).
    repeat split; try assumption. exists (k + 1). lia.
Qed.

Lemma auxiliaryPrimes_resample_returns
    (fuel : nat) (N lo hi X0 : Z) (r r' : Rng) (X : Z) :
  auxiliaryPrimes_resample fuel N lo hi X0 r = Returns (X, r') ->
  lo <= X <= hi.
Proof.
  revert X0 r.
  induction fuel as [| fuel IH]; intros X0 r; cbn [auxiliaryPrimes_resample];
    [discriminate |].
  destruct (Z.ltb_spec X0 lo) as [| Hlo]; cbn [orb].
  - unfold bind. destruct (auxiliaryPrimes_drawX N r) as [[X1 r1] | |];
      try discriminate. apply IH.
  - destruct (Z.ltb_spec hi X0) as [| Hhi].
    + unfold bind. destruct (auxiliaryPrimes_drawX N r) as [[X1 r1] | |];
        try discriminate. apply IH.
    + intros H. injection H as <- _. lia.
Qed.

Lemma auxiliaryPrimes_step3_returns
    (budget fuel : nat) (p1 p2 N e t R lo hi : Z) (r r' : Rng) (Y X : Z) :
  auxiliaryPrimes_step3 env budget fuel p1 p2 N e t R lo hi r
  = Returns (Some (Y, X), r') ->
  1 <= N / 2 /\ lo <= X <= hi /\ Y < 2 ^ (N / 2) /\ Z.gcd (Y - 1) e = 1
  /\ millerRabin env Y t = true
  /\ exists k, 0 <= k /\ Y = X + (R - X) mod (2 * p1 * p2) + k * (2 * p1 * p2).
Proof.
  revert r.
  induction fuel as [| fuel IH]; intros r; cbn [auxiliaryPrimes_step3];
    [discriminate |].
  step_bind X0 r1 Hdraw.
  assert (HL : 1 <= N / 2).
  { unfold auxiliaryPrimes_drawX, bind in Hdraw.
    destruct (Py.randbits (N / 2) r) as [[v r0] | |]; try discriminate.
    destruct (Z.ltb_spec (N / 2 - 1) 0); [discriminate | lia]. }
  step_bind X1 r2 Hre.
  apply auxiliaryPrimes_resample_returns in Hre.
  destruct (negb ((X1 <=? hi) && (lo <=? X1))); [discriminate |].
  unfold bind, lift.
  destruct (auxiliaryPrimes_step5 env budget p1 p2 N e t _ 0)
    as [[Y' | |] | |] eqn:H5; cbn [obind]; try discriminate.
  - apply auxiliaryPrimes_step5_found in H5.
    intros H. injection H as <- <- _.
    destruct H5 as (H1 & H2 & H3 & k & Hk & Hy).
    repeat split; try assumption; try lia. exists k. split; assumption.
  - apply IH.
Qed.

End AuxiliaryPrimesFacts.

(** A number that differs from [R] by a multiple of [2 * p1 * p2] has the
    residues of [R] modulo [2 * p1] and modulo [p2]. *)
Lemma residues_kept (p1 p2 R X k : Z) :
  2 * p1 * p2 <> 0 ->
  let Y := X + (R - X) mod (2 * p1 * p2) + k * (2 * p1 * p2) in
  Y mod (2 * p1) = R mod (2 * p1) /\ Y mod p2 = R mod p2.
Proof.
  intros HM Y.
  pose proof (Z.mod_eq (R - X) (2 * p1 * p2) HM) as Hmod.
  split; apply Z.cong_iff_ex.
  - exists ((k - (R - X) / (2 * p1 * p2)) * p2). unfold Y. rewrite Hmod. ring.
  - exists ((k - (R - X) / (2 * p1 * p2)) * (2 * p1)). unfold Y. rewrite Hmod. ring.
Qed.

(** X1. What [generateProbablePrimeWithAuxiliaryPrimes] returns: [Y] passed
    the gcd and Miller-Rabin tests, is below [2 ** (N // 2)], is 1 modulo
    [2 * p1] and -1 modulo [p2]; [X] lies between [2 ** (N // 2 - 1)] and
    [2 ** (N // 2) - 1]; and for positive [p1], [p2], [Y] is at least [X]
    and has exactly [N // 2] bits. *)
Theorem auxiliaryPrimes_returns
    (env : Collaborators) (fuel : nat) (p1 p2 N e : Z) (r r' : Rng) (Y X : Z) :
  generateProbablePrimeWithAuxiliaryPrimes env fuel p1 p2 N e r
  = Returns (Some (Y, X), r') ->
  Z.gcd (Y - 1) e = 1
  /\ millerRabin env Y (fst (millerRabinTestsForIFC env N)) = true
  /\ Y < 2 ^ (N / 2)
  /\ Y mod (2 * p1) = 1 /\ Y mod p2 = (-1) mod p2
  /\ 2 ^ (N / 2 - 1) <= X <= 2 ^ (N / 2) - 1
  /\ (0 < p1 -> 0 < p2 -> X <= Y /\ Py.bit_length Y = N / 2).
Proof.
  unfold generateProbablePrimeWithAuxiliaryPrimes.
  destruct (negb (Base.gcd (2 * p1) p2 =? 1)); [discriminate |].
  unfold bind at 1. unfold lift at 1.
  destruct (Py.pow3 p2 (-1) (2 * p1)) as [a | |] eqn:Ha; cbn [obind];
    try discriminate.
  unfold bind at 1. unfold lift at 1.
  destruct (Py.pow3 (2 * p1) (-1) p2) as [b | |] eqn:Hb; cbn [obind];
    try discriminate.
  assert (Hp1 : 2 * p1 <> 0).
  { intros H0. unfold Py.pow3 in Ha. rewrite H0 in Ha. discriminate Ha. }
  assert (Hp2 : p2 <> 0).
  { intros H0. unfold Py.pow3 in Hb. rewrite H0 in Hb. discriminate Hb. }
  set (R := a * p2 - b * 2 * p1).
  destruct (Z.eqb_spec (R mod (2 * p1)) 1) as [HR1 |]; [| discriminate].
  destruct (Z.eqb_spec (R mod p2) (-1 mod p2)) as [HR2 |]; [| discriminate].
  cbn [andb negb]. clearbody R.
  intros H. apply auxiliaryPrimes_step3_returns in H.
  destruct H as (HL & HX & HY & Hg & Hmr & k & Hk & Hy).
  assert (HM : 2 * p1 * p2 <> 0) by nia.
  destruct (residues_kept p1 p2 R X k HM) as [E1 E2].
  cbv zeta in E1, E2. rewrite <- Hy in E1, E2.
  change (665857 / 470832) with 1 in HX. rewrite Z.mul_1_l in HX.
  repeat split; try assumption; try lia; try congruence.
  - assert (HMpos : 0 < 2 * p1 * p2) by (apply Z.mul_pos_pos; lia).
    pose proof (Z.mod_pos_bound (R - X) (2 * p1 * p2) HMpos).
    assert (0 <= k * (2 * p1 * p2)) by (apply Z.mul_nonneg_nonneg; lia).
    lia.
  - assert (HMpos : 0 < 2 * p1 * p2) by (apply Z.mul_pos_pos; lia).
    pose proof (Z.mod_pos_bound (R - X) (2 * p1 * p2) HMpos).
    assert (0 <= k * (2 * p1 * p2)) by (apply Z.mul_nonneg_nonneg; lia).
    apply bit_length_unique; [exact HL | lia].
Qed.

Lemma auxiliaryPrimes_returns_witness :
  generateProbablePrimeWithAuxiliaryPrimes (Reference.collaborators []) 1
    Sample.aux_p1 Sample.aux_p2 1024 65537 (Sample.source [Sample.aux_draw])
  = Returns (Some (Sample.aux_Y, Sample.aux_X),
             mkRng (fun i => nth i [Sample.aux_draw] 0) 1)
  /\ 0 < Sample.aux_p1 /\ 0 < Sample.aux_p2
  /\ Sample.aux_Y mod (2 * Sample.aux_p1) = 1
  /\ Py.bit_length Sample.aux_Y = 1024 / 2.
Proof.
  assert (Hrun :
    generateProbablePrimeWithAuxiliaryPrimes (Reference.collaborators []) 1
      Sample.aux_p1 Sample.aux_p2 1024 65537 (Sample.source [Sample.aux_draw])
    = Returns (Some (Sample.aux_Y, Sample.aux_X),
               mkRng (fun i => nth i [Sample.aux_draw] 0) 1))
    by (vm_compute; reflexivity).
  assert (H1 : 0 < Sample.aux_p1) by reflexivity.
  assert (H2 : 0 < Sample.aux_p2) by reflexivity.
  destruct (auxiliaryPrimes_returns _ _ _ _ _ _ _ _ _ _ Hrun)
    as (_ & _ & _ & Hm & _ & _ & Hpos).
  split; [exact Hrun | split; [exact H1 | split; [exact H2 | split;
    [exact Hm | exact (proj2 (Hpos H1 H2))]]]].
Defined.

Section Distance.

Context (env : Collaborators).

Lemma generateProvablePrimes_step7_distance
    (fuel : nat) (e N L N1 N2 p w : Z) (s s' : Secrets) (p' q : Z) :
  generateProvablePrimes_step7 env fuel e N L N1 N2 p w s
  = Returns (Some (p', q), s') ->
  p' = p /\ 2 ^ (N / 2 - 100) < Z.abs (p - q).
Proof.
  revert w s.
  induction fuel as [| fuel IH]; intros w s;
    cbn [generateProvablePrimes_step7]; [discriminate |].
  destruct (ifcProvablePrime env L N1 N2 w e) as [[[[q0 q1'] q2'] qSeed'] |];
    [| discriminate].
  destruct (Z.ltb_spec (2 ^ (N / 2 - 100)) (Z.abs (p - q0))) as [Hd | _];
    [| apply IH].
  intros H. injection H as <- <- _. split; [reflexivity | exact Hd].
Qed.

Lemma geneareteProvablePrimesWithConditions_step7_distance
    (fuel : nat) (e N q1Len q2Len p w : Z) (s s' : Secrets) (p' q : Z) :
  geneareteProvablePrimesWithConditions_step7 env fuel e N q1Len q2Len p w s
  = Returns (Some (p', q), s') ->
  p' = p /\ 2 ^ (N / 2 - 100) < Z.abs (p - q).
Proof.
  revert w s.
  induction fuel as [| fuel IH]; intros w s;
    cbn [geneareteProvablePrimesWithConditions_step7]; [discriminate |].
  destruct (ifcProvablePrime env (N / 2) e w q1Len q2Len)
    as [[[[q0 q1'] q2'] qSeed'] |]; [| discriminate].
  destruct (Z.ltb_spec (2 ^ (N / 2 - 100)) (Z.abs (p - q0))) as [Hd | _];
    [| apply IH].
  intros H. injection H as <- <- _. split; [reflexivity | exact Hd].
Qed.

Lemma seedDriven_step6_distance
    (budget fuel : nat) (e N q1Len q2Len p Xp primeSeed : Z) (s s' : Secrets)
    (r r' : Rng) (p' q : Z) :
  seedDriven_step6 env budget fuel e N q1Len q2Len p Xp primeSeed s r
  = Returns ((Some (p', q), s'), r') ->
  p' = p /\ 2 ^ (N / 2 - 100) < Z.abs (p - q).
Proof.
  revert primeSeed s r.
  induction fuel as [| fuel IH]; intros primeSeed s r;
    cbn [seedDriven_step6]; [discriminate |].
  destruct (negb (st_status (shaweTaylor env q1Len primeSeed))); [discriminate |].
  destruct (negb (st_status (shaweTaylor env q2Len _))); [discriminate |].
  step_bind res r1 Hres.
  destruct res as [[q0 Xq0] |]; [| discriminate].
  destruct (Z.ltb_spec (2 ^ (N / 2 - 100)) (Z.abs (p - q0))) as [Hd | _];
    cbn [andb]; [| apply IH].
  destruct (2 ^ (N / 2 - 100) <? Z.abs (Xp - Xq0)); [| apply IH].
  intros H. injection H as <- <- _ _. split; [reflexivity | exact Hd].
Qed.

Lemma directRandom_step5_distance
    (budget fuel : nat) (e N t q1Len q2Len p Xp : Z) (s s' : Secrets)
    (r r' : Rng) (p' q : Z) :
  directRandom_step5 env budget fuel e N t q1Len q2Len p Xp s r
  = Returns ((Some (p', q), s'), r') ->
  p' = p /\ 2 ^ (N / 2 - 100) < Z.abs (p - q).
Proof.
  revert s r.
  induction fuel as [| fuel IH]; intros s r;
    cbn [directRandom_step5]; [discriminate |].
  step_bind Xq1' r1 H1. step_bind Xq2' r2 H2.
  step_bind Xq1'' r3 H3. step_bind Xq2'' r4 H4.
  step_bind res r5 Hres.
  destruct res as [[q0 Xq0] |]; [| discriminate].
  destruct (Z.ltb_spec (2 ^ (N / 2 - 100)) (Z.abs (p - q0))) as [Hd | _];
    cbn [andb]; [| apply IH].
  destruct (2 ^ (N / 2 - 100) <? Z.abs (Xp - Xq0)); [| apply IH].
  intros H. injection H as <- <- _ _. split; [reflexivity | exact Hd].
Qed.

End Distance.

(** X5. A pair [(p, q)] that [generateProvablePrimes],
    [geneareteProvablePrimesWithConditions] or
    [generateProbablePrimesWithConditions] returns has
    [|p - q| > 2 ** (N // 2 - 100)]. *)
Theorem pairs_are_distant
    (env : Collaborators) (fuel : nat) (e N seed : Z) (seed' : option Z)
    (probablePrimes : bool) (r r' : Rng) (p q : Z) (s : Secrets) :
  (generateProvablePrimes env fuel e N seed = Returns (Some (p, q), s) ->
   2 ^ (N / 2 - 100) < Z.abs (p - q))
  /\ (geneareteProvablePrimesWithConditions env fuel e N seed
      = Returns (Some (p, q), s) ->
      2 ^ (N / 2 - 100) < Z.abs (p - q))
  /\ (generateProbablePrimesWithConditions env fuel e N seed' probablePrimes r
      = Returns ((Some (p, q), s), r') ->
      2 ^ (N / 2 - 100) < Z.abs (p - q)).
Proof.
  split; [| split].
  - unfold generateProvablePrimes.
    destruct (negb (N =? 2048) && negb (N =? 3072)); [discriminate |].
    destruct ((e <=? 2 ^ 16) || (2 ^ 256 <=? e) || (e mod 2 =? 0));
      [discriminate |].
    destruct (negb (Py.bit_length seed =? 2 * getIFCSecurityLevel env N));
      [discriminate |].
    destruct (ifcProvablePrime env (N / 2) 1 1 seed e)
      as [[[[p0 p1'] p2'] pSeed'] |]; [| discriminate].
    intros H. apply generateProvablePrimes_step7_distance in H.
    destruct H as [-> H]. exact H.
  - unfold geneareteProvablePrimesWithConditions.
    destruct (negb (N =? 1024) && negb (N =? 2048) && negb (N =? 3072));
      [discriminate |].
    destruct ((e <=? 2 ^ 16) || (2 ^ 256 <=? e)); [discriminate |].
    destruct (negb (Py.bit_length seed =? 2 * getIFCSecurityLevel env N));
      [discriminate |].
    destruct (getIFCAuxiliaryPrimesLegths env N false) as [p1Len p2Len].
    destruct (ifcProvablePrime env (N / 2) e seed p1Len p2Len)
      as [[[[p0 p1'] p2'] pSeed'] |]; [| discriminate].
    intros H. apply geneareteProvablePrimesWithConditions_step7_distance in H.
    destruct H as [-> H]. exact H.
  - unfold generateProbablePrimesWithConditions.
    destruct (negb (N =? 1024) && negb (N =? 2048) && negb (N =? 3072));
      [discriminate |].
    destruct ((e <=? 2 ^ 16) || (2 ^ 256 <=? e)); [discriminate |].
    step_bind wrongLength r1 Hlen.
    destruct wrongLength; [discriminate |].
    destruct (getIFCAuxiliaryPrimesLegths env N probablePrimes) as [p1Len p2Len].
    step_bind branch r2 Hbranch.
    destruct branch as [[[p0 q0] |] s0]; [| discriminate].
    intros H. injection H as -> -> _ _.
    destruct probablePrimes; cbn [negb] in Hbranch.
    + unfold directRandom in Hbranch. revert Hbranch.
      step_bind Xp1' r3 H1. step_bind Xp2' r4 H2.
      step_bind Xp1'' r5 H3. step_bind Xp2'' r6 H4.
      step_bind res r7 Hres.
      destruct res as [[p0 Xp0] |]; [| discriminate].
      intros H. apply directRandom_step5_distance in H.
      destruct H as [-> H]. exact H.
    + destruct seed' as [seed0 |]; [| discriminate].
      unfold seedDriven in Hbranch. revert Hbranch.
      destruct (negb (st_status (shaweTaylor env p1Len seed0))); [discriminate |].
      destruct (negb (st_status (shaweTaylor env p2Len _))); [discriminate |].
      step_bind res r3 Hres.
      destruct res as [[p0 Xp0] |]; [| discriminate].
      intros H. apply seedDriven_step6_distance in H.
      destruct H as [-> H]. exact H.
Qed.

Lemma pairs_are_distant_witness :
  generateProvablePrimes (Reference.collaborators Sample.answers) 1 65537 2048
    Sample.seed224
  = Returns (Some (Sample.pair_p, Sample.pair_q), Sample.provable_exit)
  /\ 2 ^ (2048 / 2 - 100) < Z.abs (Sample.pair_p - Sample.pair_q).
Proof.
  assert (H1 : generateProvablePrimes (Reference.collaborators Sample.answers) 1
                 65537 2048 Sample.seed224
               = Returns (Some (Sample.pair_p, Sample.pair_q), Sample.provable_exit))
    by (vm_compute; reflexivity).
  split; [exact H1 |].
  exact (proj1 (pairs_are_distant (Reference.collaborators Sample.answers) 1 65537
                  2048 Sample.seed224 None true (Sample.source []) (Sample.source [])
                  Sample.pair_p Sample.pair_q Sample.provable_exit) H1).
Defined.

(** ** The signature primitives *)

Lemma sign_none_iff (d n m : Z) :
  sign d n m = Returns None <-> m < 0 \/ m > n - 1.
Proof.
  unfold sign.
  destruct (Z.ltb_spec m 0) as [H1 | H1]; cbn [orb].
  - split; [lia | reflexivity].
  - destruct (Z.ltb_spec (n - 1) m) as [H2 | H2].
    + split; [lia | reflexivity].
    + destruct (Py.pow3 m d n); cbn [obind]; split; (discriminate || lia).
Qed.

Lemma verify_none_iff (e n s : Z) :
  verify e n s = Returns None <-> s < 0 \/ s > n - 1.
Proof.
  unfold verify.
  destruct (Z.ltb_spec s 0) as [H1 | H1]; cbn [orb].
  - split; [lia | reflexivity].
  - destruct (Z.ltb_spec (n - 1) s) as [H2 | H2].
    + split; [lia | reflexivity].
    + destruct (Py.pow3 s e n); cbn [obind]; split; (discriminate || lia).
Qed.

(** X6. For distinct primes [p], [q], [n = p * q], positive exponents with
    [e * d = 1] modulo [lcm(p - 1, q - 1)], and every [m] with
    [0 <= m <= n - 1], [sign(d, n, m)] returns a signature [s] from which
    [verify(e, n, s)] recovers [m]; and [sign] and [verify] return [None]
    exactly when their last argument is outside [0, n - 1]. *)
Theorem signature_round_trip :
  (forall p q e d m : Z,
      Z.prime p -> Z.prime q -> p <> q -> 0 < e -> 0 < d ->
      (e * d) mod Z.lcm (p - 1) (q - 1) = 1 mod Z.lcm (p - 1) (q - 1) ->
      0 <= m <= p * q - 1 ->
      exists s : Z,
        sign d (p * q) m = Returns (Some s)
        /\ verify e (p * q) s = Returns (Some m))
  /\ (forall d n m : Z, sign d n m = Returns None <-> m < 0 \/ m > n - 1)
  /\ (forall e n s : Z, verify e n s = Returns None <-> s < 0 \/ s > n - 1).
Proof.
  split; [| split; [exact sign_none_iff | exact verify_none_iff]].
  intros p q e d m Hp Hq Hne He Hd Hed Hm.
  pose proof (Z.prime_ge_2 p Hp). pose proof (Z.prime_ge_2 q Hq).
  assert (Hn : 0 < p * q) by nia.
  exists (m ^ d mod (p * q)).
  pose proof (Z.mod_pos_bound (m ^ d) (p * q) Hn) as Hs.
  unfold sign, verify.
  destruct (Z.ltb_spec m 0); [lia |].
  destruct (Z.ltb_spec (p * q - 1) m); [lia |].
  destruct (Z.ltb_spec (m ^ d mod (p * q)) 0); [lia |].
  destruct (Z.ltb_spec (p * q - 1) (m ^ d mod (p * q))); [lia |].
  cbn [orb].
  rewrite !pow3_nonneg_exponent by lia. cbn [obind].
  split; [reflexivity |].
  rewrite Z.mod_pow_l, <- Z.pow_mul_r by lia.
  rewrite (Z.mul_comm d e).
  rewrite (rsa_identity p q e d m Hp Hq Hne He Hd Hed).
  rewrite Z.mod_small by lia. reflexivity.
Qed.

(** X6, on the key [p = 3], [q = 11], [e = 3], [d = 7] and the message 8. *)
Lemma signature_round_trip_witness :
  Z.prime 3 /\ Z.prime 11 /\ 3 <> 11 /\ 0 < 3 /\ 0 < 7
  /\ (3 * 7) mod Z.lcm (3 - 1) (11 - 1) = 1 mod Z.lcm (3 - 1) (11 - 1)
  /\ 0 <= 8 <= 3 * 11 - 1
  /\ exists s : Z,
       sign 7 (3 * 11) 8 = Returns (Some s)
       /\ verify 3 (3 * 11) s = Returns (Some 8).
Proof.
  assert (H3 : Z.prime 3) by exact Z.prime_3.
  assert (H11 : Z.prime 11) by exact prime_11.
  assert (Hne : 3 <> 11) by discriminate.
  assert (He : 0 < 3) by reflexivity.
  assert (Hd : 0 < 7) by reflexivity.
  assert (Hed : (3 * 7) mod Z.lcm (3 - 1) (11 - 1) = 1 mod Z.lcm (3 - 1) (11 - 1))
    by reflexivity.
  assert (Hm : 0 <= 8 <= 3 * 11 - 1) by (split; discriminate).
  repeat (split; [assumption |]).
  exact (proj1 signature_round_trip 3 11 3 7 8 H3 H11 Hne He Hd Hed Hm).
Defined.

(** ** The range of the primitives *)

Lemma pow3_range (b e m c : Z) :
  0 < m -> Py.pow3 b e m = Returns c -> 0 <= c < m.
Proof.
  intros Hm. unfold Py.pow3.
  destruct (Z.eqb_spec m 0) as [Hz | _]; [lia |].
  destruct (Z.leb_spec 0 e) as [He | He].
  - intros Hc. injection Hc as <-. rewrite powmod_spec by exact He.
    apply Z.mod_pos_bound. exact Hm.
  - destruct (Z.gcd b m =? 1); [| discriminate].
    intros Hc. injection Hc as <-. rewrite powmod_spec by lia.
    apply Z.mod_pos_bound. exact Hm.
Qed.

(** What a primitive computes when it does not return [None]. *)
Lemma primitive_returns (x k n y : Z) :
  (if (x <? 0) || (n - 1 <? x) then Returns None
   else z <~ Py.pow3 x k n ;; Returns (Some z)) = Returns (Some y) ->
  0 <= x <= n - 1 /\ Py.pow3 x k n = Returns y.
Proof.
  destruct (Z.ltb_spec x 0) as [| Hlo]; cbn [orb]; [discriminate |].
  destruct (Z.ltb_spec (n - 1) x) as [| Hhi]; [discriminate |].
  destruct (Py.pow3 x k n) as [z | |]; cbn [obind]; try discriminate.
  intros Hy. injection Hy as <-. split; [lia | reflexivity].
Qed.

(** X7. A number that [encrypt], [decrypt], [sign] or [verify] returns
    lies in [0, n - 1]: it is an admissible argument of each of the four
    with the same modulus.  With a modulus [n <= 0] all four return
    [None] whatever the argument. *)
Theorem primitives_stay_in_range (k n x y : Z) :
  (encrypt k n x = Returns (Some y) -> 0 <= y <= n - 1)
  /\ (decrypt k n x = Returns (Some y) -> 0 <= y <= n - 1)
  /\ (sign k n x = Returns (Some y) -> 0 <= y <= n - 1)
  /\ (verify k n x = Returns (Some y) -> 0 <= y <= n - 1)
  /\ (n <= 0 ->
      encrypt k n x = Returns None /\ decrypt k n x = Returns None
      /\ sign k n x = Returns None /\ verify k n x = Returns None).
Proof.
  assert (Hrange :
    (if (x <? 0) || (n - 1 <? x) then Returns None
     else z <~ Py.pow3 x k n ;; Returns (Some z)) = Returns (Some y) ->
    0 <= y <= n - 1).
  { intros H. apply primitive_returns in H. destruct H as [Hx Hpow].
    apply pow3_range in Hpow; lia. }
  split; [exact Hrange |]. split; [exact Hrange |].
  split; [exact Hrange |]. split; [exact Hrange |].
  intros Hn.
  split; [apply encrypt_none_iff; lia |].
  split; [apply decrypt_none_iff; lia |].
  split; [apply sign_none_iff; lia | apply verify_none_iff; lia].
Qed.

(** X7, on [encrypt(3, 33, 5)], which is 26. *)
Lemma primitives_stay_in_range_witness :
  encrypt 3 33 5 = Returns (Some 26) /\ 0 <= 26 <= 33 - 1.
Proof.
  assert (H : encrypt 3 33 5 = Returns (Some 26)) by reflexivity.
  split; [exact H |].
  exact (proj1 (primitives_stay_in_range 3 33 5 26) H).
Defined.

(** X8. [encrypt] is multiplicative: for an exponent [e >= 0], the
    encryption of [m1 * m2 % n] is the product modulo [n] of the
    encryptions of [m1] and [m2]. *)
Theorem encrypt_multiplicative (e n m1 m2 c1 c2 : Z) :
  0 <= e ->
  encrypt e n m1 = Returns (Some c1) ->
  encrypt e n m2 = Returns (Some c2) ->
  encrypt e n (m1 * m2 mod n) = Returns (Some (c1 * c2 mod n)).
Proof.
  intros He H1 H2.
  apply primitive_returns in H1. destruct H1 as [Hm1 P1].
  apply primitive_returns in H2. destruct H2 as [Hm2 P2].
  assert (Hn : 0 < n) by lia.
  rewrite pow3_nonneg_exponent in P1, P2 by lia.
  injection P1 as <-. injection P2 as <-.
  pose proof (Z.mod_pos_bound (m1 * m2) n Hn) as Hb.
  unfold encrypt.
  destruct (Z.ltb_spec (m1 * m2 mod n) 0); [lia |].
  destruct (Z.ltb_spec (n - 1) (m1 * m2 mod n)); [lia |].
  cbn [orb]. rewrite pow3_nonneg_exponent by lia. cbn [obind].
  rewrite Z.mod_pow_l, Z.pow_mul_l, <- Z.mul_mod by lia. reflexivity.
Qed.

(** X8, on [n = 33], [e = 3]: 5 and 8 encrypt to 26 and 17, and
    [5 * 8 % 33 = 7] encrypts to [26 * 17 % 33 = 13]. *)
Lemma encrypt_multiplicative_witness :
  0 <= 3 /\ encrypt 3 33 5 = Returns (Some 26)
  /\ encrypt 3 33 8 = Returns (Some 17)
  /\ encrypt 3 33 (5 * 8 mod 33) = Returns (Some (26 * 17 mod 33)).
Proof.
  assert (He : 0 <= 3) by discriminate.
  assert (H1 : encrypt 3 33 5 = Returns (Some 26)) by reflexivity.
  assert (H2 : encrypt 3 33 8 = Returns (Some 17)) by reflexivity.
  repeat (split; [assumption |]).
  exact (encrypt_multiplicative 3 33 5 8 26 17 He H1 H2).
Defined.

(** ** The length of the modulus *)

(** The square of the lower bound of [generateProbablePrimes] is at least
    [2 ** (2 * L - 1)]: 665857 / 470832 exceeds the square root of 2 by
    enough to absorb the rounding of [//]. *)
Lemma coeff1_square (L : Z) :
  41 <= L ->
  2 ^ (2 * L - 1)
  <= (665857 * 2 ^ (L - 1) / 470832) * (665857 * 2 ^ (L - 1) / 470832).
Proof.
  intros HL.
  set (T := 2 ^ (L - 1)).
  assert (HT : 2 ^ 40 <= T) by (apply Z.pow_le_mono_r; lia).
  assert (E : 2 ^ (2 * L - 1) = 2 * (T * T)).
  { unfold T. rewrite <- Z.pow_add_r, <- (Z.pow_succ_r 2) by lia.
    f_equal. lia. }
  rewrite E. clear E.
  pose proof (Z.div_mod (665857 * T) 470832 ltac:(lia)) as Hdm.
  pose proof (Z.mod_pos_bound (665857 * T) 470832 ltac:(lia)) as Hrem.
  set (c := 665857 * T / 470832) in *.
  change (2 ^ 40) with 1099511627776 in HT.
  assert (Hlow : 665857 * T - 470831 <= 470832 * c) by lia.
  assert (Hpos : 0 <= 665857 * T - 470831) by lia.
  assert (Hsq : (665857 * T - 470831) * (665857 * T - 470831)
                <= (470832 * c) * (470832 * c))
    by (apply Z.mul_le_mono_nonneg; lia).
  assert (Hgap : 2 * (470832 * 470832) * (T * T)
                 <= (665857 * T - 470831) * (665857 * T - 470831)).
  { assert (0 <= T * (T - 627012314334)) by (apply Z.mul_nonneg_nonneg; lia).
    lia. }
  nia.
Qed.

(** X9. The modulus of a pair that [generateProbablePrimes(e, N)] returns
    has exactly [N] bits. *)
Theorem generateProbablePrimes_modulus
    (env : Collaborators) (fuel : nat) (e N : Z) (r r' : Rng) (p q : Z) :
  generateProbablePrimes env fuel e N r = Returns (Some (p, q), r') ->
  Py.bit_length (p * q) = N.
Proof.
  unfold generateProbablePrimes.
  destruct (negb (N =? 2048) && negb (N =? 3072)) eqn:HN; [discriminate |].
  destruct ((e <=? 2 ^ 16) || (2 ^ 256 <=? e) || (e mod 2 =? 0));
    [discriminate |].
  assert (HL : 41 <= N / 2 /\ 2 * (N / 2) = N).
  { destruct (Z.eqb_spec N 2048) as [-> | _]; [split; reflexivity || discriminate |].
    destruct (Z.eqb_spec N 3072) as [-> | _]; [split; reflexivity || discriminate |].
    discriminate HN. }
  destruct HL as [HL Heven].
  step_bind p0 r1 Hp. destruct p0 as [p0 |]; [| discriminate].
  step_bind q0 r2 Hq. destruct q0 as [q0 |]; [| discriminate].
  intros H. injection H as <- <- _.
  apply step4_returns in Hp; [| lia]. apply step5_returns in Hq; [| lia].
  destruct Hp as (Hp & _). destruct Hq as (Hq & _).
  pose proof (coeff1_square (N / 2) HL) as Hc.
  set (c := 665857 * 2 ^ (N / 2 - 1) / 470832) in *.
  assert (Hcpos : 0 < c).
  { pose proof (coeff1_above_half (N / 2) ltac:(lia)) as Hh. fold c in Hh.
    pose proof (Z.pow_pos_nonneg 2 (N / 2 - 1) ltac:(lia) ltac:(lia)). lia. }
  assert (Hlow : c * c <= p0 * q0) by (apply Z.mul_le_mono_nonneg; lia).
  assert (Hhigh : p0 * q0 < 2 ^ (N / 2) * 2 ^ (N / 2))
    by (apply Z.mul_lt_mono_nonneg; lia).
  rewrite <- Z.pow_add_r in Hhigh by lia.
  replace (N / 2 + N / 2) with N in Hhigh by lia.
  replace (2 * (N / 2) - 1) with (N - 1) in Hc by lia.
  apply bit_length_unique; lia.
Qed.

(** X9, on the sample pair for [N = 2048]. *)
Lemma generateProbablePrimes_modulus_witness :
  generateProbablePrimes (Reference.collaborators []) 1 65537 2048
    (Sample.source [Sample.pair_draw_p; Sample.pair_draw_q])
  = Returns (Some (Sample.pair_p, Sample.pair_q),
             mkRng (fun i => nth i [Sample.pair_draw_p; Sample.pair_draw_q] 0) 2)
  /\ Py.bit_length (Sample.pair_p * Sample.pair_q) = 2048.
Proof.
  assert (Hrun :
    generateProbablePrimes (Reference.collaborators []) 1 65537 2048
      (Sample.source [Sample.pair_draw_p; Sample.pair_draw_q])
    = Returns (Some (Sample.pair_p, Sample.pair_q),
               mkRng (fun i => nth i [Sample.pair_draw_p; Sample.pair_draw_q] 0) 2))
    by (vm_compute; reflexivity).
  split; [exact Hrun |].
  exact (generateProbablePrimes_modulus _ _ _ _ _ _ _ _ Hrun).
Defined.

(** ** What a returned pair says about the parameters *)

Lemma approved_two (N : Z) :
  negb (N =? 2048) && negb (N =? 3072) = false -> N = 2048 \/ N = 3072.
Proof.
  destruct (Z.eqb_spec N 2048); [auto |].
  destruct (Z.eqb_spec N 3072); [auto | discriminate].
Qed.

Lemma approved_three (N : Z) :
  negb (N =? 1024) && negb (N =? 2048) && negb (N =? 3072) = false ->
  N = 1024 \/ N = 2048 \/ N = 3072.
Proof.
  destruct (Z.eqb_spec N 1024); [auto |].
  destruct (Z.eqb_spec N 2048); [auto |].
  destruct (Z.eqb_spec N 3072); [auto | discriminate].
Qed.

Lemma exponent_in_range (e : Z) :
  (e <=? 2 ^ 16) || (2 ^ 256 <=? e) = false -> 2 ^ 16 < e < 2 ^ 256.
Proof.
  destruct (Z.leb_spec e (2 ^ 16)); [discriminate |].
  destruct (Z.leb_spec (2 ^ 256) e); [discriminate |]. lia.
Qed.

Lemma exponent_odd_in_range (e : Z) :
  (e <=? 2 ^ 16) || (2 ^ 256 <=? e) || (e mod 2 =? 0) = false ->
  2 ^ 16 < e < 2 ^ 256 /\ e mod 2 = 1.
Proof.
  destruct (Z.leb_spec e (2 ^ 16)); [discriminate |].
  destruct (Z.leb_spec (2 ^ 256) e); [discriminate |].
  destruct (Z.eqb_spec (e mod 2) 0); [discriminate |].
  pose proof (Z.mod_pos_bound e 2 ltac:(lia)). lia.
Qed.

(** X10. A generator returns a pair only for parameters it validates:
    [N] is 2048 or 3072 (or 1024, for the two routines with conditions),
    [2 ** 16 < e < 2 ** 256], [e] is odd (for the two routines without
    conditions), and the seed, where one is read, has
    [2 * getIFCSecurityLevel(N)] bits. *)
Theorem pair_only_for_valid_parameters
    (env : Collaborators) (fuel : nat) (e N seed : Z) (seed' : option Z)
    (probablePrimes : bool) (r r' : Rng) (p q : Z) (s : Secrets) :
  (generateProvablePrimes env fuel e N seed = Returns (Some (p, q), s) ->
   (N = 2048 \/ N = 3072) /\ 2 ^ 16 < e < 2 ^ 256 /\ e mod 2 = 1
   /\ Py.bit_length seed = 2 * getIFCSecurityLevel env N)
  /\ (generateProbablePrimes env fuel e N r = Returns (Some (p, q), r') ->
      (N = 2048 \/ N = 3072) /\ 2 ^ 16 < e < 2 ^ 256 /\ e mod 2 = 1)
  /\ (geneareteProvablePrimesWithConditions env fuel e N seed
      = Returns (Some (p, q), s) ->
      (N = 1024 \/ N = 2048 \/ N = 3072) /\ 2 ^ 16 < e < 2 ^ 256
      /\ Py.bit_length seed = 2 * getIFCSecurityLevel env N)
  /\ (generateProbablePrimesWithConditions env fuel e N seed' probablePrimes r
      = Returns ((Some (p, q), s), r') ->
      (N = 1024 \/ N = 2048 \/ N = 3072) /\ 2 ^ 16 < e < 2 ^ 256
      /\ (probablePrimes = false ->
          exists seed0, seed' = Some seed0
            /\ Py.bit_length seed0 = 2 * getIFCSecurityLevel env N)).
Proof.
  split; [| split; [| split]].
  - unfold generateProvablePrimes.
    destruct (negb (N =? 2048) && negb (N =? 3072)) eqn:HN; [discriminate |].
    destruct ((e <=? 2 ^ 16) || (2 ^ 256 <=? e) || (e mod 2 =? 0)) eqn:He;
      [discriminate |].
    destruct (Z.eqb_spec (Py.bit_length seed) (2 * getIFCSecurityLevel env N))
      as [Hs | _]; [| discriminate].
    intros _. apply approved_two in HN. apply exponent_odd_in_range in He.
    tauto.
  - unfold generateProbablePrimes.
    destruct (negb (N =? 2048) && negb (N =? 3072)) eqn:HN; [discriminate |].
    destruct ((e <=? 2 ^ 16) || (2 ^ 256 <=? e) || (e mod 2 =? 0)) eqn:He;
      [discriminate |].
    intros _. apply approved_two in HN. apply exponent_odd_in_range in He.
    tauto.
  - unfold geneareteProvablePrimesWithConditions.
    destruct (negb (N =? 1024) && negb (N =? 2048) && negb (N =? 3072)) eqn:HN;
      [discriminate |].
    destruct ((e <=? 2 ^ 16) || (2 ^ 256 <=? e)) eqn:He; [discriminate |].
    destruct (Z.eqb_spec (Py.bit_length seed) (2 * getIFCSecurityLevel env N))
      as [Hs | _]; [| discriminate].
    intros _. apply approved_three in HN. apply exponent_in_range in He.
    tauto.
  - unfold generateProbablePrimesWithConditions.
    destruct (negb (N =? 1024) && negb (N =? 2048) && negb (N =? 3072)) eqn:HN;
      [discriminate |].
    destruct ((e <=? 2 ^ 16) || (2 ^ 256 <=? e)) eqn:He; [discriminate |].
    step_bind wrongLength r1 Hlen.
    destruct wrongLength; [discriminate |].
    intros _. apply approved_three in HN. apply exponent_in_range in He.
    split; [exact HN | split; [exact He |]].
    intros ->. cbn [negb] in Hlen.
    destruct seed' as [seed0 |]; [| discriminate].
    exists seed0. split; [reflexivity |].
    unfold ret in Hlen.
    destruct (Z.eqb_spec (Py.bit_length seed0) (2 * getIFCSecurityLevel env N))
      as [Hs | _]; [exact Hs | discriminate].
Qed.

(** X10, on the sample run of [generateProvablePrimes(65537, 2048, seed)]. *)
Lemma pair_only_for_valid_parameters_witness :
  generateProvablePrimes (Reference.collaborators Sample.answers) 1 65537 2048
    Sample.seed224
  = Returns (Some (Sample.pair_p, Sample.pair_q), Sample.provable_exit)
  /\ (2048 = 2048 \/ 2048 = 3072) /\ 2 ^ 16 < 65537 < 2 ^ 256 /\ 65537 mod 2 = 1
  /\ Py.bit_length Sample.seed224
     = 2 * getIFCSecurityLevel (Reference.collaborators Sample.answers) 2048.
Proof.
  assert (H1 : generateProvablePrimes (Reference.collaborators Sample.answers) 1
                 65537 2048 Sample.seed224
               = Returns (Some (Sample.pair_p, Sample.pair_q), Sample.provable_exit))
    by (vm_compute; reflexivity).
  split; [exact H1 |].
  exact (proj1 (pair_only_for_valid_parameters
                  (Reference.collaborators Sample.answers) 1 65537 2048
                  Sample.seed224 None true (Sample.source []) (Sample.source [])
                  Sample.pair_p Sample.pair_q Sample.provable_exit) H1).
Defined.

(** ** The primes of the routine with conditions *)

Section ConditionedFacts.

Context (env : Collaborators).

(** What the construction of C.9 guarantees of the prime it returns. *)
Lemma combiner_returns
    (fuel : nat) (p1 p2 N e : Z) (r r' : Rng) (Y X : Z) :
  generateProbablePrimeWithAuxiliaryPrimes env fuel p1 p2 N e r
  = Returns (Some (Y, X), r') ->
  Z.gcd (Y - 1) e = 1
  /\ millerRabin env Y (fst (millerRabinTestsForIFC env N)) = true
  /\ Y < 2 ^ (N / 2)
  /\ (0 < p1 -> 0 < p2 -> Py.bit_length Y = N / 2).
Proof.
  unfold generateProbablePrimeWithAuxiliaryPrimes.
  destruct (negb (Base.gcd (2 * p1) p2 =? 1)); [discriminate |].
  unfold bind at 1. unfold lift at 1.
  destruct (Py.pow3 p2 (-1) (2 * p1)) as [a | |]; cbn [obind]; try discriminate.
  unfold bind at 1. unfold lift at 1.
  destruct (Py.pow3 (2 * p1) (-1) p2) as [b | |]; cbn [obind]; try discriminate.
  destruct (negb _); [discriminate |].
  intros H. apply auxiliaryPrimes_step3_returns in H.
  destruct H as (HL & HX & HY & Hg & Hmr & k & Hk & Hy).
  change (665857 / 470832) with 1 in HX. rewrite Z.mul_1_l in HX.
  repeat split; try assumption.
  intros Hp1 Hp2.
  assert (HMpos : 0 < 2 * p1 * p2) by (apply Z.mul_pos_pos; lia).
  pose proof (Z.mod_pos_bound (a * p2 - b * 2 * p1 - X) (2 * p1 * p2) HMpos).
  assert (0 <= k * (2 * p1 * p2)) by (apply Z.mul_nonneg_nonneg; lia).
  apply bit_length_unique; [exact HL | lia].
Qed.

(** [randbits(len) | 2 ** (len - 1) | 1] is positive, and the search for
    the next probable prime only moves upwards. *)
Lemma drawAuxiliary_positive (len : Z) (r r' : Rng) (X : Z) :
  drawAuxiliary len r = Returns (X, r') -> 0 < X.
Proof.
  unfold drawAuxiliary, bind.
  destruct (Py.randbits len r) as [[v r0] | |] eqn:Hv; try discriminate.
  apply randbits_returns in Hv. destruct Hv as (Hlen & Hv & _).
  destruct (len - 1 <? 0); [discriminate |].
  intros H. injection H as <- _.
  assert (0 <= Z.lor v (2 ^ (len - 1))) by (apply Z.lor_nonneg; lia).
  pose proof (lor_lower (Z.lor v (2 ^ (len - 1))) 1 ltac:(lia)). lia.
Qed.

Lemma nextProbablePrime_upwards (fuel : nat) (t X X' : Z) :
  nextProbablePrime env fuel t X = Returns X' -> X <= X'.
Proof.
  revert X.
  induction fuel as [| fuel IH]; intros X; cbn [nextProbablePrime];
    [discriminate |].
  destruct (negb (millerRabin env X t)).
  - intros H. apply IH in H. lia.
  - intros H. injection H as <-. lia.
Qed.

Lemma auxiliary_prime_positive
    (fuel : nat) (len t : Z) (r r1 r2 : Rng) (X0 X : Z) :
  drawAuxiliary len r = Returns (X0, r1) ->
  lift (nextProbablePrime env fuel t X0) r2 = Returns (X, r2) -> 0 < X.
Proof.
  intros Hd Hn. apply drawAuxiliary_positive in Hd.
  unfold lift in Hn.
  destruct (nextProbablePrime env fuel t X0) as [X1 | |] eqn:Hs;
    cbn [obind] in Hn; try discriminate.
  apply nextProbablePrime_upwards in Hs. injection Hn as <-. lia.
Qed.

Lemma lift_keeps_source {A : Type} (c : outcome A) (r r' : Rng) (a : A) :
  lift c r = Returns (a, r') -> r' = r.
Proof.
  unfold lift. destruct c; cbn [obind]; try discriminate.
  intros H. injection H as _ <-. reflexivity.
Qed.

Lemma seedDriven_step6_tested
    (budget fuel : nat) (e N q1Len q2Len p Xp primeSeed : Z) (s s' : Secrets)
    (r r' : Rng) (p' q : Z) :
  seedDriven_step6 env budget fuel e N q1Len q2Len p Xp primeSeed s r
  = Returns ((Some (p', q), s'), r') ->
  p' = p /\ Z.gcd (q - 1) e = 1
  /\ millerRabin env q (fst (millerRabinTestsForIFC env N)) = true
  /\ q < 2 ^ (N / 2).
Proof.
  revert primeSeed s r.
  induction fuel as [| fuel IH]; intros primeSeed s r;
    cbn [seedDriven_step6]; [discriminate |].
  destruct (negb (st_status (shaweTaylor env q1Len primeSeed))); [discriminate |].
  destruct (negb (st_status (shaweTaylor env q2Len _))); [discriminate |].
  step_bind res r1 Hres.
  destruct res as [[q0 Xq0] |]; [| discriminate].
  destruct ((2 ^ (N / 2 - 100) <? Z.abs (p - q0))
            && (2 ^ (N / 2 - 100) <? Z.abs (Xp - Xq0))); [| apply IH].
  intros H. injection H as <- <- _ _.
  apply combiner_returns in Hres. tauto.
Qed.

Lemma directRandom_step5_tested
    (budget fuel : nat) (e N t q1Len q2Len p Xp : Z) (s s' : Secrets)
    (r r' : Rng) (p' q : Z) :
  directRandom_step5 env budget fuel e N t q1Len q2Len p Xp s r
  = Returns ((Some (p', q), s'), r') ->
  p' = p /\ Z.gcd (q - 1) e = 1
  /\ millerRabin env q (fst (millerRabinTestsForIFC env N)) = true
  /\ q < 2 ^ (N / 2) /\ Py.bit_length q = N / 2.
Proof.
  revert s r.
  induction fuel as [| fuel IH]; intros s r;
    cbn [directRandom_step5]; [discriminate |].
  step_bind Xq1' r1 H1. step_bind Xq2' r2 H2.
  step_bind Xq1'' r3 H3. step_bind Xq2'' r4 H4.
  step_bind res r5 Hres.
  destruct res as [[q0 Xq0] |]; [| discriminate].
  destruct ((2 ^ (N / 2 - 100) <? Z.abs (p - q0))
            && (2 ^ (N / 2 - 100) <? Z.abs (Xp - Xq0))); [| apply IH].
  intros H. injection H as <- <- _ _.
  pose proof (lift_keeps_source _ _ _ _ H3) as ->.
  pose proof (lift_keeps_source _ _ _ _ H4) as ->.
  pose proof (auxiliary_prime_positive _ _ _ _ _ _ _ _ H1 H3) as Hq1.
  pose proof (auxiliary_prime_positive _ _ _ _ _ _ _ _ H2 H4) as Hq2.
  apply combiner_returns in Hres.
  destruct Hres as (Hg & Hmr & Hlt & Hbits).
  repeat split; try assumption. exact (Hbits Hq1 Hq2).
Qed.

End ConditionedFacts.

(** X11. Both primes of a pair that
    [generateProbablePrimesWithConditions] returns, in either mode, passed
    the Miller-Rabin test with [millerRabinTestsForIFC(N)[0]] rounds, have
    [gcd(p - 1, e) = 1] and [gcd(q - 1, e) = 1], and are below
    [2 ** (N // 2)]; with [probablePrimes = True] both have exactly
    [N // 2] bits. *)
Theorem conditioned_pair_is_tested
    (env : Collaborators) (fuel : nat) (e N : Z) (seed : option Z)
    (probablePrimes : bool) (r r' : Rng) (p q : Z) (s : Secrets) :
  generateProbablePrimesWithConditions env fuel e N seed probablePrimes r
  = Returns ((Some (p, q), s), r') ->
  let testsCount := fst (millerRabinTestsForIFC env N) in
  millerRabin env p testsCount = true /\ millerRabin env q testsCount = true
  /\ Z.gcd (p - 1) e = 1 /\ Z.gcd (q - 1) e = 1
  /\ p < 2 ^ (N / 2) /\ q < 2 ^ (N / 2)
  /\ (probablePrimes = true ->
      Py.bit_length p = N / 2 /\ Py.bit_length q = N / 2).
Proof.
  unfold generateProbablePrimesWithConditions.
  destruct (negb (N =? 1024) && negb (N =? 2048) && negb (N =? 3072));
    [discriminate |].
  destruct ((e <=? 2 ^ 16) || (2 ^ 256 <=? e)); [discriminate |].
  step_bind wrongLength r1 Hlen.
  destruct wrongLength; [discriminate |].
  destruct (getIFCAuxiliaryPrimesLegths env N probablePrimes) as [p1Len p2Len].
  step_bind branch r2 Hbranch.
  destruct branch as [[[p0 q0] |] s0]; [| discriminate].
  intros H. injection H as -> -> _ _. cbv zeta.
  destruct probablePrimes; cbn [negb] in Hbranch.
  - unfold directRandom in Hbranch. revert Hbranch.
    step_bind Xp1' r3 H1. step_bind Xp2' r4 H2.
    step_bind Xp1'' r5 H3. step_bind Xp2'' r6 H4.
    step_bind res r7 Hres.
    destruct res as [[p0 Xp0] |]; [| discriminate].
    intros H. apply directRandom_step5_tested in H.
    destruct H as (-> & Hgq & Hmq & Hltq & Hbq).
    pose proof (lift_keeps_source _ _ _ _ H3) as ->.
    pose proof (lift_keeps_source _ _ _ _ H4) as ->.
    pose proof (auxiliary_prime_positive _ _ _ _ _ _ _ _ _ H1 H3) as Hp1.
    pose proof (auxiliary_prime_positive _ _ _ _ _ _ _ _ _ H2 H4) as Hp2.
    apply combiner_returns in Hres.
    destruct Hres as (Hg & Hmr & Hlt & Hbits).
    repeat split; try assumption. exact (Hbits Hp1 Hp2).
  - destruct seed as [seed0 |]; [| discriminate].
    unfold seedDriven in Hbranch. revert Hbranch.
    destruct (negb (st_status (shaweTaylor env p1Len seed0))); [discriminate |].
    destruct (negb (st_status (shaweTaylor env p2Len _))); [discriminate |].
    step_bind res r3 Hres.
    destruct res as [[p0 Xp0] |]; [| discriminate].
    intros H. apply seedDriven_step6_tested in H.
    destruct H as (-> & Hgq & Hmq & Hltq).
    apply combiner_returns in Hres.
    destruct Hres as (Hg & Hmr & Hlt & _).
    repeat split; try assumption; discriminate.
Qed.

(** X11, on the sample run with [N = 1024] and [probablePrimes = True]. *)
Lemma conditioned_pair_is_tested_witness :
  generateProbablePrimesWithConditions (Reference.collaborators []) 1 65537 1024
    None true (Sample.source Sample.direct_draws)
  = Returns ((Some (Sample.direct_p, Sample.direct_q), Sample.direct_exit),
             mkRng (fun i => nth i Sample.direct_draws 0) 6)
  /\ Z.gcd (Sample.direct_p - 1) 65537 = 1
  /\ Py.bit_length Sample.direct_q = 1024 / 2.
Proof.
  assert (Hrun :
    generateProbablePrimesWithConditions (Reference.collaborators []) 1 65537 1024
      None true (Sample.source Sample.direct_draws)
    = Returns ((Some (Sample.direct_p, Sample.direct_q), Sample.direct_exit),
               mkRng (fun i => nth i Sample.direct_draws 0) 6))
    by (vm_compute; reflexivity).
  destruct (conditioned_pair_is_tested _ _ _ _ _ _ _ _ _ _ _ Hrun)
    as (_ & _ & Hg & _ & _ & _ & Hbits).
  split; [exact Hrun | split; [exact Hg | exact (proj2 (Hbits eq_refl))]].
Defined.

(** ** The assertions of the auxiliary-prime construction *)

Section Assertions.

Context (env : Collaborators).

Lemma auxiliaryPrimes_step5_no_exception
    (fuel : nat) (p1 p2 N e t Y i : Z) (x : exn) :
  auxiliaryPrimes_step5 env fuel p1 p2 N e t Y i <> Raises x.
Proof.
  revert Y i.
  induction fuel as [| fuel IH]; intros Y i; cbn [auxiliaryPrimes_step5];
    [discriminate |].
  destruct (2 ^ (N / 2) <=? Y); [discriminate |].
  destruct (if Base.gcd (Y - 1) e =? 1 then millerRabin env Y t else false);
    [discriminate |].
  destruct (5 * (N / 2) <=? i + 1); [discriminate | apply IH].
Qed.

(** A draw [randbits(N // 2) | 2 ** (N // 2 - 1)] lies between the two
    borders as the code computes them. *)
Lemma drawX_in_borders (N : Z) (r r' : Rng) (X : Z) :
  auxiliaryPrimes_drawX N r = Returns (X, r') ->
  665857 / 470832 * 2 ^ (N / 2 - 1) <= X <= 2 ^ (N / 2) - 1.
Proof.
  unfold auxiliaryPrimes_drawX, bind.
  destruct (Py.randbits (N / 2) r) as [[v r0] | |] eqn:Hv; try discriminate.
  apply randbits_returns in Hv. destruct Hv as (HL & Hv & _).
  destruct (Z.ltb_spec (N / 2 - 1) 0) as [| HL1]; [discriminate |].
  intros H. injection H as <- _.
  change (665857 / 470832) with 1. rewrite Z.mul_1_l.
  assert (Htop : 0 <= 2 ^ (N / 2 - 1) < 2 ^ (N / 2)).
  { split; [apply Z.pow_nonneg; lia | apply Z.pow_lt_mono_r; lia]. }
  pose proof (lor_below_pow2 v (2 ^ (N / 2 - 1)) (N / 2) Hv Htop).
  pose proof (lor_lower v (2 ^ (N / 2 - 1)) ltac:(lia)). lia.
Qed.

Lemma drawX_no_assertion (N : Z) (r : Rng) :
  auxiliaryPrimes_drawX N r <> Raises AssertionError.
Proof.
  unfold auxiliaryPrimes_drawX, bind, Py.randbits.
  destruct (N / 2 <? 0); [discriminate |].
  destruct (N / 2 - 1 <? 0); discriminate.
Qed.

(** The loop [while X < xLowBorder or X > xHighBorder] is not entered. *)
Lemma resample_keeps (fuel : nat) (N lo hi X : Z) (r : Rng) :
  lo <= X <= hi ->
  auxiliaryPrimes_resample (S fuel) N lo hi X r = Returns (X, r).
Proof.
  intros HX. cbn [auxiliaryPrimes_resample].
  destruct (Z.ltb_spec X lo); [lia |].
  destruct (Z.ltb_spec hi X); [lia |]. reflexivity.
Qed.

Lemma auxiliaryPrimes_step3_no_assertion
    (budget fuel : nat) (p1 p2 N e t R : Z) (r : Rng) :
  auxiliaryPrimes_step3 env budget fuel p1 p2 N e t R
    (665857 / 470832 * 2 ^ (N / 2 - 1)) (2 ^ (N / 2) - 1) r
  <> Raises AssertionError.
Proof.
  revert r.
  induction fuel as [| fuel IH]; intros r; cbn [auxiliaryPrimes_step3];
    [discriminate |].
  unfold bind at 1.
  destruct (auxiliaryPrimes_drawX N r) as [[X r1] | x |] eqn:Hdraw;
    [| | discriminate].
  2: { intros H. injection H as ->. exact (drawX_no_assertion N r Hdraw). }
  pose proof (drawX_in_borders N r r1 X Hdraw) as HX.
  unfold bind at 1.
  destruct budget as [| budget]; [discriminate |].
  rewrite resample_keeps by exact HX.
  destruct (Z.leb_spec X (2 ^ (N / 2) - 1)); [| lia].
  destruct (Z.leb_spec (665857 / 470832 * 2 ^ (N / 2 - 1)) X); [| lia].
  cbn [andb negb]. unfold bind, lift.
  pose proof (auxiliaryPrimes_step5_no_exception (S budget) p1 p2 N e t
                (X + (R - X) mod (2 * p1 * p2)) 0) as H5.
  destruct (auxiliaryPrimes_step5 env (S budget) p1 p2 N e t _ 0)
    as [[Y | |] | x |]; cbn [obind]; try discriminate.
  - apply IH.
  - exfalso. exact (H5 x eq_refl).
Qed.

End Assertions.

(** X12. With a positive [p1], neither assertion of
    [generateProbablePrimeWithAuxiliaryPrimes] fails, whatever [p2], [N],
    [e] and the random source are; and an [X] drawn in step 3 already lies
    between [xLowBorder] and [xHighBorder], so the inner [while] loop
    returns it without drawing again. *)
Theorem auxiliaryPrimes_assertions_hold
    (env : Collaborators) (fuel : nat) (p1 p2 N e : Z) (r : Rng) :
  0 < p1 ->
  generateProbablePrimeWithAuxiliaryPrimes env fuel p1 p2 N e r
  <> Raises AssertionError
  /\ forall (X : Z) (r0 r1 : Rng),
       auxiliaryPrimes_drawX N r0 = Returns (X, r1) ->
       auxiliaryPrimes_resample (S fuel) N (665857 / 470832 * 2 ^ (N / 2 - 1))
                                (2 ^ (N / 2) - 1) X r1
       = Returns (X, r1).
Proof.
  intros Hp1. split.
  - unfold generateProbablePrimeWithAuxiliaryPrimes.
    destruct (Z.eqb_spec (Base.gcd (2 * p1) p2) 1) as [Hg | _];
      cbn [negb]; [| discriminate].
    assert (Hp2 : p2 <> 0).
    { intros ->. unfold Base.gcd in Hg. rewrite Z.gcd_0_r in Hg. lia. }
    assert (Hg' : Z.gcd p2 (2 * p1) = 1) by (rewrite Z.gcd_comm; exact Hg).
    unfold bind at 1. unfold lift at 1.
    rewrite (pow3_inverse p2 (2 * p1)) by (lia || exact Hg'). cbn [obind].
    unfold bind at 1. unfold lift at 1.
    rewrite (pow3_inverse (2 * p1) p2) by (exact Hp2 || exact Hg). cbn [obind].
    destruct (crt_residues p1 p2 Hp1 Hg) as [HR1 HR2]. cbv zeta in HR1, HR2.
    rewrite HR1, HR2, !Z.eqb_refl. cbn [andb negb].
    apply auxiliaryPrimes_step3_no_assertion.
  - intros X r0 r1 Hdraw. apply resample_keeps.
    exact (drawX_in_borders N r0 r1 X Hdraw).
Qed.

(** X12, on the sample auxiliary primes and draw for [N = 1024]. *)
Lemma auxiliaryPrimes_assertions_hold_witness :
  0 < Sample.aux_p1
  /\ generateProbablePrimeWithAuxiliaryPrimes (Reference.collaborators []) 1
       Sample.aux_p1 Sample.aux_p2 1024 65537 (Sample.source [Sample.aux_draw])
     <> Raises AssertionError.
Proof.
  assert (H1 : 0 < Sample.aux_p1) by reflexivity.
  split; [exact H1 |].
  exact (proj1 (auxiliaryPrimes_assertions_hold (Reference.collaborators []) 1
                  Sample.aux_p1 Sample.aux_p2 1024 65537
                  (Sample.source [Sample.aux_draw]) H1)).
Defined.

(** ** Masks of different lengths *)

Lemma MGF_loop_split (hashFunction : HashFunction) (seed : list byte)
    (a b : nat) (counter : Z) (t : list byte) :
  MGF_loop hashFunction seed (a + b) counter t
  = (t' <~ MGF_loop hashFunction seed a counter t ;;
     MGF_loop hashFunction seed b (counter + Z.of_nat a) t').
Proof.
  revert counter t.
  induction a as [| a IH]; intros counter t.
  - cbn [Nat.add MGF_loop obind]. rewrite Z.add_0_r. reflexivity.
  - cbn [Nat.add MGF_loop].
    destruct (BaseBytes.intToBytes counter (Some 4)) as [c | |]; cbn [obind];
      try reflexivity.
    rewrite IH. replace (counter + 1 + Z.of_nat a) with (counter + Z.of_nat (S a))
      by lia. reflexivity.
Qed.

Lemma MGF_loop_extends (hashFunction : HashFunction) (seed : list byte)
    (todo : nat) (counter : Z) (t t' : list byte) :
  MGF_loop hashFunction seed todo counter t = Returns t' ->
  exists ext, t' = t ++ ext.
Proof.
  revert counter t.
  induction todo as [| todo IH]; intros counter t; cbn [MGF_loop].
  - intros H. injection H as <-. exists []. rewrite app_nil_r. reflexivity.
  - destruct (BaseBytes.intToBytes counter (Some 4)) as [c | |]; cbn [obind];
      try discriminate.
    intros H. apply IH in H. destruct H as [ext ->].
    eexists. rewrite <- app_assoc. reflexivity.
Qed.

(** [t[:l]] for [l >= 0]. *)
Lemma slice_prefix (s : list byte) (l : Z) :
  0 <= l -> Bytes.slice s None (Some l) = firstn (Z.to_nat l) s.
Proof.
  intros Hl. unfold Bytes.slice, Bytes.clamp.
  destruct (Z.ltb_spec l 0); [lia |].
  cbn [skipn Z.to_nat]. rewrite Z.sub_0_r.
  destruct (Z.le_ge_cases l (Bytes.len s)) as [Hle | Hge].
  - rewrite Z.min_l by exact Hle. reflexivity.
  - rewrite Z.min_r by exact Hge. unfold Bytes.len in *.
    rewrite Nat2Z.id, !firstn_all2 by lia. reflexivity.
Qed.

(** The number of hash blocks of a mask of [length] bytes. *)
Lemma MGF_blocks (length : Z) :
  0 <= length ->
  let top := if negb (length mod 32 =? 0) then length / 32 + 1 else length / 32 in
  0 <= top /\ length <= 32 * top /\ 32 * top < length + 32.
Proof.
  intros Hlen top.
  pose proof (Z.div_mod length 32 ltac:(lia)) as Hdm.
  pose proof (Z.mod_pos_bound length 32 ltac:(lia)) as Hmod.
  unfold top. destruct (Z.eqb_spec (length mod 32) 0); cbn [negb]; lia.
Qed.

(** X13. The masks of [MGF] with SHA-256 are nested: the mask of [l1]
    bytes is the first [l1] bytes of the mask of [l2] bytes for the same
    seed, whenever [0 <= l1 <= l2]; and for a [length <= 0] the mask is
    empty. *)
Theorem MGF_masks_are_nested (seed : list byte) (l1 l2 : Z) (t2 : list byte) :
  (0 <= l1 <= l2 ->
   MGF seed l2 hashlib_sha256 = Returns (Some t2) ->
   MGF seed l1 hashlib_sha256 = Returns (Some (Bytes.slice t2 None (Some l1))))
  /\ (l1 <= 0 -> MGF seed l1 hashlib_sha256 = Returns (Some [])).
Proof.
  split.
  - intros [H1 H12]. unfold MGF. cbn [digest_size hashlib_sha256].
    destruct (Z.ltb_spec (2 ^ 32 * 32) l2) as [| Hmax]; [discriminate |].
    destruct (Z.ltb_spec (2 ^ 32 * 32) l1) as [Hbig | _]; [lia |].
    change (32 =? 0) with false. cbv iota.
    pose proof (MGF_blocks l1 H1) as B1. pose proof (MGF_blocks l2 ltac:(lia)) as B2.
    cbv zeta in B1, B2.
    set (top1 := if negb (l1 mod 32 =? 0) then l1 / 32 + 1 else l1 / 32) in *.
    set (top2 := if negb (l2 mod 32 =? 0) then l2 / 32 + 1 else l2 / 32) in *.
    assert (Htops : Z.to_nat top2 = (Z.to_nat top1 + Z.to_nat (top2 - top1))%nat)
      by lia.
    rewrite Htops, MGF_loop_split.
    destruct (MGF_loop hashlib_sha256 seed (Z.to_nat top1) 0 []) as [t1 | |] eqn:Hl1;
      cbn [obind]; try discriminate.
    destruct (MGF_loop hashlib_sha256 seed (Z.to_nat (top2 - top1)) _ t1)
      as [t | |] eqn:Hl2; cbn [obind]; try discriminate.
    intros Ht2. injection Ht2 as <-.
    apply MGF_loop_length in Hl1. change (Bytes.len []) with 0 in Hl1.
    apply MGF_loop_extends in Hl2. destruct Hl2 as [ext ->].
    do 2 f_equal.
    rewrite !slice_prefix by lia.
    rewrite firstn_firstn, Nat.min_l by lia.
    rewrite firstn_app. unfold Bytes.len in Hl1.
    replace (Z.to_nat l1 - length t1)%nat with 0%nat by lia.
    cbn [firstn]. rewrite app_nil_r. reflexivity.
  - intros Hneg. unfold MGF. cbn [digest_size hashlib_sha256].
    destruct (Z.ltb_spec (2 ^ 32 * 32) l1) as [Hbig | _]; [lia |].
    change (32 =? 0) with false. cbv iota.
    pose proof (Z.div_mod l1 32 ltac:(lia)) as Hdm.
    pose proof (Z.mod_pos_bound l1 32 ltac:(lia)) as Hmod.
    assert (Htop : (if negb (l1 mod 32 =? 0) then l1 / 32 + 1 else l1 / 32) <= 0).
    { destruct (Z.eqb_spec (l1 mod 32) 0); cbn [negb]; lia. }
    destruct (if negb (l1 mod 32 =? 0) then l1 / 32 + 1 else l1 / 32)
      as [| top | top]; try lia; cbn [Z.to_nat MGF_loop obind];
      unfold Bytes.slice; cbn [Bytes.len length skipn];
      rewrite firstn_nil; reflexivity.
Qed.

(** X13, on a seed of two bytes and the lengths 40 and 95. *)
Lemma MGF_masks_are_nested_witness :
  0 <= 40 <= 95
  /\ exists t1 t2,
       MGF [x00; x01] 95 hashlib_sha256 = Returns (Some t2)
       /\ MGF [x00; x01] 40 hashlib_sha256 = Returns (Some t1)
       /\ t1 = Bytes.slice t2 None (Some 40)
       /\ Bytes.len t1 = 40.
Proof.
  assert (H : 0 <= 40 <= 95) by (split; discriminate).
  split; [exact H |].
  destruct (MGF [x00; x01] 95 hashlib_sha256) as [[t2 |] | |] eqn:H2;
    try (vm_compute in H2; discriminate H2).
  exists (Bytes.slice t2 None (Some 40)), t2.
  pose proof (proj1 (MGF_masks_are_nested [x00; x01] 40 95 t2) H H2) as H1.
  split; [reflexivity | split; [exact H1 | split; [reflexivity |]]].
  exact (MGF_length _ _ _ (proj1 H) H1).
Defined.

(** ** The primes of the provable routines *)

Section Constructions.

Context (env : Collaborators).

Lemma generateProvablePrimes_step7_constructed
    (fuel : nat) (e N L N1 N2 p w : Z) (s s' : Secrets) (p' q : Z) :
  generateProvablePrimes_step7 env fuel e N L N1 N2 p w s
  = Returns (Some (p', q), s') ->
  exists w' q1 q2 qSeed,
    ifcProvablePrime env L N1 N2 w' e = Some (q, q1, q2, qSeed).
Proof.
  revert w s.
  induction fuel as [| fuel IH]; intros w s;
    cbn [generateProvablePrimes_step7]; [discriminate |].
  destruct (ifcProvablePrime env L N1 N2 w e)
    as [[[[q0 q1'] q2'] qSeed'] |] eqn:Hq; [| discriminate].
  destruct (2 ^ (N / 2 - 100) <? Z.abs (p - q0)); [| apply IH].
  intros H. injection H as _ <- _. exists w, q1', q2', qSeed'. exact Hq.
Qed.

Lemma geneareteProvablePrimesWithConditions_step7_constructed
    (fuel : nat) (e N q1Len q2Len p w : Z) (s s' : Secrets) (p' q : Z) :
  geneareteProvablePrimesWithConditions_step7 env fuel e N q1Len q2Len p w s
  = Returns (Some (p', q), s') ->
  exists w' q1 q2 qSeed,
    ifcProvablePrime env (N / 2) e w' q1Len q2Len = Some (q, q1, q2, qSeed).
Proof.
  revert w s.
  induction fuel as [| fuel IH]; intros w s;
    cbn [geneareteProvablePrimesWithConditions_step7]; [discriminate |].
  destruct (ifcProvablePrime env (N / 2) e w q1Len q2Len)
    as [[[[q0 q1'] q2'] qSeed'] |] eqn:Hq; [| discriminate].
  destruct (2 ^ (N / 2 - 100) <? Z.abs (p - q0)); [| apply IH].
  intros H. injection H as _ <- _. exists w, q1', q2', qSeed'. exact Hq.
Qed.

Lemma generateProvablePrimes_step7_failed
    (fuel : nat) (e N L N1 N2 p w : Z) (s s' : Secrets) :
  generateProvablePrimes_step7 env fuel e N L N1 N2 p w s = Returns (None, s') ->
  exists w', ifcProvablePrime env L N1 N2 w' e = None.
Proof.
  revert w s.
  induction fuel as [| fuel IH]; intros w s;
    cbn [generateProvablePrimes_step7]; [discriminate |].
  destruct (ifcProvablePrime env L N1 N2 w e)
    as [[[[q0 q1'] q2'] qSeed'] |] eqn:Hq; [| intros _; exists w; exact Hq].
  destruct (2 ^ (N / 2 - 100) <? Z.abs (p - q0)); [discriminate | apply IH].
Qed.

Lemma geneareteProvablePrimesWithConditions_step7_failed
    (fuel : nat) (e N q1Len q2Len p w : Z) (s s' : Secrets) :
  geneareteProvablePrimesWithConditions_step7 env fuel e N q1Len q2Len p w s
  = Returns (None, s') ->
  exists w', ifcProvablePrime env (N / 2) e w' q1Len q2Len = None.
Proof.
  revert w s.
  induction fuel as [| fuel IH]; intros w s;
    cbn [geneareteProvablePrimesWithConditions_step7]; [discriminate |].
  destruct (ifcProvablePrime env (N / 2) e w q1Len q2Len)
    as [[[[q0 q1'] q2'] qSeed'] |] eqn:Hq; [| intros _; exists w; exact Hq].
  destruct (2 ^ (N / 2 - 100) <? Z.abs (p - q0)); [discriminate | apply IH].
Qed.

End Constructions.

(** X14. Both primes of a pair that [generateProvablePrimes] returns were
    constructed by [primality.ifcProvablePrime(N // 2, 1, 1, seed', e)],
    [p] from the seed of the call; both primes of a pair that
    [geneareteProvablePrimesWithConditions] returns were constructed by
    [primality.ifcProvablePrime(N // 2, e, seed', p1Len, p2Len)] with the
    lengths of [getIFCAuxiliaryPrimesLegths(N)], [p] from the seed of the
    call. *)
Theorem provable_pair_is_constructed
    (env : Collaborators) (fuel : nat) (e N seed : Z) (p q : Z) (s : Secrets) :
  (generateProvablePrimes env fuel e N seed = Returns (Some (p, q), s) ->
   (exists p1 p2 pSeed,
       ifcProvablePrime env (N / 2) 1 1 seed e = Some (p, p1, p2, pSeed))
   /\ (exists seed' q1 q2 qSeed,
          ifcProvablePrime env (N / 2) 1 1 seed' e = Some (q, q1, q2, qSeed)))
  /\ (geneareteProvablePrimesWithConditions env fuel e N seed
      = Returns (Some (p, q), s) ->
      let p1Len := fst (getIFCAuxiliaryPrimesLegths env N false) in
      let p2Len := snd (getIFCAuxiliaryPrimesLegths env N false) in
      (exists p1 p2 pSeed,
          ifcProvablePrime env (N / 2) e seed p1Len p2Len = Some (p, p1, p2, pSeed))
      /\ (exists seed' q1 q2 qSeed,
             ifcProvablePrime env (N / 2) e seed' p1Len p2Len
             = Some (q, q1, q2, qSeed))).
Proof.
  split.
  - unfold generateProvablePrimes.
    destruct (negb (N =? 2048) && negb (N =? 3072)); [discriminate |].
    destruct ((e <=? 2 ^ 16) || (2 ^ 256 <=? e) || (e mod 2 =? 0));
      [discriminate |].
    destruct (negb (Py.bit_length seed =? 2 * getIFCSecurityLevel env N));
      [discriminate |].
    destruct (ifcProvablePrime env (N / 2) 1 1 seed e)
      as [[[[p0 p1'] p2'] pSeed'] |] eqn:Hp; [| discriminate].
    intros H.
    pose proof (generateProvablePrimes_step7_distance _ _ _ _ _ _ _ _ _ _ _ _ _ H)
      as [-> _].
    apply generateProvablePrimes_step7_constructed in H.
    split; [exists p1', p2', pSeed'; reflexivity | exact H].
  - unfold geneareteProvablePrimesWithConditions.
    destruct (negb (N =? 1024) && negb (N =? 2048) && negb (N =? 3072));
      [discriminate |].
    destruct ((e <=? 2 ^ 16) || (2 ^ 256 <=? e)); [discriminate |].
    destruct (negb (Py.bit_length seed =? 2 * getIFCSecurityLevel env N));
      [discriminate |].
    destruct (getIFCAuxiliaryPrimesLegths env N false) as [p1Len p2Len].
    cbn [fst snd].
    destruct (ifcProvablePrime env (N / 2) e seed p1Len p2Len)
      as [[[[p0 p1'] p2'] pSeed'] |] eqn:Hp; [| discriminate].
    intros H.
    pose proof (geneareteProvablePrimesWithConditions_step7_distance
                  _ _ _ _ _ _ _ _ _ _ _ _ H) as [-> _].
    apply geneareteProvablePrimesWithConditions_step7_constructed in H.
    split; [exists p1', p2', pSeed'; reflexivity | exact H].
Qed.

(** X14, on the sample run of [generateProvablePrimes(65537, 2048, seed)]. *)
Lemma provable_pair_is_constructed_witness :
  let env := Reference.collaborators Sample.answers in
  generateProvablePrimes env 1 65537 2048 Sample.seed224
  = Returns (Some (Sample.pair_p, Sample.pair_q), Sample.provable_exit)
  /\ (exists p1 p2 pSeed,
         ifcProvablePrime env (2048 / 2) 1 1 Sample.seed224 65537
         = Some (Sample.pair_p, p1, p2, pSeed))
  /\ (exists seed' q1 q2 qSeed,
         ifcProvablePrime env (2048 / 2) 1 1 seed' 65537
         = Some (Sample.pair_q, q1, q2, qSeed)).
Proof.
  intros env.
  assert (H1 : generateProvablePrimes env 1 65537 2048 Sample.seed224
               = Returns (Some (Sample.pair_p, Sample.pair_q), Sample.provable_exit))
    by (vm_compute; reflexivity).
  split; [exact H1 |].
  exact (proj1 (provable_pair_is_constructed env 1 65537 2048 Sample.seed224
                  Sample.pair_p Sample.pair_q Sample.provable_exit) H1).
Defined.

(** X15. With parameters that pass the validation, [generateProvablePrimes]
    and [geneareteProvablePrimesWithConditions] return [None] only when a
    call of [primality.ifcProvablePrime] has failed: the routines have no
    iteration counter of their own. *)
Theorem provable_failure_is_a_failed_construction
    (env : Collaborators) (fuel : nat) (e N seed : Z) (s : Secrets) :
  2 ^ 16 < e < 2 ^ 256 ->
  Py.bit_length seed = 2 * getIFCSecurityLevel env N ->
  (generateProvablePrimes env fuel e N seed = Returns (None, s) ->
   N = 2048 \/ N = 3072 -> e mod 2 = 1 ->
   exists seed', ifcProvablePrime env (N / 2) 1 1 seed' e = None)
  /\ (geneareteProvablePrimesWithConditions env fuel e N seed = Returns (None, s) ->
      N = 1024 \/ N = 2048 \/ N = 3072 ->
      exists seed',
        ifcProvablePrime env (N / 2) e seed'
          (fst (getIFCAuxiliaryPrimesLegths env N false))
          (snd (getIFCAuxiliaryPrimesLegths env N false)) = None).
Proof.
  intros He Hseed.
  assert (He' : (e <=? 2 ^ 16) || (2 ^ 256 <=? e) = false).
  { destruct (Z.leb_spec e (2 ^ 16)); [lia |].
    destruct (Z.leb_spec (2 ^ 256) e); [lia | reflexivity]. }
  split.
  - intros H HN Hodd. revert H. unfold generateProvablePrimes.
    replace (negb (N =? 2048) && negb (N =? 3072)) with false
      by (destruct HN as [-> | ->]; reflexivity).
    rewrite He', Hodd, Hseed, Z.eqb_refl. cbn [orb negb Z.eqb].
    destruct (ifcProvablePrime env (N / 2) 1 1 seed e)
      as [[[[p0 p1'] p2'] pSeed'] |] eqn:Hp; [| intros _; exists seed; exact Hp].
    apply generateProvablePrimes_step7_failed.
  - intros H HN. revert H. unfold geneareteProvablePrimesWithConditions.
    replace (negb (N =? 1024) && negb (N =? 2048) && negb (N =? 3072)) with false
      by (destruct HN as [-> | [-> | ->]]; reflexivity).
    rewrite He', Hseed, Z.eqb_refl. cbn [negb].
    destruct (getIFCAuxiliaryPrimesLegths env N false) as [p1Len p2Len].
    cbn [fst snd].
    destruct (ifcProvablePrime env (N / 2) e seed p1Len p2Len)
      as [[[[p0 p1'] p2'] pSeed'] |] eqn:Hp; [| intros _; exists seed; exact Hp].
    apply geneareteProvablePrimesWithConditions_step7_failed.
Qed.

(** X15, on a construction that fails for every seed. *)
Lemma provable_failure_is_a_failed_construction_witness :
  let env := Reference.collaborators [] in
  2 ^ 16 < 65537 < 2 ^ 256
  /\ Py.bit_length Sample.seed224 = 2 * getIFCSecurityLevel env 2048
  /\ generateProvablePrimes env 1 65537 2048 Sample.seed224
     = Returns (None, set_workingSeed Sample.seed224 unbound)
  /\ (2048 = 2048 \/ 2048 = 3072) /\ 65537 mod 2 = 1
  /\ exists seed', ifcProvablePrime env (2048 / 2) 1 1 seed' 65537 = None.
Proof.
  intros env.
  assert (He : 2 ^ 16 < 65537 < 2 ^ 256) by (split; reflexivity).
  assert (Hs : Py.bit_length Sample.seed224 = 2 * getIFCSecurityLevel env 2048)
    by reflexivity.
  assert (Hrun : generateProvablePrimes env 1 65537 2048 Sample.seed224
                 = Returns (None, set_workingSeed Sample.seed224 unbound))
    by reflexivity.
  assert (HN : 2048 = 2048 \/ 2048 = 3072) by (left; reflexivity).
  assert (Hodd : 65537 mod 2 = 1) by reflexivity.
  repeat (split; [assumption |]).
  exact (proj1 (provable_failure_is_a_failed_construction env 1 65537 2048
                  Sample.seed224 _ He Hs) Hrun HN Hodd).
Defined.

(** ** The ciphertext of [oaepEncrypt] *)

Lemma bit_length_bounds (n : Z) :
  0 < n -> 2 ^ (Py.bit_length n - 1) <= n < 2 ^ Py.bit_length n.
Proof.
  intros Hn. destruct n as [| p | p]; try lia.
  cbn [Py.bit_length].
  pose proof (Z.log2_spec (Z.pos p) ltac:(lia)) as Hs.
  replace (Z.log2 (Z.pos p) + 1 - 1) with (Z.log2 (Z.pos p)) by lia.
  replace (Z.log2 (Z.pos p) + 1) with (Z.succ (Z.log2 (Z.pos p))) by lia.
  exact Hs.
Qed.

Lemma bit_length_nonneg (n : Z) : 0 <= Py.bit_length n.
Proof.
  destruct n as [| p | p]; cbn [Py.bit_length]; try lia;
    pose proof (Z.log2_nonneg (Z.pos p)); lia.
Qed.

Lemma pow256 (k : Z) : 0 <= k -> 256 ^ k = 2 ^ (8 * k).
Proof. intros Hk. rewrite Z.pow_mul_r by lia. reflexivity. Qed.

Lemma byteLength_nonneg (n : Z) : 0 <= BaseBytes.byteLength n.
Proof.
  unfold BaseBytes.byteLength. pose proof (bit_length_nonneg n).
  apply Z.div_pos; lia.
Qed.

(** [n] fits in [byteLength(n)] bytes, and in no fewer. *)
Lemma byteLength_fits (n : Z) : 0 <= n -> n < 256 ^ BaseBytes.byteLength n.
Proof.
  intros Hn. pose proof (byteLength_nonneg n) as Hb.
  rewrite pow256 by exact Hb.
  destruct (Z.eq_dec n 0) as [-> | Hnz].
  - apply Z.pow_pos_nonneg; lia.
  - pose proof (bit_length_bounds n ltac:(lia)) as [_ Hlt].
    eapply Z.lt_le_trans; [exact Hlt |].
    apply Z.pow_le_mono_r; [lia |].
    unfold BaseBytes.byteLength.
    pose proof (Z.div_mod (Py.bit_length n + 7) 8 ltac:(lia)).
    pose proof (Z.mod_pos_bound (Py.bit_length n + 7) 8 ltac:(lia)). lia.
Qed.

Lemma byteLength_needed (n : Z) :
  0 < n -> 256 ^ (BaseBytes.byteLength n - 1) <= n.
Proof.
  intros Hn. pose proof (bit_length_bounds n Hn) as [Hle _].
  pose proof (bit_length_nonneg n) as Hb.
  assert (Hpos : 1 <= Py.bit_length n).
  { destruct n as [| p | p]; try lia. cbn [Py.bit_length].
    pose proof (Z.log2_nonneg (Z.pos p)). lia. }
  pose proof (Z.div_mod (Py.bit_length n + 7) 8 ltac:(lia)) as Hdm.
  pose proof (Z.mod_pos_bound (Py.bit_length n + 7) 8 ltac:(lia)) as Hmod.
  fold (BaseBytes.byteLength n) in Hdm.
  rewrite pow256 by lia.
  eapply Z.le_trans; [| exact Hle].
  apply Z.pow_le_mono_r; lia.
Qed.

Lemma byteLength_below (v h : Z) :
  0 <= h -> 0 <= v < 2 ^ (8 * h) -> BaseBytes.byteLength v <= h.
Proof.
  intros Hh Hv. unfold BaseBytes.byteLength.
  destruct (Z.eq_dec v 0) as [-> | Hnz].
  - cbn [Py.bit_length]. change ((0 + 7) / 8) with 0. exact Hh.
  - pose proof (bit_length_bounds v ltac:(lia)) as [Hle _].
    assert (Hb : Py.bit_length v - 1 < 8 * h).
    { apply (Z.pow_lt_mono_r_iff 2); lia. }
    pose proof (Z.div_mod (Py.bit_length v + 7) 8 ltac:(lia)).
    pose proof (Z.mod_pos_bound (Py.bit_length v + 7) 8 ltac:(lia)). lia.
Qed.

Lemma intToBytes_default (n : Z) :
  0 <= n ->
  BaseBytes.intToBytes n None
  = Returns (BaseBytes.big_endian (Z.to_nat (BaseBytes.byteLength n)) n).
Proof.
  intros Hn. unfold BaseBytes.intToBytes, BaseBytes.to_bytes.
  pose proof (byteLength_nonneg n). pose proof (byteLength_fits n Hn).
  destruct (Z.ltb_spec (BaseBytes.byteLength n) 0); [lia |].
  destruct (Z.ltb_spec n 0); [lia |].
  destruct (Z.leb_spec (256 ^ BaseBytes.byteLength n) n); [lia |].
  reflexivity.
Qed.

Lemma to_Z_byte (b : byte) : 0 <= Bytes.to_Z b < 256.
Proof.
  unfold Bytes.to_Z. pose proof (Byte.to_N_bounded b). lia.
Qed.

Lemma bytesToInt_below (l : list byte) (acc k : Z) :
  0 <= k -> 0 <= acc < 256 ^ k ->
  0 <= fold_left (fun a x => a * 256 + Bytes.to_Z x) l acc < 256 ^ (k + Bytes.len l).
Proof.
  revert acc k. induction l as [| b l IH]; intros acc k Hk Hacc; cbn [fold_left].
  - change (Bytes.len []) with 0. rewrite Z.add_0_r. exact Hacc.
  - replace (k + Bytes.len (b :: l)) with ((k + 1) + Bytes.len l)
      by (unfold Bytes.len; cbn [length]; lia).
    apply IH; [lia |].
    pose proof (to_Z_byte b). rewrite Z.pow_add_r, Z.pow_1_r by lia. lia.
Qed.

(** An encoded message that starts with a zero byte is a number of at most
    [len - 1] bytes. *)
Lemma bytesToInt_leading_zero (l : list byte) :
  0 <= BaseBytes.bytesToInt (x00 :: l) < 256 ^ Bytes.len l.
Proof.
  unfold BaseBytes.bytesToInt. cbn [fold_left].
  change (0 * 256 + Bytes.to_Z x00) with 0.
  apply (bytesToInt_below l 0 0); [lia | split; [lia | reflexivity]].
Qed.

Lemma MGF_returns (seed : list byte) (length : Z) :
  0 <= length <= 2 ^ 32 * 32 ->
  exists t, MGF seed length hashlib_sha256 = Returns (Some t)
            /\ Bytes.len t = length.
Proof.
  intros [Hlo Hhi].
  assert (Hex : exists t, MGF seed length hashlib_sha256 = Returns (Some t)).
  { unfold MGF. cbn [digest_size hashlib_sha256].
    destruct (Z.ltb_spec (2 ^ 32 * 32) length); [lia |].
    change (32 =? 0) with false. cbv iota.
    pose proof (MGF_blocks length Hlo) as B. cbv zeta in B.
    destruct (MGF_loop_returns hashlib_sha256 seed
                (Z.to_nat (if negb (length mod 32 =? 0) then length / 32 + 1
                           else length / 32)) 0 [])
      as [t0 Ht0]; [lia | lia |].
    rewrite Ht0. cbn [obind]. eexists. reflexivity. }
  destruct Hex as [t Ht]. exists t. split; [exact Ht |].
  exact (MGF_length seed length t Hlo Ht).
Qed.

Lemma bind_lift {A B : Type} (c : outcome A) (k : A -> M B) (a : A) (r : Rng) :
  c = Returns a -> bind (lift c) k r = k a r.
Proof. intros ->. reflexivity. Qed.

(** X16. For a modulus [n > 0], an exponent [e >= 0] and the default
    SHA-256, [oaepEncrypt] returns [None], without drawing, when the
    message is longer than [byteLength(n) - 2 * 32 - 2] bytes; otherwise it
    draws one random number and returns a ciphertext of exactly
    [byteLength(n)] bytes. *)
Theorem oaepEncrypt_ciphertext
    (e n : Z) (message label : list byte) (r : Rng) :
  0 < n -> 0 <= e -> BaseBytes.byteLength n <= 2 ^ 32 * 32 ->
  let nLength := BaseBytes.byteLength n in
  (nLength - 2 * 32 - 2 < Bytes.len message ->
   oaepEncrypt e n message label hashlib_sha256 r = Returns (None, r))
  /\ (Bytes.len message <= nLength - 2 * 32 - 2 ->
      exists ciphertext,
        oaepEncrypt e n message label hashlib_sha256 r
        = Returns (Some ciphertext, mkRng (entropy r) (S (cursor r)))
        /\ Bytes.len ciphertext = nLength).
Proof.
  intros Hn He Hmax nLength. fold nLength in Hmax.
  assert (Hmlen : 0 <= Bytes.len message) by (unfold Bytes.len; lia).
  assert (HnB : Bytes.len (BaseBytes.big_endian (Z.to_nat nLength) n) = nLength).
  { unfold Bytes.len. rewrite big_endian_length.
    pose proof (byteLength_nonneg n). unfold nLength. lia. }
  unfold oaepEncrypt.
  rewrite (bind_lift _ _ _ _ (intToBytes_default n ltac:(lia))).
  fold nLength. rewrite HnB. cbn [digest_size hashlib_sha256 digest].
  split.
  - intros Hlong.
    destruct (Z.ltb_spec (nLength - 2 * 32 - 2) (Bytes.len message)); [| lia].
    reflexivity.
  - intros Hshort.
    destruct (Z.ltb_spec (nLength - 2 * 32 - 2) (Bytes.len message)); [lia |].
    unfold bind at 1. unfold Py.randbits at 1.
    change (32 * 8 <? 0) with false. cbv iota.
    set (v := Z.land (entropy r (cursor r)) (Z.ones (32 * 8))).
    set (r1 := mkRng (entropy r) (S (cursor r))).
    assert (Hv : 0 <= v < 2 ^ (8 * 32)).
    { unfold v. rewrite Z.land_ones by lia. apply Z.mod_pos_bound. reflexivity. }
    rewrite (bind_lift _ _ _ _ (intToBytes_default v ltac:(lia))).
    set (seed := BaseBytes.big_endian (Z.to_nat (BaseBytes.byteLength v)) v).
    assert (Hseed : Bytes.len seed <= 32).
    { unfold seed, Bytes.len. rewrite big_endian_length.
      pose proof (byteLength_nonneg v).
      pose proof (byteLength_below v 32 ltac:(lia) Hv). lia. }
    destruct (MGF_returns seed (nLength - 32 - 1) ltac:(lia))
      as (dbMask & HdbMask & HdbLen).
    rewrite (bind_lift _ _ _ _ HdbMask).
    cbn [xor_mask]. rewrite (bind_lift _ _ _ _ eq_refl).
    set (db := Sha256.sha256 label
               ++ repeat x00 (Z.to_nat (nLength - Bytes.len message - 2 * 32 - 2))
               ++ [x01] ++ message).
    assert (Hdb : Bytes.len db = nLength - 32 - 1).
    { unfold db, Bytes.len in *.
      rewrite !length_app, sha256_length, repeat_length. cbn [length]. lia. }
    set (maskedDb := BaseBytes.xor db dbMask).
    assert (HmaskedDb : Bytes.len maskedDb = nLength - 32 - 1).
    { unfold maskedDb. rewrite xor_length. lia. }
    destruct (MGF_returns maskedDb 32 ltac:(lia)) as (seedMask & HseedMask & HsLen).
    rewrite (bind_lift _ _ _ _ HseedMask).
    cbn [xor_mask]. rewrite (bind_lift _ _ _ _ eq_refl).
    set (maskedSeed := BaseBytes.xor seed seedMask).
    assert (HmaskedSeed : Bytes.len maskedSeed <= 32).
    { unfold maskedSeed. rewrite xor_length. lia. }
    set (em := [x00] ++ maskedSeed ++ maskedDb).
    pose proof (bytesToInt_leading_zero (maskedSeed ++ maskedDb)) as Hm.
    change (x00 :: maskedSeed ++ maskedDb) with em in Hm.
    assert (Hlen : Bytes.len (maskedSeed ++ maskedDb) <= nLength - 1).
    { unfold Bytes.len in *. rewrite length_app. lia. }
    pose proof (byteLength_needed n Hn) as Hneed. fold nLength in Hneed.
    assert (Hsmall : BaseBytes.bytesToInt em < n).
    { eapply Z.lt_le_trans; [exact (proj2 Hm) |].
      eapply Z.le_trans; [| exact Hneed].
      apply Z.pow_le_mono_r; [lia | exact Hlen]. }
    assert (Henc : encrypt e n (BaseBytes.bytesToInt em)
                   = Returns (Some (BaseBytes.bytesToInt em ^ e mod n))).
    { unfold encrypt.
      destruct (Z.ltb_spec (BaseBytes.bytesToInt em) 0); [lia |].
      destruct (Z.ltb_spec (n - 1) (BaseBytes.bytesToInt em)); [lia |].
      cbn [orb]. rewrite pow3_nonneg_exponent by lia. reflexivity. }
    rewrite (bind_lift _ _ _ _ Henc).
    pose proof (Z.mod_pos_bound (BaseBytes.bytesToInt em ^ e) n Hn) as Hc.
    pose proof (byteLength_fits n ltac:(lia)) as Hfit. fold nLength in Hfit.
    pose proof (byteLength_nonneg n) as Hnn. fold nLength in Hnn.
    assert (Hout : BaseBytes.intToBytes (BaseBytes.bytesToInt em ^ e mod n)
                     (Some nLength)
                   = Returns (BaseBytes.big_endian (Z.to_nat nLength)
                                (BaseBytes.bytesToInt em ^ e mod n))).
    { unfold BaseBytes.intToBytes, BaseBytes.to_bytes.
      destruct (Z.ltb_spec nLength 0); [lia |].
      destruct (Z.ltb_spec (BaseBytes.bytesToInt em ^ e mod n) 0); [lia |].
      destruct (Z.leb_spec (256 ^ nLength) (BaseBytes.bytesToInt em ^ e mod n));
        [lia | reflexivity]. }
    rewrite (bind_lift _ _ _ _ Hout).
    eexists. split; [reflexivity |].
    unfold Bytes.len. rewrite big_endian_length. lia.
Qed.

(** X16, on the sample key of 2048 bits and the message [b"hi"]. *)
Lemma oaepEncrypt_ciphertext_witness :
  0 < Sample.rsa_n /\ 0 <= 65537
  /\ BaseBytes.byteLength Sample.rsa_n <= 2 ^ 32 * 32
  /\ Bytes.len Sample.message <= BaseBytes.byteLength Sample.rsa_n - 2 * 32 - 2
  /\ exists ciphertext,
       oaepEncrypt 65537 Sample.rsa_n Sample.message [] hashlib_sha256
         (Sample.source [Sample.oaep_draw])
       = Returns (Some ciphertext,
                  mkRng (entropy (Sample.source [Sample.oaep_draw]))
                        (S (cursor (Sample.source [Sample.oaep_draw]))))
       /\ Bytes.len ciphertext = BaseBytes.byteLength Sample.rsa_n.
Proof.
  assert (Hn : 0 < Sample.rsa_n) by reflexivity.
  assert (He : 0 <= 65537) by discriminate.
  assert (Hmax : BaseBytes.byteLength Sample.rsa_n <= 2 ^ 32 * 32)
    by (vm_compute; discriminate).
  assert (Hshort : Bytes.len Sample.message
                   <= BaseBytes.byteLength Sample.rsa_n - 2 * 32 - 2)
    by (vm_compute; discriminate).
  repeat (split; [assumption |]).
  exact (proj2 (oaepEncrypt_ciphertext 65537 Sample.rsa_n Sample.message []
                  (Sample.source [Sample.oaep_draw]) Hn He Hmax) Hshort).
Defined.

(** ** Decoding an honest ciphertext *)

Lemma of_Z_to_Z (b : byte) : Bytes.of_Z (Bytes.to_Z b) = b.
Proof.
  unfold Bytes.of_Z. pose proof (to_Z_byte b) as Hb.
  rewrite Z.mod_small by exact Hb.
  unfold Bytes.to_Z. rewrite N2Z.id, Byte.of_to_N. reflexivity.
Qed.

Lemma to_Z_of_Z (z : Z) : Bytes.to_Z (Bytes.of_Z z) = z mod 256.
Proof.
  unfold Bytes.of_Z, Bytes.to_Z.
  pose proof (Z.mod_pos_bound z 256 ltac:(lia)) as Hm.
  destruct (Byte.of_N (Z.to_N (z mod 256))) as [b |] eqn:Hb.
  - apply Byte.to_of_N in Hb. rewrite Hb. lia.
  - apply Byte.of_N_None_iff in Hb. lia.
Qed.

Lemma of_Z_mod (x y : Z) : Bytes.of_Z (x * 256 + y) = Bytes.of_Z y.
Proof.
  unfold Bytes.of_Z. rewrite Z.add_comm, Z_mod_plus_full. reflexivity.
Qed.

Lemma bytesToInt_snoc (l : list byte) (b : byte) :
  BaseBytes.bytesToInt (l ++ [b]) = BaseBytes.bytesToInt l * 256 + Bytes.to_Z b.
Proof. unfold BaseBytes.bytesToInt. rewrite fold_left_app. reflexivity. Qed.

(** [intToBytes] and [bytesToInt] are inverse to each other. *)
Lemma bytesToInt_big_endian (k : nat) (n : Z) :
  BaseBytes.bytesToInt (BaseBytes.big_endian k n) = n mod 256 ^ Z.of_nat k.
Proof.
  revert n. induction k as [| k IH]; intros n.
  - cbn [BaseBytes.big_endian]. change (256 ^ Z.of_nat 0) with 1.
    rewrite Z.mod_1_r. reflexivity.
  - cbn [BaseBytes.big_endian]. rewrite bytesToInt_snoc, IH, to_Z_of_Z.
    rewrite Nat2Z.inj_succ, Z.pow_succ_r by lia.
    rewrite Z.rem_mul_r; [lia | lia |].
    apply Z.pow_pos_nonneg; lia.
Qed.

Lemma big_endian_bytesToInt (l : list byte) :
  BaseBytes.big_endian (length l) (BaseBytes.bytesToInt l) = l.
Proof.
  induction l as [| b l IH] using rev_ind; [reflexivity |].
  rewrite length_app, Nat.add_1_r. cbn [length BaseBytes.big_endian].
  rewrite bytesToInt_snoc, of_Z_mod, of_Z_to_Z.
  pose proof (to_Z_byte b) as Hb.
  replace ((BaseBytes.bytesToInt l * 256 + Bytes.to_Z b) / 256)
    with (BaseBytes.bytesToInt l).
  - rewrite IH. reflexivity.
  - apply Z.div_unique with (Bytes.to_Z b); lia.
Qed.

Lemma lxor_byte (x y : Z) :
  0 <= x < 256 -> 0 <= y < 256 -> 0 <= Z.lxor x y < 256.
Proof.
  intros Hx Hy.
  assert (Hnn : 0 <= Z.lxor x y) by (apply Z.lxor_nonneg; lia).
  split; [exact Hnn |].
  destruct (Z.eq_dec (Z.lxor x y) 0) as [-> | Hne]; [lia |].
  change 256 with (2 ^ 8). apply Z.log2_lt_pow2; [lia |].
  eapply Z.le_lt_trans; [apply Z.log2_lxor; lia |].
  apply Z.max_lub_lt.
  - destruct (Z.eq_dec x 0) as [-> | ?]; [reflexivity |].
    apply Z.log2_lt_pow2; [lia |]. change (2 ^ 8) with 256. lia.
  - destruct (Z.eq_dec y 0) as [-> | ?]; [reflexivity |].
    apply Z.log2_lt_pow2; [lia |]. change (2 ^ 8) with 256. lia.
Qed.

(** Masking twice with the same mask gives the bytes back. *)
Lemma xor_twice (a b : list byte) :
  (length a <= length b)%nat -> BaseBytes.xor (BaseBytes.xor a b) b = a.
Proof.
  revert b. induction a as [| x a IH]; intros b Hlen; [reflexivity |].
  destruct b as [| y b]; [cbn [length] in Hlen; lia |].
  unfold BaseBytes.xor in *. cbn [combine map fst snd].
  rewrite IH by (cbn [length] in Hlen; lia).
  f_equal.
  pose proof (lxor_byte _ _ (to_Z_byte x) (to_Z_byte y)) as Hb.
  rewrite to_Z_of_Z, Z.mod_small by exact Hb.
  rewrite Z.lxor_assoc, Z.lxor_nilpotent, Z.lxor_0_r. apply of_Z_to_Z.
Qed.

Lemma bytes_eqb_refl (a : list byte) : Bytes.eqb a a = true.
Proof.
  induction a as [| x a IH]; [reflexivity |].
  cbn [Bytes.eqb]. rewrite (Byte.byte_dec_lb (eq_refl x)), IH. reflexivity.
Qed.

(** The three parts of an encoded message [0x00 || maskedSeed || maskedDb]. *)
Lemma slice_range (s : list byte) (a b : Z) :
  0 <= a <= b -> b <= Bytes.len s ->
  Bytes.slice s (Some a) (Some b)
  = firstn (Z.to_nat (b - a)) (skipn (Z.to_nat a) s).
Proof.
  intros Hab Hb. unfold Bytes.slice, Bytes.clamp.
  destruct (Z.ltb_spec a 0); [lia |]. destruct (Z.ltb_spec b 0); [lia |].
  rewrite !Z.min_l by lia. reflexivity.
Qed.

Lemma firstn_front {A : Type} (a b : list A) : firstn (length a) (a ++ b) = a.
Proof.
  rewrite firstn_app, Nat.sub_diag, firstn_all. cbn [firstn].
  apply app_nil_r.
Qed.

Lemma skipn_front {A : Type} (a b : list A) : skipn (length a) (a ++ b) = b.
Proof.
  rewrite skipn_app, Nat.sub_diag, skipn_all. reflexivity.
Qed.

Lemma encoded_parts (maskedSeed maskedDb : list byte) (nLength : Z) :
  Bytes.len maskedSeed = 32 -> Bytes.len maskedDb = nLength - 32 - 1 ->
  let em := [x00] ++ maskedSeed ++ maskedDb in
  Bytes.len em = nLength
  /\ Bytes.item em 0 = Returns 0
  /\ Bytes.slice em (Some 1) (Some (1 + 32)) = maskedSeed
  /\ Bytes.slice em (Some (1 + 32)) (Some nLength) = maskedDb.
Proof.
  intros Hs Hd em.
  assert (Hem : Bytes.len em = nLength).
  { unfold em, Bytes.len in *. cbn [app length]. rewrite length_app. lia. }
  assert (Hdn : 0 <= Bytes.len maskedDb) by (unfold Bytes.len; lia).
  split; [exact Hem |]. split; [reflexivity |].
  unfold Bytes.len in Hs, Hd, Hdn.
  split.
  - rewrite slice_range by lia.
    replace (Z.to_nat (1 + 32 - 1)) with (length maskedSeed) by lia.
    change (Z.to_nat 1) with 1%nat.
    unfold em. cbn [app skipn]. apply firstn_front.
  - rewrite slice_range by lia.
    replace (Z.to_nat (1 + 32)) with (S (length maskedSeed)) by lia.
    replace (Z.to_nat (nLength - (1 + 32))) with (length maskedDb) by lia.
    unfold em. cbn [app skipn]. rewrite skipn_front. apply firstn_all.
Qed.

Lemma byteLength_full (v : Z) :
  2 ^ 248 <= v < 2 ^ 256 -> BaseBytes.byteLength v = 32.
Proof.
  intros Hv. unfold BaseBytes.byteLength.
  assert (Hpos : 0 < v).
  { pose proof (Z.pow_pos_nonneg 2 248 ltac:(lia) ltac:(lia)). lia. }
  pose proof (bit_length_bounds v Hpos) as [Hle Hlt].
  pose proof (bit_length_nonneg v) as Hnn.
  assert (H1 : 248 < Py.bit_length v).
  { apply (Z.pow_lt_mono_r_iff 2); lia. }
  assert (H2 : Py.bit_length v - 1 < 256).
  { apply (Z.pow_lt_mono_r_iff 2); lia. }
  pose proof (Z.div_mod (Py.bit_length v + 7) 8 ltac:(lia)).
  pose proof (Z.mod_pos_bound (Py.bit_length v + 7) 8 ltac:(lia)). lia.
Qed.

(** An RSA key has the property of keys that the next theorem asks for. *)
Lemma rsa_key_identity (p q e d : Z) :
  Z.prime p -> Z.prime q -> p <> q -> 0 < e -> 0 < d ->
  (e * d) mod Z.lcm (p - 1) (q - 1) = 1 mod Z.lcm (p - 1) (q - 1) ->
  forall m : Z, 0 <= m < p * q -> m ^ (e * d) mod (p * q) = m.
Proof.
  intros Hp Hq Hne He Hd Hed m Hm.
  rewrite (rsa_identity p q e d m Hp Hq Hne He Hd Hed).
  apply Z.mod_small. exact Hm.
Qed.

(** X17. [oaepDecrypt] undoes the masking of [oaepEncrypt]: for a key
    with [m ** (e * d) % n = m] for every [m] below [n] (an RSA key, by
    [rsa_key_identity]), a message that fits, and a random seed whose
    first byte is not zero, [oaepEncrypt] returns a ciphertext
    for which [oaepDecrypt] recovers the data block
    [lHash || ps || 0x01 || message], passes the label check, and starts
    the padding scan on that block at index 32. *)
Theorem oaepDecrypt_recovers_data_block
    (fuel : nat) (e d n : Z) (message label : list byte) (r : Rng) :
  0 < n -> 0 <= e -> 0 <= d ->
  (forall m : Z, 0 <= m < n -> m ^ (e * d) mod n = m) ->
  BaseBytes.byteLength n <= 2 ^ 32 * 32 ->
  Bytes.len message <= BaseBytes.byteLength n - 2 * 32 - 2 ->
  2 ^ 248 <= Z.land (entropy r (cursor r)) (Z.ones (32 * 8)) ->
  exists ciphertext,
    oaepEncrypt e n message label hashlib_sha256 r
    = Returns (Some ciphertext, mkRng (entropy r) (S (cursor r)))
    /\ oaepDecrypt fuel d n ciphertext label hashlib_sha256
       = oaepDecrypt_scan fuel
           (Sha256.sha256 label
            ++ repeat x00 (Z.to_nat (BaseBytes.byteLength n - Bytes.len message
                                     - 2 * 32 - 2))
            ++ [x01] ++ message) 32.
Proof.
  intros Hn He Hd Hkey Hmax Hshort Hfull.
  set (nLength := BaseBytes.byteLength n) in *.
  assert (Hmlen : 0 <= Bytes.len message) by (unfold Bytes.len; lia).
  pose proof (byteLength_nonneg n) as Hnn. fold nLength in Hnn.
  assert (HnB : Bytes.len (BaseBytes.big_endian (Z.to_nat nLength) n) = nLength).
  { unfold Bytes.len. rewrite big_endian_length. lia. }
  unfold oaepEncrypt.
  rewrite (bind_lift _ _ _ _ (intToBytes_default n ltac:(lia))).
  fold nLength. rewrite HnB. cbn [digest_size hashlib_sha256 digest].
  destruct (Z.ltb_spec (nLength - 2 * 32 - 2) (Bytes.len message)); [lia |].
  unfold bind at 1. unfold Py.randbits at 1.
  change (32 * 8 <? 0) with false. cbv iota.
  set (v := Z.land (entropy r (cursor r)) (Z.ones (32 * 8))) in *.
  set (r1 := mkRng (entropy r) (S (cursor r))).
  assert (Hv : 0 <= v < 2 ^ 256).
  { unfold v. rewrite Z.land_ones by lia. apply Z.mod_pos_bound. reflexivity. }
  rewrite (bind_lift _ _ _ _ (intToBytes_default v ltac:(lia))).
  rewrite (byteLength_full v ltac:(lia)).
  set (seed := BaseBytes.big_endian (Z.to_nat 32) v).
  assert (Hseed : Bytes.len seed = 32).
  { unfold seed, Bytes.len. rewrite big_endian_length. reflexivity. }
  destruct (MGF_returns seed (nLength - 32 - 1) ltac:(lia))
    as (dbMask & HdbMask & HdbLen).
  rewrite (bind_lift _ _ _ _ HdbMask).
  cbn [xor_mask]. rewrite (bind_lift _ _ _ _ eq_refl).
  set (db := Sha256.sha256 label
             ++ repeat x00 (Z.to_nat (nLength - Bytes.len message - 2 * 32 - 2))
             ++ [x01] ++ message).
  assert (Hdb : Bytes.len db = nLength - 32 - 1).
  { unfold db, Bytes.len in *.
    rewrite !length_app, sha256_length, repeat_length. cbn [length]. lia. }
  set (maskedDb := BaseBytes.xor db dbMask).
  assert (HmaskedDb : Bytes.len maskedDb = nLength - 32 - 1).
  { unfold maskedDb. rewrite xor_length. lia. }
  destruct (MGF_returns maskedDb 32 ltac:(lia)) as (seedMask & HseedMask & HsLen).
  rewrite (bind_lift _ _ _ _ HseedMask).
  cbn [xor_mask]. rewrite (bind_lift _ _ _ _ eq_refl).
  set (maskedSeed := BaseBytes.xor seed seedMask).
  assert (HmaskedSeed : Bytes.len maskedSeed = 32).
  { unfold maskedSeed. rewrite xor_length. lia. }
  destruct (encoded_parts maskedSeed maskedDb nLength HmaskedSeed HmaskedDb)
    as (Hem & Hitem & Hpart1 & Hpart2).
  cbv zeta in Hem, Hitem, Hpart1, Hpart2.
  set (em := [x00] ++ maskedSeed ++ maskedDb) in *.
  pose proof (bytesToInt_leading_zero (maskedSeed ++ maskedDb)) as Hm.
  change (x00 :: maskedSeed ++ maskedDb) with em in Hm.
  assert (Hlen : Bytes.len (maskedSeed ++ maskedDb) = nLength - 1).
  { unfold Bytes.len in *. rewrite length_app. lia. }
  pose proof (byteLength_needed n Hn) as Hneed. fold nLength in Hneed.
  rewrite Hlen in Hm.
  set (m := BaseBytes.bytesToInt em) in *.
  assert (Hsmall : 0 <= m < n) by lia.
  assert (Henc : encrypt e n m = Returns (Some (m ^ e mod n))).
  { unfold encrypt.
    destruct (Z.ltb_spec m 0); [lia |].
    destruct (Z.ltb_spec (n - 1) m); [lia |].
    cbn [orb]. rewrite pow3_nonneg_exponent by lia. reflexivity. }
  rewrite (bind_lift _ _ _ _ Henc).
  set (c := m ^ e mod n).
  pose proof (Z.mod_pos_bound (m ^ e) n Hn) as Hc. fold c in Hc.
  pose proof (byteLength_fits n ltac:(lia)) as Hfit. fold nLength in Hfit.
  assert (Hout : BaseBytes.intToBytes c (Some nLength)
                 = Returns (BaseBytes.big_endian (Z.to_nat nLength) c)).
  { unfold BaseBytes.intToBytes, BaseBytes.to_bytes.
    destruct (Z.ltb_spec nLength 0); [lia |].
    destruct (Z.ltb_spec c 0); [lia |].
    destruct (Z.leb_spec (256 ^ nLength) c); [lia | reflexivity]. }
  rewrite (bind_lift _ _ _ _ Hout).
  eexists. split; [reflexivity |].
  (* the way back *)
  unfold oaepDecrypt. fold nLength. cbn [digest_size hashlib_sha256 digest].
  unfold Bytes.len at 1. rewrite big_endian_length, Z2Nat.id, Z.eqb_refl by lia.
  cbn [negb].
  destruct (Z.ltb_spec nLength (2 * 32 + 2)); [lia |].
  rewrite bytesToInt_big_endian, Z2Nat.id, Z.mod_small by lia.
  assert (Hdec : decrypt d n c = Returns (Some m)).
  { unfold decrypt.
    destruct (Z.ltb_spec c 0); [lia |].
    destruct (Z.ltb_spec (n - 1) c); [lia |].
    cbn [orb]. rewrite pow3_nonneg_exponent by lia. cbn [obind].
    unfold c. rewrite Z.mod_pow_l, <- Z.pow_mul_r by lia.
    rewrite (Hkey m Hsmall). reflexivity. }
  rewrite Hdec. cbn [obind].
  assert (Hback : BaseBytes.intToBytes m (Some nLength) = Returns em).
  { unfold BaseBytes.intToBytes, BaseBytes.to_bytes.
    destruct (Z.ltb_spec nLength 0); [lia |].
    destruct (Z.ltb_spec m 0); [lia |].
    destruct (Z.leb_spec (256 ^ nLength) m); [lia |].
    cbn [orb]. f_equal.
    replace (Z.to_nat nLength) with (length em)
      by (unfold Bytes.len in Hem; lia).
    apply big_endian_bytesToInt. }
  rewrite Hback. cbn [obind].
  rewrite Hitem. cbn [obind].
  assert (Hseed' : BaseBytes.xor maskedSeed seedMask = seed)
    by (unfold maskedSeed; apply xor_twice; unfold Bytes.len in *; lia).
  assert (Hdb' : BaseBytes.xor maskedDb dbMask = db)
    by (unfold maskedDb; apply xor_twice; unfold Bytes.len in *; lia).
  rewrite Hpart1, Hpart2, HseedMask. cbn [obind xor_mask].
  rewrite Hseed', HdbMask. cbn [obind xor_mask].
  rewrite Hdb'.
  assert (Hlabel : Bytes.slice db None (Some 32) = Sha256.sha256 label).
  { rewrite slice_prefix by lia. change (Z.to_nat 32) with 32%nat.
    rewrite <- (sha256_length label). unfold db. apply firstn_front. }
  rewrite Hlabel, bytes_eqb_refl. reflexivity.
Qed.

(** X17, on the sample modulus with [e = d = 1], the message [b"hi"] and
    the sample seed. *)
Lemma oaepDecrypt_recovers_data_block_witness :
  0 < Sample.rsa_n /\ 0 <= 1
  /\ (forall m : Z, 0 <= m < Sample.rsa_n -> m ^ (1 * 1) mod Sample.rsa_n = m)
  /\ BaseBytes.byteLength Sample.rsa_n <= 2 ^ 32 * 32
  /\ Bytes.len Sample.message <= BaseBytes.byteLength Sample.rsa_n - 2 * 32 - 2
  /\ 2 ^ 248 <= Z.land (entropy (Sample.source [Sample.oaep_draw])
                                (cursor (Sample.source [Sample.oaep_draw])))
                       (Z.ones (32 * 8))
  /\ exists ciphertext,
       oaepEncrypt 1 Sample.rsa_n Sample.message [] hashlib_sha256
         (Sample.source [Sample.oaep_draw])
       = Returns (Some ciphertext,
                  mkRng (entropy (Sample.source [Sample.oaep_draw]))
                        (S (cursor (Sample.source [Sample.oaep_draw]))))
       /\ oaepDecrypt 1 1 Sample.rsa_n ciphertext [] hashlib_sha256
          = oaepDecrypt_scan 1
              (Sha256.sha256 []
               ++ repeat x00 (Z.to_nat (BaseBytes.byteLength Sample.rsa_n
                                        - Bytes.len Sample.message - 2 * 32 - 2))
               ++ [x01] ++ Sample.message) 32.
Proof.
  assert (Hn : 0 < Sample.rsa_n) by reflexivity.
  assert (He : 0 <= 1) by discriminate.
  assert (Hkey : forall m : Z, 0 <= m < Sample.rsa_n ->
                   m ^ (1 * 1) mod Sample.rsa_n = m).
  { intros m Hm. change (1 * 1) with 1. rewrite Z.pow_1_r.
    apply Z.mod_small. exact Hm. }
  assert (Hmax : BaseBytes.byteLength Sample.rsa_n <= 2 ^ 32 * 32)
    by (vm_compute; discriminate).
  assert (Hshort : Bytes.len Sample.message
                   <= BaseBytes.byteLength Sample.rsa_n - 2 * 32 - 2)
    by (vm_compute; discriminate).
  assert (Hfull : 2 ^ 248 <= Z.land (entropy (Sample.source [Sample.oaep_draw])
                                       (cursor (Sample.source [Sample.oaep_draw])))
                              (Z.ones (32 * 8)))
    by (vm_compute; discriminate).
  repeat (split; [assumption |]).
  exact (oaepDecrypt_recovers_data_block 1 1 1 Sample.rsa_n Sample.message []
           (Sample.source [Sample.oaep_draw]) Hn He He Hkey Hmax Hshort Hfull).
Defined.
